(** * diyjvm: the class-file decoder of [src/main.c]

    A shallow embedding of [read_class_file] and its helpers
    ([safe_fread], [read_u1], [read_u2], [read_u4],
    [read_constant_pool_entry]) together with the declarations of
    [include/diyjvm.h], and the properties of the decoder established
    on that embedding.

    Conventions of the embedding.
    - The input stream [FILE *fp] is a regular file opened with
      ["rb"]: its content is a list of bytes and its position a [Z].
      [fread] transfers as many of the requested bytes as remain and
      advances the position by that amount; [fseek(fp, n, SEEK_CUR)]
      with [n >= 0] moves the position by [n] and succeeds, also when the
      new position lies beyond the end of the file (POSIX).  No device
      error occurs on an in-memory file, so [ferror] is false.
    - The host is little-endian: the integer stored by [fread] into a
      [uint16_t]/[uint32_t] has the first file byte as its least
      significant byte, and [__builtin_bswap16/32] turns it into the
      big-endian value.
    - [malloc]/[calloc] succeed (also for size 0, as in glibc); each
      request is recorded in the state so that "allocated before/after"
      can be stated.
    - [bool ok], the flag that [read_class_file] passes by pointer to
      every reader, is a field of the state.
    - [fprintf(stderr, ...)] appends a [diagnostic] to the state;
      [DEBUG_PRINT] output (off unless [-d] is given) is not modelled.
    - [ERROR_AND_CLEANUP(msg, ...)] prints [msg], releases the
      partially built [ClassFile] and returns [NULL]: outcome
      [Aborted msg].
    - The embedding starts after [fopen] has returned the stream; the
      sizes passed to [malloc]/[calloc] for the structs are those of an
      LP64 target.
    - [free_class_file] and [main] are embedded on top of the decoder:
      [free_class_file] as the list of the blocks it releases, each
      given by its size, [main] as the value it returns and the lines
      it prints, over a map from file names to file contents that
      stands for [fopen]. *)

From Stdlib Require Import ZArith List Lia Bool.
From Stdlib.Strings Require Import Byte.
From stdpp Require Import base list strings.
Import ListNotations.

Local Open Scope Z_scope.

(** ** Constants of [include/diyjvm.h] *)

Definition JAVA_MAGIC : Z := 0xCAFEBABE.
Definition MAX_STRING_LENGTH : Z := 65535.
Definition MAX_CONSTANT_POOL_SIZE : Z := 32767.

Definition CONSTANT_Class : Z := 7.
Definition CONSTANT_Fieldref : Z := 9.
Definition CONSTANT_Methodref : Z := 10.
Definition CONSTANT_InterfaceMethodref : Z := 11.
Definition CONSTANT_String : Z := 8.
Definition CONSTANT_Integer : Z := 3.
Definition CONSTANT_Float : Z := 4.
Definition CONSTANT_Long : Z := 5.
Definition CONSTANT_Double : Z := 6.
Definition CONSTANT_NameAndType : Z := 12.
Definition CONSTANT_Utf8 : Z := 1.

(** ** Data model of [include/diyjvm.h] *)

(** [code_attribute]. *)
Record code_attribute := mk_code_attribute {
  max_stack : Z;
  max_locals : Z;
  code_length : Z;
  code : list byte
}.

(** The union [cp_info.info].  [info_zero] is the union as [calloc]
    leaves it; every other variant is the member last written by
    [read_constant_pool_entry].  [utf8_info] carries the declared
    [length] and the heap buffer [bytes] of [length + 1] bytes. *)
Inductive cp_union :=
| info_zero
| class_info (name_index : Z)
| integer_info (bytes : Z)
| string_info (string_index : Z)
| methodref_info (class_index name_and_type_index : Z)
| nameandtype_info (name_index descriptor_index : Z)
| utf8_info (length : Z) (bytes : list byte)
| long_info (high_bytes low_bytes : Z).

(** [cp_info]. *)
Record cp_info := mk_cp_info {
  tag : Z;
  info : cp_union
}.

(** A table slot as [calloc] returns it. *)
Definition cp_zero : cp_info := mk_cp_info 0 info_zero.

(** [method_info]; the pointer [code_attribute] is [NULL] ([None])
    until a "Code" attribute is decoded. *)
Record method_info := mk_method_info {
  m_access_flags : Z;
  m_name_index : Z;
  m_descriptor_index : Z;
  m_attributes_count : Z;
  m_code_attribute : option code_attribute
}.

(** [ClassFile]. *)
Record ClassFile := mk_ClassFile {
  magic : Z;
  minor_version : Z;
  major_version : Z;
  constant_pool_count : Z;
  constant_pool : list cp_info;
  access_flags : Z;
  this_class : Z;
  super_class : Z;
  interfaces_count : Z;
  fields_count : Z;
  methods_count : Z;
  methods : list method_info
}.

(** ** Messages written to [stderr] *)

Inductive diagnostic :=
| msg_unexpected_eof            (* "Error: Unexpected end of file." *)
| msg_utf8_too_long (length : Z) (* "Error: UTF8 string too long (%u)" *)
| msg_invalid_magic             (* "Invalid or missing magic number in '%s'." *)
| msg_version_unreadable        (* "Could not read version numbers." *)
| msg_unsupported_version       (* "Unsupported class file version." *)
| msg_invalid_pool_count        (* "Invalid constant pool count." *)
| msg_pool_entry_failed (i : Z) (* "Failed reading constant pool entry at index %d." *)
| msg_class_header_unreadable   (* "Could not read class header (flags/this/super)." *)
| msg_interfaces_count_unreadable (* "Could not read interfaces_count." *)
| msg_fields_count_unreadable   (* "Could not read fields_count." *)
| msg_field_info_unreadable     (* "Could not read field info." *)
| msg_field_attribute_unreadable (* "Error reading field attribute name/length." *)
| msg_methods_count_unreadable  (* "Could not read methods_count." *)
| msg_method_count_suspicious (n : Z) (* "Method count %u is suspiciously large." *)
| msg_method_info_unreadable    (* "Could not read method info." *)
| msg_method_attribute_unreadable (* "Error reading attribute name index/length for method attribute." *)
| msg_code_core_unreadable      (* "Could not read code_attribute core fields." *)
| msg_code_bytes_unreadable     (* "Could not read code bytes." *)
| msg_exception_table_length_unreadable (* "Could not read exception_table_length." *)
| msg_code_attribute_count_unreadable (* "Could not read code attribute_count." *)
| msg_code_sub_attribute_unreadable (* "Error reading code sub-attribute name/length in Code attribute." *)
| msg_attribute_name_index_out_of_range (* "attribute_name_index out of range." *)
| msg_seek_interfaces           (* "Seek failed when skipping interfaces." *)
| msg_seek_field_attribute      (* "Seek failed skipping field attribute." *)
| msg_seek_exception_table      (* "Seek failed skipping exception table." *)
| msg_seek_code_sub_attribute   (* "Seek failed skipping sub-attribute in Code." *)
| msg_seek_method_attribute.    (* "Seek failed skipping unknown method attribute." *)

(** ** Program state *)

Record state := mk_state {
  fdata : list byte;        (* content of the file behind [fp] *)
  fpos : Z;                 (* file position indicator *)
  ok : bool;                (* the flag [bool ok] of [read_class_file] *)
  stderr : list diagnostic; (* lines printed so far *)
  allocs : list Z           (* byte sizes requested from malloc/calloc *)
}.

Definition set_fpos (p : Z) (s : state) : state :=
  mk_state (fdata s) p (ok s) (stderr s) (allocs s).
Definition set_ok (b : bool) (s : state) : state :=
  mk_state (fdata s) (fpos s) b (stderr s) (allocs s).
Definition add_stderr (d : diagnostic) (s : state) : state :=
  mk_state (fdata s) (fpos s) (ok s) (stderr s ++ [d]) (allocs s).
Definition add_alloc (n : Z) (s : state) : state :=
  mk_state (fdata s) (fpos s) (ok s) (stderr s) (allocs s ++ [n]).

(** State at entry of [read_class_file], after [fopen] succeeded. *)
Definition initial_state (content : list byte) : state :=
  mk_state content 0 true [] [].

(** ** The monad of the decoder: state plus early [return NULL] *)

Inductive outcome (A : Type) :=
| Done (a : A)
| Aborted (msg : diagnostic).
Arguments Done {A} a.
Arguments Aborted {A} msg.

Definition M (A : Type) : Type := state -> outcome A * state.

Definition ret {A} (a : A) : M A := fun s => (Done a, s).

Definition bind {A B} (m : M A) (f : A -> M B) : M B :=
  fun s =>
    match m s with
    | (Done a, s') => f a s'
    | (Aborted e, s') => (Aborted e, s')
    end.

Notation "'let*' x ':=' m 'in' f" := (bind m (fun x => f))
  (at level 10, x name, m at level 100, f at level 200).
Notation "'do*' m 'in' f" := (bind m (fun _ => f))
  (at level 10, m at level 100, f at level 200).

Definition get_ok : M bool := fun s => (Done (ok s), s).
Definition put_ok (b : bool) : M unit := fun s => (Done tt, set_ok b s).
Definition fprintf_stderr (d : diagnostic) : M unit :=
  fun s => (Done tt, add_stderr d s).
Definition malloc (n : Z) : M unit := fun s => (Done tt, add_alloc n s).
Definition calloc (n size : Z) : M unit := malloc (n * size).

Definition sizeof_ClassFile : Z := 48.
Definition sizeof_cp_info : Z := 24.
Definition sizeof_method_info : Z := 16.
Definition sizeof_code_attribute : Z := 16.

(** [ERROR_AND_CLEANUP(msg, { free_class_file(cf); fclose(file); })]. *)
Definition ERROR_AND_CLEANUP {A} (msg : diagnostic) : M A :=
  fun s => (Aborted msg, add_stderr msg s).

(** ** The stream primitives *)

Definition byte_val (b : byte) : Z := Z.of_N (Byte.to_N b).

(** Bytes of the file from the current position on; none once the
    position is at or beyond the end. *)
Definition remaining (s : state) : list byte :=
  if Z.of_nat (List.length (fdata s)) <=? fpos s then []
  else drop (Z.to_nat (fpos s)) (fdata s).

(** [fread(buffer, size, count, fp)]: the bytes stored into [buffer]
    and the number of complete items transferred. *)
Definition fread (size count : Z) : M (Z * list byte) :=
  fun s =>
    let want := size * count in
    let rest := remaining s in
    let got := if Z.of_nat (List.length rest) <=? want then rest
               else take (Z.to_nat want) rest in
    let n := if size =? 0 then 0 else Z.of_nat (List.length got) / size in
    (Done (n, got), set_fpos (fpos s + Z.of_nat (List.length got)) s).

(** [fseek(fp, offset, SEEK_CUR)] for [offset >= 0]: returns 0. *)
Definition fseek_cur (offset : Z) : M Z :=
  fun s => (Done 0, set_fpos (fpos s + offset) s).

(** [safe_fread]: 1 with the buffer on success, 0 after a short read. *)
Definition safe_fread (size count : Z) : M (Z * list byte) :=
  let* r := fread size count in
  if fst r <? count
  then do* fprintf_stderr msg_unexpected_eof in ret (0, snd r)
  else ret (1, snd r).

(** The integer a little-endian host finds in memory after [fread]
    stored [bs] there. *)
Fixpoint le_load (bs : list byte) : Z :=
  match bs with
  | [] => 0
  | b :: bs' => Z.lor (byte_val b) (Z.shiftl (le_load bs') 8)
  end.

Definition bswap16 (v : Z) : Z :=
  Z.lor (Z.shiftl (Z.land v 0xFF) 8) (Z.land (Z.shiftr v 8) 0xFF).

Definition bswap32 (v : Z) : Z :=
  Z.lor (Z.shiftl (Z.land v 0xFF) 24)
    (Z.lor (Z.shiftl (Z.land (Z.shiftr v 8) 0xFF) 16)
       (Z.lor (Z.shiftl (Z.land (Z.shiftr v 16) 0xFF) 8)
          (Z.land (Z.shiftr v 24) 0xFF))).

Definition read_u4 : M Z :=
  let* r := safe_fread 4 1 in
  if fst r =? 0 then do* put_ok false in ret 0
  else ret (bswap32 (le_load (snd r))).

Definition read_u2 : M Z :=
  let* r := safe_fread 2 1 in
  if fst r =? 0 then do* put_ok false in ret 0
  else ret (bswap16 (le_load (snd r))).

Definition read_u1 : M Z :=
  let* r := safe_fread 1 1 in
  if fst r =? 0 then do* put_ok false in ret 0
  else ret (le_load (snd r)).

(** ** [read_constant_pool_entry] *)

(** Tail of every case that leaves the [switch] by [break]:
    [if (!*ok) return 0; return 1;]. *)
Definition after_switch (entry : cp_info) : M (Z * cp_info) :=
  let* k := get_ok in
  if negb k then ret (0, entry) else ret (1, entry).

(** Case [CONSTANT_Utf8] once [length] has been read successfully. *)
Definition utf8_case (entry : cp_info) (length : Z) : M (Z * cp_info) :=
  if length >? MAX_STRING_LENGTH then
    do* fprintf_stderr (msg_utf8_too_long length) in
    do* put_ok false in
    ret (0, entry)
  else
    do* malloc (length + 1) in
    let* r := safe_fread 1 length in
    if fst r =? 0 then
      do* put_ok false in
      ret (0, mk_cp_info (tag entry) (utf8_info length (snd r)))
    else
      after_switch (mk_cp_info (tag entry) (utf8_info length (snd r ++ [x00]))).

(** The slot [entry] is written in place; the model returns the
    [int] result together with the slot's new content. *)
Definition read_constant_pool_entry (entry : cp_info) : M (Z * cp_info) :=
  let* t := read_u1 in
  let* k := get_ok in
  if negb k then ret (0, mk_cp_info t (info entry)) else
  if t =? CONSTANT_Class then
    let* v := read_u2 in
    after_switch (mk_cp_info t (class_info v))
  else if t =? CONSTANT_Utf8 then
    let* length := read_u2 in
    let* k := get_ok in
    if negb k then ret (0, mk_cp_info t (info entry)) else
    utf8_case (mk_cp_info t (info entry)) length
  else if t =? CONSTANT_Integer then
    let* v := read_u4 in
    after_switch (mk_cp_info t (integer_info v))
  else if t =? CONSTANT_String then
    let* v := read_u2 in
    after_switch (mk_cp_info t (string_info v))
  else if (t =? CONSTANT_Fieldref) || (t =? CONSTANT_Methodref)
          || (t =? CONSTANT_InterfaceMethodref) then
    let* c := read_u2 in
    let* nt := read_u2 in
    after_switch (mk_cp_info t (methodref_info c nt))
  else if t =? CONSTANT_NameAndType then
    let* n := read_u2 in
    let* d := read_u2 in
    after_switch (mk_cp_info t (nameandtype_info n d))
  else if (t =? CONSTANT_Long) || (t =? CONSTANT_Double) then
    let* h := read_u4 in
    let* l := read_u4 in
    ret (2, mk_cp_info t (long_info h l))
  else
    (* default: nothing is read, the union is left as it was *)
    after_switch (mk_cp_info t (info entry)).

(** ** The sections of [read_class_file] *)

(** [cf->constant_pool[i]]. *)
Definition pool_slot (pool : list cp_info) (i : Z) : cp_info :=
  default cp_zero (pool !! Z.to_nat i).

(** The loop [for (int i = 1; i < cf->constant_pool_count;)], entered
    with the current [i].  Every iteration adds at least 1 to [i], so
    [fuel] at least [count - i] is never used up. *)
Fixpoint read_constant_pool (fuel : nat) (count i : Z) (pool : list cp_info)
  : M (list cp_info) :=
  if negb (i <? count) then ret pool else
  match fuel with
  | O => ret pool
  | S fuel' =>
      let* r := read_constant_pool_entry (pool_slot pool i) in
      let pool' := <[Z.to_nat i := snd r]> pool in
      let* k := get_ok in
      if negb k || (fst r =? 0)
      then ERROR_AND_CLEANUP (msg_pool_entry_failed i)
      else read_constant_pool fuel' count (i + fst r) pool'
  end.

(** The loops that read [name_index] and [length] of an attribute and
    seek over its payload: the attributes of a field ([e_read],
    [e_seek] the two field messages) and the sub-attributes of Code. *)
Fixpoint skip_attributes (e_read e_seek : diagnostic) (n : nat) : M unit :=
  match n with
  | O => ret tt
  | S n' =>
      let* attr_name_index := read_u2 in
      let* attr_length := read_u4 in
      let* k := get_ok in
      if negb k then ERROR_AND_CLEANUP e_read else
      let* r := fseek_cur attr_length in
      if negb (r =? 0) then ERROR_AND_CLEANUP e_seek else
      skip_attributes e_read e_seek n'
  end.

(** The loop [for (int i = 0; i < cf->fields_count; i++)]. *)
Fixpoint skip_fields (n : nat) : M unit :=
  match n with
  | O => ret tt
  | S n' =>
      let* field_access := read_u2 in
      let* field_name := read_u2 in
      let* field_desc := read_u2 in
      let* field_attr_count := read_u2 in
      let* k := get_ok in
      if negb k then ERROR_AND_CLEANUP msg_field_info_unreadable else
      do* skip_attributes msg_field_attribute_unreadable
            msg_seek_field_attribute (Z.to_nat field_attr_count) in
      skip_fields n'
  end.

(** [strcmp] on NUL-terminated buffers: the sign of the first
    difference, bytes compared as [unsigned char]. *)
Fixpoint strcmp (a b : list byte) : Z :=
  match a, b with
  | [], [] => 0
  | x :: _, [] => if byte_val x =? 0 then 0 else 1
  | [], y :: _ => if byte_val y =? 0 then 0 else -1
  | x :: a', y :: b' =>
      if byte_val x =? byte_val y
      then (if byte_val x =? 0 then 0 else strcmp a' b')
      else byte_val x - byte_val y
  end.

(** The string literal ["Code"]. *)
Definition Code_literal : list byte := [x43; x6f; x64; x65; x00].

(** [attrName->info.utf8_info.bytes]; read only when the tag is
    [CONSTANT_Utf8], and such a slot was filled by [utf8_case]. *)
Definition utf8_bytes (e : cp_info) : list byte :=
  match info e with
  | utf8_info _ b => b
  | _ => []
  end.

(** The test [attrName->tag == CONSTANT_Utf8 &&
    strcmp(attrName->info.utf8_info.bytes, "Code") == 0]. *)
Definition is_Code_name (attrName : cp_info) : bool :=
  (tag attrName =? CONSTANT_Utf8)
  && (strcmp (utf8_bytes attrName) Code_literal =? 0).

Definition set_code_attribute (method : method_info) (c : code_attribute)
  : method_info :=
  mk_method_info (m_access_flags method) (m_name_index method)
    (m_descriptor_index method) (m_attributes_count method) (Some c).

(** After the instruction bytes: exception table and sub-attributes
    ([main.c] lines 385-426). *)
Definition skip_code_tail : M unit :=
  let* exception_table_length := read_u2 in
  let* k := get_ok in
  if negb k then ERROR_AND_CLEANUP msg_exception_table_length_unreadable else
  let* r := fseek_cur (exception_table_length * 8) in
  if negb (r =? 0) then ERROR_AND_CLEANUP msg_seek_exception_table else
  let* code_attr_count := read_u2 in
  let* k := get_ok in
  if negb k then ERROR_AND_CLEANUP msg_code_attribute_count_unreadable else
  skip_attributes msg_code_sub_attribute_unreadable
    msg_seek_code_sub_attribute (Z.to_nat code_attr_count).

(** The branch taken for a "Code" attribute ([main.c] lines 350-426). *)
Definition read_code_attribute (method : method_info) : M method_info :=
  do* calloc 1 sizeof_code_attribute in
  let* ms := read_u2 in
  let* ml := read_u2 in
  let* cl := read_u4 in
  let* k := get_ok in
  if negb k then ERROR_AND_CLEANUP msg_code_core_unreadable else
  do* malloc cl in
  let* r := safe_fread 1 cl in
  if fst r =? 0 then ERROR_AND_CLEANUP msg_code_bytes_unreadable else
  do* skip_code_tail in
  ret (set_code_attribute method (mk_code_attribute ms ml cl (snd r))).

(** What is done with one method attribute once its [name_index] and
    [length] have been read ([main.c] lines 344-442). *)
Definition dispatch_method_attribute (count : Z) (pool : list cp_info)
    (method : method_info) (attribute_name_index attr_length : Z)
  : M method_info :=
  if attribute_name_index <? count then
    if is_Code_name (pool_slot pool attribute_name_index) then
      read_code_attribute method
    else
      let* r := fseek_cur attr_length in
      if negb (r =? 0) then ERROR_AND_CLEANUP msg_seek_method_attribute else
      ret method
  else
    ERROR_AND_CLEANUP msg_attribute_name_index_out_of_range.

(** One iteration of [for (int j = 0; j < method->attributes_count; j++)]. *)
Definition read_method_attribute (count : Z) (pool : list cp_info)
    (method : method_info) : M method_info :=
  let* attribute_name_index := read_u2 in
  let* attr_length := read_u4 in
  let* k := get_ok in
  if negb k then ERROR_AND_CLEANUP msg_method_attribute_unreadable else
  dispatch_method_attribute count pool method attribute_name_index attr_length.

Fixpoint read_method_attributes (count : Z) (pool : list cp_info) (n : nat)
    (method : method_info) : M method_info :=
  match n with
  | O => ret method
  | S n' =>
      let* method' := read_method_attribute count pool method in
      read_method_attributes count pool n' method'
  end.

(** One iteration of [for (int i = 0; i < cf->methods_count; i++)]. *)
Definition read_method (count : Z) (pool : list cp_info) : M method_info :=
  let* a := read_u2 in
  let* n := read_u2 in
  let* d := read_u2 in
  let* c := read_u2 in
  let* k := get_ok in
  if negb k then ERROR_AND_CLEANUP msg_method_info_unreadable else
  read_method_attributes count pool (Z.to_nat c) (mk_method_info a n d c None).

Fixpoint read_methods (count : Z) (pool : list cp_info) (n : nat)
  : M (list method_info) :=
  match n with
  | O => ret []
  | S n' =>
      let* m := read_method count pool in
      let* ms := read_methods count pool n' in
      ret (m :: ms)
  end.

(** Magic number ([main.c] lines 146-157). *)
Definition read_magic : M Z :=
  let* m := read_u4 in
  let* k := get_ok in
  if negb k || negb (m =? JAVA_MAGIC)
  then ERROR_AND_CLEANUP msg_invalid_magic
  else ret m.

(** Version pair and its range check ([main.c] lines 160-175). *)
Definition read_version : M (Z * Z) :=
  let* minor := read_u2 in
  let* major := read_u2 in
  let* k := get_ok in
  if negb k then ERROR_AND_CLEANUP msg_version_unreadable else
  if (major <? 45) || (major >? 69)
  then ERROR_AND_CLEANUP msg_unsupported_version
  else ret (minor, major).

(** Pool count, table allocation and the entry loop
    ([main.c] lines 177-208). *)
Definition read_pool : M (Z * list cp_info) :=
  let* count := read_u2 in
  let* k := get_ok in
  if negb k || (count >? MAX_CONSTANT_POOL_SIZE)
  then ERROR_AND_CLEANUP msg_invalid_pool_count else
  do* calloc count sizeof_cp_info in
  let* pool := read_constant_pool (Z.to_nat count) count 1
                 (replicate (Z.to_nat count) cp_zero) in
  ret (count, pool).

(** Flags and the two class references ([main.c] lines 210-219). *)
Definition read_class_header : M (Z * Z * Z) :=
  let* a := read_u2 in
  let* t := read_u2 in
  let* p := read_u2 in
  let* k := get_ok in
  if negb k then ERROR_AND_CLEANUP msg_class_header_unreadable
  else ret (a, t, p).

(** Interfaces ([main.c] lines 221-237). *)
Definition skip_interfaces : M Z :=
  let* n := read_u2 in
  let* k := get_ok in
  if negb k then ERROR_AND_CLEANUP msg_interfaces_count_unreadable else
  if n >? 0 then
    let* r := fseek_cur (n * 2) in
    if negb (r =? 0) then ERROR_AND_CLEANUP msg_seek_interfaces else ret n
  else ret n.

(** Fields ([main.c] lines 239-284). *)
Definition read_fields : M Z :=
  let* n := read_u2 in
  let* k := get_ok in
  if negb k then ERROR_AND_CLEANUP msg_fields_count_unreadable else
  do* skip_fields (Z.to_nat n) in
  ret n.

(** Method count with its sanity check, table allocation and the
    method loop ([main.c] lines 286-444). *)
Definition read_method_table (count : Z) (pool : list cp_info)
  : M (Z * list method_info) :=
  let* n := read_u2 in
  let* k := get_ok in
  if negb k then ERROR_AND_CLEANUP msg_methods_count_unreadable else
  if n >? 1000 then ERROR_AND_CLEANUP (msg_method_count_suspicious n) else
  do* calloc n sizeof_method_info in
  let* ms := read_methods count pool (Z.to_nat n) in
  ret (n, ms).

(** [read_class_file] from the pool count on ([main.c] lines 177-447),
    with the magic number and the version pair already stored. *)
Definition read_after_version (mg : Z) (v : Z * Z) : M ClassFile :=
  let* cp := read_pool in
  let* h := read_class_header in
  let* ic := skip_interfaces in
  let* fc := read_fields in
  let* mt := read_method_table (fst cp) (snd cp) in
  ret (mk_ClassFile mg (fst v) (snd v) (fst cp) (snd cp)
         (fst (fst h)) (snd (fst h)) (snd h) ic fc (fst mt) (snd mt)).

(** [read_class_file], from [malloc(sizeof(ClassFile))] to
    [return cf]. *)
Definition read_class_file_body : M ClassFile :=
  do* malloc sizeof_ClassFile in
  let* mg := read_magic in
  let* v := read_version in
  read_after_version mg v.

(** [read_class_file] on a file with the given content: the returned
    pointer ([Aborted] for [NULL]) and the final state. *)
Definition read_class_file (content : list byte) : outcome ClassFile * state :=
  read_class_file_body (initial_state content).

(** ** Vocabulary of the statements *)

(** Big-endian value of a field given by its bytes in file order. *)
Definition be_value (bs : list byte) : Z :=
  fold_left (fun acc b => acc * 256 + byte_val b) bs 0.

(** The state after the position moved forward by [n]. *)
Definition advance (n : Z) (s : state) : state := set_fpos (fpos s + n) s.

(** The stream of [s] is positioned in front of the bytes [bs]. *)
Definition cursor (s : state) (bs : list byte) : Prop :=
  0 <= fpos s /\ remaining s = bs.

(** The state after a reader met the end of the file with [n] bytes
    left: the bytes are consumed, [safe_fread] has complained and the
    reader has cleared [ok]. *)
Definition short_read (n : Z) (s : state) : state :=
  set_ok false (add_stderr msg_unexpected_eof (advance n s)).

(** The case labels of the [switch] in [read_constant_pool_entry]. *)
Definition switch_case_tags : list Z :=
  [CONSTANT_Class; CONSTANT_Utf8; CONSTANT_Integer; CONSTANT_String;
   CONSTANT_Fieldref; CONSTANT_Methodref; CONSTANT_InterfaceMethodref;
   CONSTANT_NameAndType; CONSTANT_Long; CONSTANT_Double].

(** The tags of the 8-byte numeric literals. *)
Definition is_wide_tag (t : Z) : bool :=
  (t =? CONSTANT_Long) || (t =? CONSTANT_Double).

(** The slot that the string case fills for the given content: tag,
    declared length, and the buffer with its terminator. *)
Definition utf8_entry (content : list byte) : cp_info :=
  mk_cp_info CONSTANT_Utf8
    (utf8_info (Z.of_nat (List.length content)) (content ++ [x00])).

(** The four characters of "Code". *)
Definition Code_text : list byte := [x43; x6f; x64; x65].

(** The [ClassFile] a run returned ([None] for [NULL]). *)
Definition returned (run : outcome ClassFile * state) : option ClassFile :=
  match fst run with
  | Done cf => Some cf
  | Aborted _ => None
  end.

(** Layout of [n] attributes at the front of [bs], each a 2-byte name
    index, a 4-byte length and a payload of that length: the bytes after
    them, provided the six header bytes of each are there (a payload may
    run beyond the end). *)
Fixpoint attributes_end (n : nat) (bs : list byte) : option (list byte) :=
  match n with
  | O => Some bs
  | S n' =>
      match bs with
      | _ :: _ :: l0 :: l1 :: l2 :: l3 :: tl =>
          attributes_end n' (drop (Z.to_nat (be_value [l0; l1; l2; l3])) tl)
      | _ => None
      end
  end.

(** Number of bytes from the first header to the end of the last
    payload. *)
Fixpoint attributes_size (n : nat) (bs : list byte) : Z :=
  match n with
  | O => 0
  | S n' =>
      match bs with
      | _ :: _ :: l0 :: l1 :: l2 :: l3 :: tl =>
          6 + be_value [l0; l1; l2; l3]
          + attributes_size n' (drop (Z.to_nat (be_value [l0; l1; l2; l3])) tl)
      | _ => 0
      end
  end.

(** The [n] attributes at the front of [bs] are all skipped: each has
    its six header bytes, a name index below [count], and a name slot
    that fails the Code test of [main.c] line 347. *)
Fixpoint attributes_skipped (count : Z) (pool : list cp_info) (n : nat)
    (bs : list byte) : bool :=
  match n with
  | O => true
  | S n' =>
      match bs with
      | i0 :: i1 :: l0 :: l1 :: l2 :: l3 :: tl =>
          (be_value [i0; i1] <? count)
          && negb (is_Code_name (pool_slot pool (be_value [i0; i1])))
          && attributes_skipped count pool n'
               (drop (Z.to_nat (be_value [l0; l1; l2; l3])) tl)
      | _ => false
      end
  end.

(** Layout of what follows the instruction bytes of a Code attribute:
    the exception-table length, 8 bytes per entry, the sub-attribute
    count and the sub-attributes. *)
Definition code_tail_end (bs : list byte) : option (list byte) :=
  match bs with
  | e0 :: e1 :: tl =>
      match drop (Z.to_nat (be_value [e0; e1] * 8)) tl with
      | a0 :: a1 :: tl' => attributes_end (Z.to_nat (be_value [a0; a1])) tl'
      | _ => None
      end
  | _ => None
  end.

Definition code_tail_size (bs : list byte) : Z :=
  match bs with
  | e0 :: e1 :: tl =>
      match drop (Z.to_nat (be_value [e0; e1] * 8)) tl with
      | a0 :: a1 :: tl' =>
          2 + be_value [e0; e1] * 8 + 2
          + attributes_size (Z.to_nat (be_value [a0; a1])) tl'
      | _ => 0
      end
  | _ => 0
  end.

(** ** Where a run stands in the pool table *)

(** Entered at index [i] with table [pool] in state [s], the pool loop
    comes to index [j] with table [pool_j] in state [s_j], every entry
    in between having been accepted: the entry decoder returned a slot
    count other than 0 and left [ok] set. *)
Inductive at_pool_entry (count : Z)
  : Z -> list cp_info -> state -> Z -> list cp_info -> state -> Prop :=
| at_this_entry (i : Z) (pool : list cp_info) (s : state) :
    at_pool_entry count i pool s i pool s
| at_later_entry (i : Z) (pool : list cp_info) (s : state)
    (r : Z * cp_info) (s1 : state)
    (j : Z) (pool_j : list cp_info) (s_j : state) :
    i < count ->
    read_constant_pool_entry (pool_slot pool i) s = (Done r, s1) ->
    ok s1 = true -> fst r <> 0 ->
    at_pool_entry count (i + fst r) (<[Z.to_nat i := snd r]> pool) s1
      j pool_j s_j ->
    at_pool_entry count i pool s j pool_j s_j.

(** ** Where a run stands in the method table *)

(** What [read_class_file] has stored when it comes to the methods. *)
Record class_head := mk_class_head {
  h_magic : Z;
  h_minor_version : Z;
  h_major_version : Z;
  h_constant_pool_count : Z;
  h_constant_pool : list cp_info;
  h_access_flags : Z;
  h_this_class : Z;
  h_super_class : Z;
  h_interfaces_count : Z;
  h_fields_count : Z
}.

(** The [ClassFile] returned for that head and a method table. *)
Definition with_methods (h : class_head) (n : Z) (ms : list method_info)
  : ClassFile :=
  mk_ClassFile (h_magic h) (h_minor_version h) (h_major_version h)
    (h_constant_pool_count h) (h_constant_pool h) (h_access_flags h)
    (h_this_class h) (h_super_class h) (h_interfaces_count h)
    (h_fields_count h) n ms.

(** [read_class_file] up to the fields ([main.c] lines 138-284). *)
Definition read_class_head : M class_head :=
  do* malloc sizeof_ClassFile in
  let* mg := read_magic in
  let* v := read_version in
  let* cp := read_pool in
  let* h := read_class_header in
  let* ic := skip_interfaces in
  let* fc := read_fields in
  ret (mk_class_head mg (fst v) (snd v) (fst cp) (snd cp)
         (fst (fst h)) (snd (fst h)) (snd h) ic fc).

(** The run on [content] enters the method loop in state [s_loop],
    with head [h] and [n] methods to decode. *)
Definition enters_method_loop (content : list byte) (h : class_head) (n : Z)
    (s_loop : state) : Prop :=
  exists s_head n0 n1 rest,
    read_class_head (initial_state content) = (Done h, s_head)
    /\ cursor s_head (n0 :: n1 :: rest)
    /\ n = be_value [n0; n1]
    /\ n <= 1000
    /\ s_loop = add_alloc (n * sizeof_method_info) (advance 2 s_head).

(** From the loop entry [s_loop] the method loop comes to state [s]
    with the methods [done] decoded and [left] more to decode. *)
Inductive at_method (count : Z) (pool : list cp_info) (s_loop : state)
    (total : nat) : list method_info -> nat -> state -> Prop :=
| at_first_method : at_method count pool s_loop total [] total s_loop
| at_next_method (done : list method_info) (left : nat) (s s' : state)
    (m : method_info) :
    at_method count pool s_loop total done (S left) s ->
    read_method count pool s = (Done m, s') ->
    at_method count pool s_loop total (done ++ [m]) left s'.

(** From the start [s_method] of a method the attribute loop comes to
    state [s] with record [m] and [left] attributes to decode. *)
Inductive at_attribute (count : Z) (pool : list cp_info) (s_method : state)
  : method_info -> nat -> state -> Prop :=
| at_first_attribute (a0 a1 n0 n1 d0 d1 c0 c1 : byte) (rest : list byte) :
    cursor s_method (a0 :: a1 :: n0 :: n1 :: d0 :: d1 :: c0 :: c1 :: rest) ->
    at_attribute count pool s_method
      (mk_method_info (be_value [a0; a1]) (be_value [n0; n1])
         (be_value [d0; d1]) (be_value [c0; c1]) None)
      (Z.to_nat (be_value [c0; c1])) (advance 8 s_method)
| at_next_attribute (m m' : method_info) (left : nat) (s s' : state) :
    at_attribute count pool s_method m (S left) s ->
    read_method_attribute count pool m s = (Done m', s') ->
    at_attribute count pool s_method m' left s'.

(** The run on [content] comes to an iteration of the attribute loop:
    [done] methods are decoded, [k] more follow the current one, whose
    record is [m] with [j] attributes left, the state being [s]. *)
Definition reaches_attribute (content : list byte) (h : class_head) (n : Z)
    (done : list method_info) (k : nat) (m : method_info) (j : nat)
    (s : state) : Prop :=
  exists s_loop s_method,
    enters_method_loop content h n s_loop
    /\ at_method (h_constant_pool_count h) (h_constant_pool h) s_loop
         (Z.to_nat n) done (S k) s_method
    /\ at_attribute (h_constant_pool_count h) (h_constant_pool h) s_method
         m j s.

(** What is left of [read_class_file] at such an iteration. *)
Definition finish_from_attribute (h : class_head) (n : Z)
    (done : list method_info) (k : nat) (m : method_info) (j : nat)
  : M ClassFile :=
  let* m' := read_method_attributes (h_constant_pool_count h)
               (h_constant_pool h) j m in
  let* ms := read_methods (h_constant_pool_count h) (h_constant_pool h) k in
  ret (with_methods h n (done ++ m' :: ms)).

(** The state [s] of a run on a file with content [d] instead. *)
Definition with_data (d : list byte) (s : state) : state :=
  mk_state d (fpos s) (ok s) (stderr s) (allocs s).

(** Two contents of the same length with the same first [p] bytes. *)
Definition agree_below (p : Z) (d1 d2 : list byte) : Prop :=
  List.length d1 = List.length d2
  /\ take (Z.to_nat p) d1 = take (Z.to_nat p) d2.

(** ** Predicates of the proofs *)

(** [Q] holds of the value and the state [m] returns with from [s],
    when it does not return [NULL]. *)
Definition wp {A} (m : M A) (Q : A -> state -> Prop) (s : state) : Prop :=
  match m s with
  | (Done a, s') => Q a s'
  | (Aborted _, _) => True
  end.

(** [m] returns [NULL] only with a message in [P]. *)
Definition aborts_within {A} (m : M A) (P : diagnostic -> Prop) : Prop :=
  forall s, match fst (m s) with
            | Aborted e => P e
            | Done _ => True
            end.

(** What [read_constant_pool_entry] can return: 0 on failure, 2 with
    an 8-byte literal in the slot, 1 with anything else. *)
Definition entry_result_ok (r : Z * cp_info) : Prop :=
  fst r = 0
  \/ (fst r = 1 /\ is_wide_tag (tag (snd r)) = false)
  \/ (fst r = 2 /\ is_wide_tag (tag (snd r)) = true).

(** Where the pool loop stands when it is about to decode slot [i]:
    slot 0 and every slot from [i] on are as [calloc] left them, and a
    slot below [i] that holds an 8-byte literal is followed by such a
    slot, itself below [i]. *)
Definition pool_inv (i : Z) (pool : list cp_info) : Prop :=
  1 <= i
  /\ (forall j, i <= j -> pool_slot pool j = cp_zero)
  /\ pool_slot pool 0 = cp_zero
  /\ (forall j, 0 <= j < i ->
        is_wide_tag (tag (pool_slot pool j)) = true ->
        j + 1 < i /\ pool_slot pool (j + 1) = cp_zero).

(** The table as the loop leaves it: slot 0 untouched, and the slot
    after an 8-byte literal untouched. *)
Definition pool_wf (pool : list cp_info) : Prop :=
  pool_slot pool 0 = cp_zero
  /\ forall j, 0 <= j ->
       is_wide_tag (tag (pool_slot pool j)) = true ->
       pool_slot pool (j + 1) = cp_zero.

(** A string entry respects the ceiling on its declared length. *)
Definition utf8_bounded (e : cp_info) : Prop :=
  match info e with
  | utf8_info l _ => l <= MAX_STRING_LENGTH
  | _ => True
  end.

(** Nothing has gone wrong so far: [ok] is set and [stderr] is empty. *)
Definition clean (s : state) : Prop := ok s = true /\ stderr s = [].

(** Between a reader and the test of [ok] that follows it: a complaint
    on [stderr] goes with a cleared [ok]. *)
Definition lax (s : state) : Prop := ok s = true -> stderr s = [].

(** What two states show to the decoder when they differ at most in
    the bytes behind the file position. *)
Definition same_view (s1 s2 : state) : Prop :=
  0 <= fpos s1
  /\ fpos s1 = fpos s2
  /\ remaining s1 = remaining s2
  /\ ok s1 = ok s2
  /\ stderr s1 = stderr s2
  /\ allocs s1 = allocs s2.

(** [m] cannot tell such states apart. *)
Definition respects {A} (m : M A) : Prop :=
  forall s1 s2, same_view s1 s2 ->
    fst (m s1) = fst (m s2) /\ same_view (snd (m s1)) (snd (m s2)).

(** [m] moves the position forward only, leaves the file alone, and
    depends on no byte at or beyond the position it ends at. *)
Definition local {A} (m : M A) : Prop :=
  forall s r s',
    0 <= fpos s -> m s = (r, s') ->
    fpos s <= fpos s'
    /\ fdata s' = fdata s
    /\ forall p d2,
         fpos s' <= p -> agree_below p (fdata s) d2 ->
         m (with_data d2 s) = (r, with_data d2 s').

(** ** Sample class files *)

(** Header up to the pool count: magic, version 65.0. *)
Definition file_header (pool_count : list byte) : list byte :=
  [xca; xfe; xba; xbe; x00; x00; x00; x41] ++ pool_count.

(** Flags [0x0021], [this_class], no super class, no interfaces, no
    fields. *)
Definition class_part (this : list byte) : list byte :=
  [x00; x21] ++ this ++ [x00; x00; x00; x00; x00; x00].

(** A class with the pool entries [#1 = Float 1.0f] and
    [#2 = Class #1], and no methods. *)
Definition file_with_float : list byte :=
  file_header [x00; x03]
  ++ [x04; x3f; x80; x00; x00] ++ [x07; x00; x01]
  ++ class_part [x00; x02] ++ [x00; x00].

(** The same file with tag [CONSTANT_Integer] on entry #1. *)
Definition file_with_integer : list byte :=
  file_header [x00; x03]
  ++ [x03; x3f; x80; x00; x00] ++ [x07; x00; x01]
  ++ class_part [x00; x02] ++ [x00; x00].

(** A class whose pool holds [#1 = Long 1] (slots 1 and 2) and
    [#3 = Class #1], and no methods. *)
Definition file_with_long : list byte :=
  file_header [x00; x04]
  ++ [x05; x00; x00; x00; x00; x00; x00; x00; x01] ++ [x07; x00; x01]
  ++ class_part [x00; x03] ++ [x00; x00].

(** A class with an empty pool and one method whose only attribute has
    name index 0 and declares [0x10] payload bytes; the file ends right
    after that length field. *)
Definition file_cut_in_attribute : list byte :=
  file_header [x00; x01] ++ class_part [x00; x00]
  ++ [x00; x01]
  ++ [x00; x01; x00; x00; x00; x00; x00; x01]
  ++ [x00; x00; x00; x00; x00; x10].

(** The sixteen payload bytes missing from [file_cut_in_attribute]. *)
Definition attribute_payload : list byte :=
  [x01; x02; x03; x04; x05; x06; x07; x08;
   x09; x0a; x0b; x0c; x0d; x0e; x0f; x10].

(** A class with pool [#1 = Utf8 "Code"] and two methods; the first
    method has one attribute, whose name index 2 is not below the pool
    count 2; the second method has none. *)
Definition file_attribute_index_beyond_pool : list byte :=
  file_header [x00; x02] ++ [x01; x00; x04; x43; x6f; x64; x65]
  ++ class_part [x00; x00]
  ++ [x00; x02]
  ++ [x00; x01; x00; x00; x00; x00; x00; x01]
  ++ [x00; x02; x00; x00; x00; x00]
  ++ [x00; x01; x00; x00; x00; x00; x00; x00].

(** The same class, the attribute having name index 0 and two payload
    bytes. *)
Definition file_attribute_index_zero : list byte :=
  file_header [x00; x02] ++ [x01; x00; x04; x43; x6f; x64; x65]
  ++ class_part [x00; x00]
  ++ [x00; x02]
  ++ [x00; x01; x00; x00; x00; x00; x00; x01]
  ++ [x00; x00; x00; x00; x00; x02; xaa; xbb]
  ++ [x00; x01; x00; x00; x00; x00; x00; x00].

(** Payload of a "Code" attribute: [max_stack] 2, [max_locals] 3,
    three instruction bytes, one exception-table entry, one
    sub-attribute with two payload bytes; then two more bytes. *)
Definition Code_attribute_payload : list byte :=
  [x00; x02; x00; x03; x00; x00; x00; x03]
  ++ [x2a; x2b; xb1]
  ++ [x00; x01; x01; x02; x03; x04; x05; x06; x07; x08;
      x00; x01; x00; x09; x00; x00; x00; x02; xaa; xbb]
  ++ [x77; x78].

(** The attribute with name index 1 and declared length
    [0xFFFFFFFF]. *)
Definition Code_attribute_bytes : list byte :=
  [x00; x01; xff; xff; xff; xff] ++ Code_attribute_payload.
(** A class with pool [#1 = Utf8 "Code"] and one method, whose only
    attribute is [Code_attribute_bytes]. *)
Definition before_Code_attribute : list byte :=
  file_header [x00; x02] ++ [x01; x00; x04; x43; x6f; x64; x65]
  ++ class_part [x00; x00]
  ++ [x00; x01]
  ++ [x00; x01; x00; x05; x00; x06; x00; x01].

Definition file_with_Code_method : list byte :=
  before_Code_attribute ++ Code_attribute_bytes.

(** The same class, the attribute declaring the 31 bytes that it
    has. *)
Definition file_with_Code_true_length : list byte :=
  before_Code_attribute
  ++ [x00; x01; x00; x00; x00; x1f] ++ Code_attribute_payload.

(** The pool and the class head of [file_with_Code_method] and of the
    two [file_attribute_index_...] files. *)
Definition pool_with_Code : list cp_info := [cp_zero; utf8_entry Code_text].

Definition head_with_Code : class_head :=
  mk_class_head JAVA_MAGIC 0 65 2 pool_with_Code 33 0 0 0 0.

(** The state in which the run on [content] has read the header of its
    first method, [n] being the method count. *)
Definition in_first_method (content : list byte) (n : Z) : state :=
  advance 8
    (add_alloc (n * sizeof_method_info)
       (advance 2 (snd (read_class_head (initial_state content))))).

(** The record of the method of [file_with_Code_method], before and
    after its attribute. *)
Definition method_before_Code : method_info := mk_method_info 1 5 6 1 None.

Definition method_after_Code : method_info :=
  mk_method_info 1 5 6 1 (Some (mk_code_attribute 2 3 3 [x2a; x2b; xb1])).


(** ** Layout of the field table *)

(** Layout of [n] fields at the front of [bs], each four 2-byte items
    (the last one the attribute count) and its attributes: the bytes
    after them. *)
Fixpoint fields_end (n : nat) (bs : list byte) : option (list byte) :=
  match n with
  | O => Some bs
  | S n' =>
      match bs with
      | _ :: _ :: _ :: _ :: _ :: _ :: c0 :: c1 :: tl =>
          match attributes_end (Z.to_nat (be_value [c0; c1])) tl with
          | Some tl' => fields_end n' tl'
          | None => None
          end
      | _ => None
      end
  end.

(** Number of bytes those fields take. *)
Fixpoint fields_size (n : nat) (bs : list byte) : Z :=
  match n with
  | O => 0
  | S n' =>
      match bs with
      | _ :: _ :: _ :: _ :: _ :: _ :: c0 :: c1 :: tl =>
          match attributes_end (Z.to_nat (be_value [c0; c1])) tl with
          | Some tl' =>
              8 + attributes_size (Z.to_nat (be_value [c0; c1])) tl
              + fields_size n' tl'
          | None => 0
          end
      | _ => 0
      end
  end.

(** [m] leaves a cleared [ok] cleared. *)
Definition never_sets_ok {A} (m : M A) : Prop :=
  forall s, ok s = false -> ok (snd (m s)) = false.


(** [m] requests no memory. *)
Definition keeps_allocs {A} (m : M A) : Prop :=
  forall s, allocs (snd (m s)) = allocs s.

(** ** [free_class_file] *)

(** The model has no addresses: a call [free(p)] is recorded by the
    byte size of the block behind [p], which is the extent of the value
    that the model keeps in that block: a buffer with its bytes, a table
    with its slots.  The tables and the buffers of a [ClassFile] that
    [read_class_file] returned are not [NULL], since [calloc] and
    [malloc] succeed. *)

(** [SAFE_FREE(entry->info.utf8_info.bytes)] under the test
    [entry->tag == CONSTANT_Utf8].  The pointer lies behind the first
    eight bytes of the union, where no other member reaches: it is
    [NULL] unless the string member was written. *)
Definition free_utf8_bytes (entry : cp_info) : list Z :=
  if tag entry =? CONSTANT_Utf8 then
    match info entry with
    | utf8_info _ bytes => [Z.of_nat (List.length bytes)]
    | _ => []
    end
  else [].

(** The loop [for (int i = 0; i < cf->constant_pool_count; ++i)],
    entered with the current [i] and [n] iterations to go. *)
Fixpoint free_pool_strings (pool : list cp_info) (i : Z) (n : nat) : list Z :=
  match n with
  | O => []
  | S n' => free_utf8_bytes (pool_slot pool i)
            ++ free_pool_strings pool (i + 1) n'
  end.

(** [cf->methods[i]]. *)
Definition method_slot (ms : list method_info) (i : Z) : method_info :=
  default (mk_method_info 0 0 0 0 None) (ms !! Z.to_nat i).

(** [SAFE_FREE(method->code_attribute->code);
    SAFE_FREE(method->code_attribute);] under
    [if (method->code_attribute)]. *)
Definition free_method_code (method : method_info) : list Z :=
  match m_code_attribute method with
  | Some c => [Z.of_nat (List.length (code c)); sizeof_code_attribute]
  | None => []
  end.

(** The loop [for (int i = 0; i < cf->methods_count; ++i)]. *)
Fixpoint free_methods_code (ms : list method_info) (i : Z) (n : nat)
  : list Z :=
  match n with
  | O => []
  | S n' => free_method_code (method_slot ms i)
            ++ free_methods_code ms (i + 1) n'
  end.

(** [free_class_file(cf)]: the blocks released, in the order of the
    calls of [free]; [None] is [NULL]. *)
Definition free_class_file (cf : option ClassFile) : list Z :=
  match cf with
  | None => []
  | Some cf =>
      free_pool_strings (constant_pool cf) 0
        (Z.to_nat (constant_pool_count cf))
      ++ free_methods_code (methods cf) 0 (Z.to_nat (methods_count cf))
      ++ [Z.of_nat (List.length (constant_pool cf)) * sizeof_cp_info;
          Z.of_nat (List.length (methods cf)) * sizeof_method_info;
          sizeof_ClassFile]
  end.

(** A slot with the string tag holds a string as the decoder stores
    it: the declared length, that many bytes and a NUL byte. *)
Definition string_slot_ok (e : cp_info) : Prop :=
  tag e = CONSTANT_Utf8 -> exists content, e = utf8_entry content.

(** The instruction buffer of a method holds [code_length] bytes. *)
Definition code_buffer_ok (m : method_info) : Prop :=
  match m_code_attribute m with
  | Some c => code_length c = Z.of_nat (List.length (code c))
  | None => True
  end.

(** The four header items of two method records are the same. *)
Definition same_method_header (m m' : method_info) : Prop :=
  m_access_flags m' = m_access_flags m
  /\ m_name_index m' = m_name_index m
  /\ m_descriptor_index m' = m_descriptor_index m
  /\ m_attributes_count m' = m_attributes_count m.

(** A class with pool [#1 = Utf8 "Code"] and one method with two
    attributes, both named "Code": the first with one instruction byte,
    the second with two; neither has exception-table entries or
    sub-attributes. *)
Definition file_with_two_Code_attributes : list byte :=
  file_header [x00; x02] ++ [x01; x00; x04; x43; x6f; x64; x65]
  ++ class_part [x00; x00]
  ++ [x00; x01]
  ++ [x00; x01; x00; x05; x00; x06; x00; x02]
  ++ [x00; x01; x00; x00; x00; x0d;
      x00; x01; x00; x01; x00; x00; x00; x01; xb1;
      x00; x00; x00; x00]
  ++ [x00; x01; x00; x00; x00; x0e;
      x00; x02; x00; x02; x00; x00; x00; x02; x00; xb1;
      x00; x00; x00; x00].


(** A class with pool [#1 = Utf8] of length 6, the bytes of "Code", a
    NUL byte and "X", and one method, whose only attribute has name
    index 1 and the payload of a Code attribute: [max_stack] 2,
    [max_locals] 3, three instruction bytes, no exception-table entry
    and no sub-attribute. *)
Definition file_with_Code_nul_name : list byte :=
  file_header [x00; x02] ++ [x01; x00; x06; x43; x6f; x64; x65; x00; x58]
  ++ class_part [x00; x00]
  ++ [x00; x01]
  ++ [x00; x01; x00; x05; x00; x06; x00; x01]
  ++ [x00; x01; x00; x00; x00; x0f;
      x00; x02; x00; x03; x00; x00; x00; x03; x2a; x2b; xb1;
      x00; x00; x00; x00].

(** ** [main] *)

(** The files that [fopen] finds: the content behind a name, [None]
    when the file cannot be opened. *)
Definition file_system : Type := string -> option (list byte).

(** The lines that [main] prints on [stdout]. *)
Inductive stdout_line :=
| out_usage (prog : string)      (* "Usage: %s [-d] <class file>" *)
| out_options                    (* "Options:" *)
| out_option_d                   (* "  -d    Enable debug output" *)
| out_class_file (name : string) (* "Class file: %s" *)
| out_magic (m : Z)              (* "Magic: 0x%08X" *)
| out_version (major minor : Z)  (* "Version: %d.%d" *)
| out_pool_entries (n : Z)       (* "Constant pool entries: %d" *)
| out_methods (n : Z).           (* "Methods: %d" *)

(** The lines on [stderr] of a whole run, those of [DEBUG_PRINT]
    left out. *)
Inductive stderr_line :=
| err_decoder (d : diagnostic)       (* a line of the decoder *)
| err_open_failed (name : string)    (* "Error: Failed to open class file '%s'." *)
| err_failed_to_read (name : string). (* "Failed to read class file: %s" *)

(** [read_class_file(filename)] from [fopen] on: the pointer returned
    and the lines printed. *)
Definition read_class_file_named (files : file_system) (filename : string)
  : option ClassFile * list stderr_line :=
  match files filename with
  | None => (None, [err_open_failed filename])
  | Some content =>
      (returned (read_class_file content),
       map err_decoder (stderr (snd (read_class_file content))))
  end.

(** What a run of [main] does: the value it returns, what it prints,
    the final value of the global [debug_mode], and the blocks released
    by its own call of [free_class_file]. *)
Record main_result := mk_main_result {
  exit_status : Z;
  main_stdout : list stdout_line;
  main_stderr : list stderr_line;
  debug_mode : bool;
  main_released : list Z
}.

(** [argv[i]]. *)
Definition argv_at (argv : list string) (i : nat) : string :=
  nth i argv EmptyString.

(** [main(argc, argv)], [argc] being the length of [argv]. *)
Definition main (files : file_system) (argv : list string) : main_result :=
  let argc := Z.of_nat (List.length argv) in
  if (argc <? 2) || (argc >? 3) then
    mk_main_result 1 [out_usage (argv_at argv 0); out_options; out_option_d]
      [] false []
  else
    let debug := (argc =? 3) && String.eqb (argv_at argv 1) "-d" in
    (* argv[1] = argv[2]; *)
    let argv1 := if debug then argv_at argv 2 else argv_at argv 1 in
    match read_class_file_named files argv1 with
    | (None, errs) =>
        mk_main_result 1 [] (errs ++ [err_failed_to_read argv1]) debug []
    | (Some cf, errs) =>
        mk_main_result 0
          [out_class_file argv1; out_magic (magic cf);
           out_version (major_version cf) (minor_version cf);
           out_pool_entries (constant_pool_count cf);
           out_methods (methods_count cf)]
          errs debug (free_class_file (Some cf))
    end.


(** Lines of "Unexpected end of file." only. *)
Definition only_eof (l : list diagnostic) : Prop :=
  Forall (eq msg_unexpected_eof) l.

(** What [m] prints: entered with nothing but end-of-file lines on
    [stderr], it adds only such lines when it goes on, and such lines
    followed by its message, which is not the one about the length of
    a string, when it returns [NULL]. *)
Definition reports {A} (m : M A) : Prop :=
  forall s, only_eof (stderr s) ->
    match m s with
    | (Done _, s') => only_eof (stderr s')
    | (Aborted e, s') =>
        (exists causes, stderr s' = causes ++ [e] /\ only_eof causes)
        /\ forall l, e <> msg_utf8_too_long l
    end.


(** A run of [m] that goes on with [ok] set goes the same way on a
    file that has [junk] appended. *)
Definition grows {A} (m : M A) : Prop :=
  forall s a s' junk,
    0 <= fpos s -> m s = (Done a, s') -> ok s' = true ->
    m (with_data (fdata s ++ junk) s)
    = (Done a, with_data (fdata s ++ junk) s').

(** * Properties *)

(** ** Integers and byte order *)

Lemma byte_val_range (b : byte) : 0 <= byte_val b < 256.
Proof.
  unfold byte_val. pose proof (Byte.to_N_bounded b) as H. lia.
Qed.

Lemma lor_shiftl_add (k hi lo : Z) :
  0 <= k -> 0 <= lo < 2 ^ k -> Z.lor lo (Z.shiftl hi k) = lo + 2 ^ k * hi.
Proof.
  intros Hk Hlo.
  assert (Hd : Z.land lo (Z.shiftl hi k) = 0).
  { apply Z.bits_inj'. intros n Hn. rewrite Z.land_spec, Z.bits_0.
    destruct (Z.lt_ge_cases n k) as [Hlt|Hge].
    - rewrite Z.shiftl_spec_low by lia. apply andb_false_r.
    - destruct (Z.eq_dec lo 0) as [->|Hnz]; [now rewrite Z.bits_0|].
      rewrite (Z.bits_above_log2 lo n); [reflexivity|lia|].
      assert (Z.log2 lo < k) by (apply Z.log2_lt_pow2; lia). lia. }
  rewrite <- Z.lxor_lor by exact Hd.
  rewrite <- Z.add_nocarry_lxor by exact Hd.
  rewrite Z.shiftl_mul_pow2 by lia. lia.
Qed.

Lemma shiftl_lor_add (k hi lo : Z) :
  0 <= k -> 0 <= lo < 2 ^ k -> Z.lor (Z.shiftl hi k) lo = 2 ^ k * hi + lo.
Proof. intros. rewrite Z.lor_comm, lor_shiftl_add by assumption. lia. Qed.

Lemma land_0xFF (v : Z) : Z.land v 0xFF = v mod 256.
Proof. change 0xFF with (Z.ones 8). now rewrite Z.land_ones by lia. Qed.

Lemma le_load_cons (a : byte) (bs : list byte) :
  le_load (a :: bs) = byte_val a + 256 * le_load bs.
Proof.
  cbn [le_load]. pose proof (byte_val_range a).
  now rewrite (lor_shiftl_add 8) by (change (2 ^ 8) with 256; lia).
Qed.

Lemma le_load_1 (a : byte) : le_load [a] = byte_val a.
Proof. rewrite le_load_cons. cbn. lia. Qed.

Lemma bswap16_le_load (a b : byte) :
  bswap16 (le_load [a; b]) = be_value [a; b].
Proof.
  pose proof (byte_val_range a). pose proof (byte_val_range b).
  rewrite !le_load_cons. cbn [le_load]. unfold bswap16, be_value.
  cbn [fold_left].
  rewrite !land_0xFF, !Z.shiftr_div_pow2 by lia.
  change (2 ^ 8) with 256.
  replace ((byte_val a + 256 * (byte_val b + 256 * 0)) mod 256)
    with (byte_val a) by (Z.div_mod_to_equations; lia).
  replace ((byte_val a + 256 * (byte_val b + 256 * 0)) / 256 mod 256)
    with (byte_val b) by (Z.div_mod_to_equations; lia).
  rewrite (shiftl_lor_add 8) by (change (2 ^ 8) with 256; lia).
  change (2 ^ 8) with 256. lia.
Qed.

Lemma bswap32_le_load (a b c d : byte) :
  bswap32 (le_load [a; b; c; d]) = be_value [a; b; c; d].
Proof.
  pose proof (byte_val_range a). pose proof (byte_val_range b).
  pose proof (byte_val_range c). pose proof (byte_val_range d).
  rewrite !le_load_cons. cbn [le_load]. unfold bswap32, be_value.
  cbn [fold_left].
  rewrite !land_0xFF, !Z.shiftr_div_pow2 by lia.
  set (v := byte_val a + 256 * (byte_val b + 256 *
              (byte_val c + 256 * (byte_val d + 256 * 0)))).
  change (2 ^ 8) with 256. change (2 ^ 16) with 65536.
  change (2 ^ 24) with 16777216.
  replace (v mod 256) with (byte_val a)
    by (subst v; Z.div_mod_to_equations; lia).
  replace (v / 256 mod 256) with (byte_val b)
    by (subst v; Z.div_mod_to_equations; lia).
  replace (v / 65536 mod 256) with (byte_val c)
    by (subst v; Z.div_mod_to_equations; lia).
  replace (v / 16777216 mod 256) with (byte_val d)
    by (subst v; Z.div_mod_to_equations; lia).
  rewrite (shiftl_lor_add 8) by (change (2 ^ 8) with 256; lia).
  rewrite (shiftl_lor_add 16)
    by (change (2 ^ 8) with 256; change (2 ^ 16) with 65536; lia).
  rewrite (shiftl_lor_add 24)
    by (change (2 ^ 8) with 256; change (2 ^ 16) with 65536;
        change (2 ^ 24) with 16777216; lia).
  change (2 ^ 8) with 256. change (2 ^ 16) with 65536.
  change (2 ^ 24) with 16777216. lia.
Qed.

Lemma be_value_2_range (a b : byte) : 0 <= be_value [a; b] <= 65535.
Proof.
  pose proof (byte_val_range a). pose proof (byte_val_range b).
  unfold be_value. cbn [fold_left]. lia.
Qed.

Lemma be_value_4_range (a b c d : byte) :
  0 <= be_value [a; b; c; d] <= 4294967295.
Proof.
  pose proof (byte_val_range a). pose proof (byte_val_range b).
  pose proof (byte_val_range c). pose proof (byte_val_range d).
  unfold be_value. cbn [fold_left]. lia.
Qed.

(** ** The monad *)

Lemma bind_done {A B} (m : M A) (f : A -> M B) s a s' :
  m s = (Done a, s') -> bind m f s = f a s'.
Proof. unfold bind. now intros ->. Qed.

Lemma bind_aborted {A B} (m : M A) (f : A -> M B) s e s' :
  m s = (Aborted e, s') -> bind m f s = (Aborted e, s').
Proof. unfold bind. now intros ->. Qed.

Lemma bind_inv_done {A B} (m : M A) (f : A -> M B) s b s2 :
  bind m f s = (Done b, s2) ->
  exists a s1, m s = (Done a, s1) /\ f a s1 = (Done b, s2).
Proof.
  unfold bind. destruct (m s) as [[a|e] s1]; [eauto|discriminate].
Qed.

(** ** The stream *)

Lemma advance_advance (n m : Z) (s : state) :
  advance m (advance n s) = advance (n + m) s.
Proof. unfold advance, set_fpos. cbn. f_equal. lia. Qed.

Lemma ok_advance (n : Z) (s : state) : ok (advance n s) = ok s.
Proof. reflexivity. Qed.

Lemma advance_0 (s : state) : advance 0 s = s.
Proof. destruct s. unfold advance, set_fpos. cbn. f_equal. lia. Qed.

Lemma remaining_advance (s : state) (n : Z) :
  0 <= fpos s -> 0 <= n ->
  remaining (advance n s) = drop (Z.to_nat n) (remaining s).
Proof.
  intros Hp Hn. unfold remaining, advance, set_fpos. cbn.
  destruct (Z.leb_spec (Z.of_nat (List.length (fdata s))) (fpos s)).
  - rewrite drop_nil.
    destruct (Z.leb_spec (Z.of_nat (List.length (fdata s))) (fpos s + n));
      [reflexivity|lia].
  - rewrite drop_drop.
    destruct (Z.leb_spec (Z.of_nat (List.length (fdata s))) (fpos s + n)).
    + symmetry. apply drop_ge. lia.
    + f_equal. lia.
Qed.

Lemma cursor_advance (s : state) (bs rest : list byte) :
  cursor s (bs ++ rest) ->
  cursor (advance (Z.of_nat (List.length bs)) s) rest.
Proof.
  intros [Hp Hr]. split; [cbn; lia|].
  rewrite remaining_advance, Hr by lia.
  rewrite Nat2Z.id. apply drop_app_length.
Qed.

Lemma cursor_seek (s : state) (bs : list byte) (n : Z) :
  cursor s bs -> 0 <= n -> cursor (advance n s) (drop (Z.to_nat n) bs).
Proof.
  intros [Hp Hr] Hn. split; [cbn; lia|].
  now rewrite remaining_advance, Hr by lia.
Qed.

Lemma fread_exact (s : state) (size count : Z) (bs rest : list byte) :
  cursor s (bs ++ rest) -> 0 < size ->
  size * count = Z.of_nat (List.length bs) ->
  fread size count s
  = (Done (count, bs), advance (Z.of_nat (List.length bs)) s).
Proof.
  intros [Hp Hr] Hs Hc. unfold fread. rewrite Hr, Hc.
  assert (Hgot : (if Z.of_nat (List.length (bs ++ rest))
                     <=? Z.of_nat (List.length bs)
                  then bs ++ rest
                  else take (Z.to_nat (Z.of_nat (List.length bs))) (bs ++ rest))
                 = bs).
  { destruct (Z.leb_spec (Z.of_nat (List.length (bs ++ rest)))
                (Z.of_nat (List.length bs))) as [Hle|Hgt].
    - rewrite length_app in Hle. destruct rest; [apply app_nil_r|cbn in Hle; lia].
    - rewrite Nat2Z.id. apply take_app_length. }
  rewrite Hgot.
  destruct (Z.eqb_spec size 0); [lia|].
  rewrite <- Hc, Z.mul_comm, Z.div_mul by lia. reflexivity.
Qed.

Lemma safe_fread_exact (s : state) (size count : Z) (bs rest : list byte) :
  cursor s (bs ++ rest) -> 0 < size ->
  size * count = Z.of_nat (List.length bs) ->
  safe_fread size count s
  = (Done (1, bs), advance (Z.of_nat (List.length bs)) s).
Proof.
  intros Hc Hs Hn. unfold safe_fread.
  rewrite (bind_done _ _ _ _ _ (fread_exact _ _ _ _ _ Hc Hs Hn)).
  cbn [fst snd]. now rewrite Z.ltb_irrefl.
Qed.

Lemma fread_short (s : state) (size count : Z) (bs : list byte) :
  cursor s bs -> 0 < size -> Z.of_nat (List.length bs) < size * count ->
  exists n, n < count /\
    fread size count s = (Done (n, bs), advance (Z.of_nat (List.length bs)) s).
Proof.
  intros [Hp Hr] Hs Hlt. unfold fread. rewrite Hr.
  destruct (Z.leb_spec (Z.of_nat (List.length bs)) (size * count)); [|lia].
  destruct (Z.eqb_spec size 0); [lia|].
  eexists; split; [|reflexivity].
  apply Z.div_lt_upper_bound; lia.
Qed.

Lemma safe_fread_short (s : state) (size count : Z) (bs : list byte) :
  cursor s bs -> 0 < size -> Z.of_nat (List.length bs) < size * count ->
  safe_fread size count s
  = (Done (0, bs),
     add_stderr msg_unexpected_eof (advance (Z.of_nat (List.length bs)) s)).
Proof.
  intros Hc Hs Hlt. unfold safe_fread.
  destruct (fread_short _ _ _ _ Hc Hs Hlt) as (n & Hn & Hf).
  rewrite (bind_done _ _ _ _ _ Hf). cbn [fst snd].
  destruct (Z.ltb_spec n count); [reflexivity|lia].
Qed.

Lemma read_u1_ok (s : state) (a : byte) (rest : list byte) :
  cursor s (a :: rest) ->
  read_u1 s = (Done (byte_val a), advance 1 s).
Proof.
  intros Hc. unfold read_u1.
  rewrite (bind_done _ _ _ _ _
             (safe_fread_exact s 1 1 [a] rest Hc ltac:(lia) eq_refl)).
  cbn [fst snd Z.eqb]. now rewrite le_load_1.
Qed.

Lemma read_u2_ok (s : state) (a b : byte) (rest : list byte) :
  cursor s (a :: b :: rest) ->
  read_u2 s = (Done (be_value [a; b]), advance 2 s).
Proof.
  intros Hc. unfold read_u2.
  rewrite (bind_done _ _ _ _ _
             (safe_fread_exact s 2 1 [a; b] rest Hc ltac:(lia) eq_refl)).
  cbn [fst snd Z.eqb]. now rewrite bswap16_le_load.
Qed.

Lemma read_u4_ok (s : state) (a b c d : byte) (rest : list byte) :
  cursor s (a :: b :: c :: d :: rest) ->
  read_u4 s = (Done (be_value [a; b; c; d]), advance 4 s).
Proof.
  intros Hc. unfold read_u4.
  rewrite (bind_done _ _ _ _ _
             (safe_fread_exact s 4 1 [a; b; c; d] rest Hc ltac:(lia) eq_refl)).
  cbn [fst snd Z.eqb]. now rewrite bswap32_le_load.
Qed.

Lemma cursor_tail (s : state) (bs rest : list byte) (n : Z) :
  cursor s (bs ++ rest) -> n = Z.of_nat (List.length bs) ->
  cursor (advance n s) rest.
Proof. intros Hc ->. now apply cursor_advance. Qed.

Lemma cursor_initial (content : list byte) :
  cursor (initial_state content) content.
Proof.
  split; [cbn; lia|]. unfold remaining. cbn.
  destruct content; [reflexivity|]. cbn [List.length].
  destruct (Z.leb_spec (Z.of_nat (S (List.length content))) 0); [lia|reflexivity].
Qed.

Lemma bind_ret {A B} (a : A) (f : A -> M B) s : bind (ret a) f s = f a s.
Proof. reflexivity. Qed.

Lemma bind_get_ok {B} (f : bool -> M B) s : bind get_ok f s = f (ok s) s.
Proof. reflexivity. Qed.

Lemma bind_put_ok {B} (b : bool) (f : unit -> M B) s :
  bind (put_ok b) f s = f tt (set_ok b s).
Proof. reflexivity. Qed.

Lemma bind_malloc {B} (n : Z) (f : unit -> M B) s :
  bind (malloc n) f s = f tt (add_alloc n s).
Proof. reflexivity. Qed.

Lemma bind_calloc {B} (n size : Z) (f : unit -> M B) s :
  bind (calloc n size) f s = f tt (add_alloc (n * size) s).
Proof. reflexivity. Qed.

Lemma bind_fseek_cur {B} (n : Z) (f : Z -> M B) s :
  bind (fseek_cur n) f s = f 0 (advance n s).
Proof. reflexivity. Qed.

Lemma bind_fprintf_stderr {B} (d : diagnostic) (f : unit -> M B) s :
  bind (fprintf_stderr d) f s = f tt (add_stderr d s).
Proof. reflexivity. Qed.

(** Symbolic execution of one reader in front of known bytes: the
    call is replaced by its value and the [cursor] fact moves on. *)
Ltac step_u1 Hc :=
  match type of Hc with
  | cursor ?s (?a :: ?rest) =>
      rewrite (bind_done _ _ _ _ _ (read_u1_ok s a rest Hc));
      apply (cursor_tail s [a] rest 1) in Hc; [|reflexivity];
      rewrite ?advance_advance in Hc |- *
  end.

Ltac step_u2 Hc :=
  match type of Hc with
  | cursor ?s (?a :: ?b :: ?rest) =>
      rewrite (bind_done _ _ _ _ _ (read_u2_ok s a b rest Hc));
      apply (cursor_tail s [a; b] rest 2) in Hc; [|reflexivity];
      rewrite ?advance_advance in Hc |- *
  end.

Ltac step_u4 Hc :=
  match type of Hc with
  | cursor ?s (?a :: ?b :: ?c :: ?d :: ?rest) =>
      rewrite (bind_done _ _ _ _ _ (read_u4_ok s a b c d rest Hc));
      apply (cursor_tail s [a; b; c; d] rest 4) in Hc; [|reflexivity];
      rewrite ?advance_advance in Hc |- *
  end.

Ltac step_pure :=
  repeat first
    [ rewrite bind_ret | rewrite bind_get_ok | rewrite bind_put_ok
    | rewrite bind_malloc | rewrite bind_calloc | rewrite bind_fseek_cur
    | rewrite bind_fprintf_stderr ].

(** ** Magic number *)

Lemma read_magic_mismatch (s : state) (a b c d : byte) (rest : list byte) :
  cursor s (a :: b :: c :: d :: rest) ->
  be_value [a; b; c; d] <> JAVA_MAGIC ->
  read_magic s = (Aborted msg_invalid_magic,
                  add_stderr msg_invalid_magic (advance 4 s)).
Proof.
  intros Hc Hne. unfold read_magic. step_u4 Hc. step_pure.
  destruct (Z.eqb_spec (be_value [a; b; c; d]) JAVA_MAGIC); [contradiction|].
  now rewrite orb_true_r.
Qed.

Lemma read_magic_match (s : state) (a b c d : byte) (rest : list byte) :
  cursor s (a :: b :: c :: d :: rest) -> ok s = true ->
  be_value [a; b; c; d] = JAVA_MAGIC ->
  read_magic s = (Done JAVA_MAGIC, advance 4 s).
Proof.
  intros Hc Hok He. unfold read_magic. step_u4 Hc. step_pure.
  cbn [ok advance set_fpos]. rewrite Hok, He. reflexivity.
Qed.

(** C8. When the first four bytes of the file are not the magic
    constant, [read_class_file] returns [NULL] with the message of the
    magic check, and the file position at that moment is 4: nothing
    beyond the four bytes has been consumed. *)
Theorem C8_magic_mismatch_fails_after_four_bytes
    (a b c d : byte) (rest : list byte) :
  be_value [a; b; c; d] <> JAVA_MAGIC ->
  fst (read_class_file (a :: b :: c :: d :: rest)) = Aborted msg_invalid_magic
  /\ fpos (snd (read_class_file (a :: b :: c :: d :: rest))) = 4
  /\ stderr (snd (read_class_file (a :: b :: c :: d :: rest)))
     = [msg_invalid_magic].
Proof.
  intros Hne.
  pose proof (cursor_initial (a :: b :: c :: d :: rest)) as Hc.
  unfold read_class_file, read_class_file_body. step_pure.
  change (cursor (add_alloc sizeof_ClassFile
                    (initial_state (a :: b :: c :: d :: rest)))
            (a :: b :: c :: d :: rest)) in Hc.
  rewrite (bind_aborted _ _ _ _ _ (read_magic_mismatch _ _ _ _ _ _ Hc Hne)).
  repeat split.
Qed.

Lemma C8_witness :
  fst (read_class_file [xca; xfe; xba; xbf; x00; x00; x00; x41])
    = Aborted msg_invalid_magic
  /\ fpos (snd (read_class_file [xca; xfe; xba; xbf; x00; x00; x00; x41])) = 4
  /\ stderr (snd (read_class_file [xca; xfe; xba; xbf; x00; x00; x00; x41]))
     = [msg_invalid_magic].
Proof.
  apply (C8_magic_mismatch_fails_after_four_bytes xca xfe xba xbf).
  vm_compute. discriminate.
Defined.

(** ** Which messages a section of the decoder can return with *)

Section AbortsWithin.
Variable P : diagnostic -> Prop.

Lemma aborts_within_ret {A} (a : A) : aborts_within (ret a) P.
Proof. intros s. exact I. Qed.

Lemma aborts_within_bind {A B} (m : M A) (f : A -> M B) :
  aborts_within m P -> (forall a, aborts_within (f a) P) ->
  aborts_within (bind m f) P.
Proof.
  intros Hm Hf s. unfold bind. specialize (Hm s).
  destruct (m s) as [[a|e] s1]; cbn in *; [apply Hf|exact Hm].
Qed.

Lemma aborts_within_error {A} (e : diagnostic) :
  P e -> aborts_within (@ERROR_AND_CLEANUP A e) P.
Proof. intros He s. exact He. Qed.

Lemma aborts_within_if {A} (c : bool) (m1 m2 : M A) :
  aborts_within m1 P -> aborts_within m2 P ->
  aborts_within (if c then m1 else m2) P.
Proof. now destruct c. Qed.

Lemma aborts_within_get_ok : aborts_within get_ok P.
Proof. intros s. exact I. Qed.

Lemma aborts_within_put_ok b : aborts_within (put_ok b) P.
Proof. intros s. exact I. Qed.

Lemma aborts_within_fprintf_stderr d : aborts_within (fprintf_stderr d) P.
Proof. intros s. exact I. Qed.

Lemma aborts_within_malloc n : aborts_within (malloc n) P.
Proof. intros s. exact I. Qed.

Lemma aborts_within_calloc n k : aborts_within (calloc n k) P.
Proof. intros s. exact I. Qed.

Lemma aborts_within_fseek_cur n : aborts_within (fseek_cur n) P.
Proof. intros s. exact I. Qed.

Lemma aborts_within_fread a b : aborts_within (fread a b) P.
Proof. intros s. exact I. Qed.

Local Ltac aw :=
  repeat first
    [ apply aborts_within_ret | apply aborts_within_get_ok
    | apply aborts_within_put_ok | apply aborts_within_fprintf_stderr
    | apply aborts_within_malloc | apply aborts_within_calloc
    | apply aborts_within_fseek_cur | apply aborts_within_fread
    | assumption
    | match goal with
      | H : context [aborts_within] |- aborts_within _ _ => solve [apply H]
      end
    | apply aborts_within_error; assumption
    | apply aborts_within_if
    | apply aborts_within_bind; [|intros ?] ].

Lemma aborts_within_safe_fread a b : aborts_within (safe_fread a b) P.
Proof. unfold safe_fread. aw. Qed.

Lemma aborts_within_read_u1 : aborts_within read_u1 P.
Proof. unfold read_u1. pose proof aborts_within_safe_fread. aw. Qed.

Lemma aborts_within_read_u2 : aborts_within read_u2 P.
Proof. unfold read_u2. pose proof aborts_within_safe_fread. aw. Qed.

Lemma aborts_within_read_u4 : aborts_within read_u4 P.
Proof. unfold read_u4. pose proof aborts_within_safe_fread. aw. Qed.

Lemma aborts_within_read_constant_pool_entry e :
  aborts_within (read_constant_pool_entry e) P.
Proof.
  pose proof aborts_within_safe_fread.
  pose proof aborts_within_read_u1. pose proof aborts_within_read_u2.
  pose proof aborts_within_read_u4.
  unfold read_constant_pool_entry, utf8_case, after_switch. aw.
Qed.

Lemma aborts_within_read_constant_pool fuel count i pool :
  (forall j, P (msg_pool_entry_failed j)) ->
  aborts_within (read_constant_pool fuel count i pool) P.
Proof.
  intros HP. pose proof aborts_within_read_constant_pool_entry.
  revert i pool. induction fuel as [|fuel IH]; intros i pool; cbn [read_constant_pool].
  - aw.
  - aw. apply aborts_within_error, HP.
Qed.

Lemma aborts_within_skip_attributes e1 e2 n :
  P e1 -> P e2 -> aborts_within (skip_attributes e1 e2 n) P.
Proof.
  intros H1 H2.
  pose proof aborts_within_read_u2. pose proof aborts_within_read_u4.
  induction n as [|n IH]; cbn [skip_attributes]; aw.
Qed.

Lemma aborts_within_skip_fields n :
  P msg_field_info_unreadable -> P msg_field_attribute_unreadable ->
  P msg_seek_field_attribute -> aborts_within (skip_fields n) P.
Proof.
  intros H1 H2 H3.
  pose proof aborts_within_read_u2.
  pose proof (fun n => aborts_within_skip_attributes _ _ n H2 H3).
  induction n as [|n IH]; cbn [skip_fields]; aw.
Qed.

(** The messages of the sections after the version check. *)
Hypothesis P_later :
  forall e, e <> msg_invalid_magic -> e <> msg_version_unreadable ->
            e <> msg_unsupported_version -> P e.

Local Ltac later := apply aborts_within_error, P_later; discriminate.

Lemma aborts_within_skip_code_tail : aborts_within skip_code_tail P.
Proof.
  pose proof aborts_within_read_u2.
  assert (forall n, aborts_within
            (skip_attributes msg_code_sub_attribute_unreadable
               msg_seek_code_sub_attribute n) P)
    by (intros; apply aborts_within_skip_attributes; apply P_later; discriminate).
  unfold skip_code_tail. aw; later.
Qed.

Lemma aborts_within_read_code_attribute m :
  aborts_within (read_code_attribute m) P.
Proof.
  pose proof aborts_within_read_u2. pose proof aborts_within_read_u4.
  pose proof aborts_within_safe_fread. pose proof aborts_within_skip_code_tail.
  unfold read_code_attribute. aw; later.
Qed.

Lemma aborts_within_read_method_attribute count pool m :
  aborts_within (read_method_attribute count pool m) P.
Proof.
  pose proof aborts_within_read_u2. pose proof aborts_within_read_u4.
  pose proof aborts_within_read_code_attribute.
  unfold read_method_attribute, dispatch_method_attribute. aw; later.
Qed.

Lemma aborts_within_read_method_attributes count pool n m :
  aborts_within (read_method_attributes count pool n m) P.
Proof.
  pose proof aborts_within_read_method_attribute.
  revert m. induction n as [|n IH]; intros m;
    cbn [read_method_attributes]; aw.
Qed.

Lemma aborts_within_read_method count pool :
  aborts_within (read_method count pool) P.
Proof.
  pose proof aborts_within_read_u2.
  pose proof aborts_within_read_method_attributes.
  unfold read_method. aw; later.
Qed.

Lemma aborts_within_read_methods count pool n :
  aborts_within (read_methods count pool n) P.
Proof.
  pose proof aborts_within_read_method.
  induction n as [|n IH]; cbn [read_methods]; aw.
Qed.

Lemma aborts_within_read_after_version mg v :
  aborts_within (read_after_version mg v) P.
Proof.
  pose proof aborts_within_read_u2.
  pose proof aborts_within_read_methods.
  assert (forall fuel count i pool,
            aborts_within (read_constant_pool fuel count i pool) P)
    by (intros; apply aborts_within_read_constant_pool;
        intros; apply P_later; discriminate).
  assert (forall n, aborts_within (skip_fields n) P)
    by (intros; apply aborts_within_skip_fields; apply P_later; discriminate).
  unfold read_after_version, read_pool, read_class_header, skip_interfaces,
    read_fields, read_method_table.
  aw; later.
Qed.
End AbortsWithin.

(** ** Version check *)

Lemma read_version_spec (s : state) (m0 m1 j0 j1 : byte) (rest : list byte) :
  cursor s (m0 :: m1 :: j0 :: j1 :: rest) -> ok s = true ->
  read_version s
  = if (be_value [j0; j1] <? 45) || (be_value [j0; j1] >? 69)
    then (Aborted msg_unsupported_version,
          add_stderr msg_unsupported_version (advance 4 s))
    else (Done (be_value [m0; m1], be_value [j0; j1]), advance 4 s).
Proof.
  intros Hc Hok. unfold read_version. step_u2 Hc. step_u2 Hc. step_pure.
  change (2 + 2) with 4.
  cbn [ok advance set_fpos]. rewrite Hok. cbn [negb].
  now destruct ((be_value [j0; j1] <? 45) || (be_value [j0; j1] >? 69)).
Qed.

Lemma read_class_file_to_version (m0 m1 j0 j1 : byte) (rest : list byte) :
  read_class_file ([xca; xfe; xba; xbe; m0; m1; j0; j1] ++ rest)
  = let s0 := add_alloc sizeof_ClassFile
                (initial_state ([xca; xfe; xba; xbe; m0; m1; j0; j1] ++ rest)) in
    if (be_value [j0; j1] <? 45) || (be_value [j0; j1] >? 69)
    then (Aborted msg_unsupported_version,
          add_stderr msg_unsupported_version (advance 8 s0))
    else read_after_version JAVA_MAGIC (be_value [m0; m1], be_value [j0; j1])
           (advance 8 s0).
Proof.
  pose proof (cursor_initial ([xca; xfe; xba; xbe; m0; m1; j0; j1] ++ rest))
    as Hc.
  unfold read_class_file, read_class_file_body. step_pure.
  set (s0 := add_alloc _ _) in *.
  change (cursor s0 (xca :: xfe :: xba :: xbe :: m0 :: m1 :: j0 :: j1 :: rest))
    in Hc.
  rewrite (bind_done _ _ _ _ _
             (read_magic_match s0 _ _ _ _ _ Hc eq_refl eq_refl)).
  apply (cursor_tail s0 [xca; xfe; xba; xbe] _ 4) in Hc; [|reflexivity].
  unfold bind at 1. rewrite (read_version_spec _ _ _ _ _ _ Hc eq_refl).
  cbv zeta. rewrite !advance_advance. change (4 + 4) with 8.
  now destruct ((be_value [j0; j1] <? 45) || (be_value [j0; j1] >? 69)).
Qed.

(** C9. On a file that starts with the magic number and a readable
    version pair, [read_class_file] returns [NULL] with "Unsupported
    class file version." exactly when the major version is outside
    [45, 69]; inside the interval the decoder goes on with the pool count
    at file position 8. *)
Theorem C9_unsupported_version_iff_outside_interval
    (m0 m1 j0 j1 : byte) (rest : list byte) :
  (fst (read_class_file ([xca; xfe; xba; xbe; m0; m1; j0; j1] ++ rest))
     = Aborted msg_unsupported_version
   <-> ~ (45 <= be_value [j0; j1] <= 69))
  /\ (45 <= be_value [j0; j1] <= 69 ->
      read_class_file ([xca; xfe; xba; xbe; m0; m1; j0; j1] ++ rest)
      = read_after_version JAVA_MAGIC (be_value [m0; m1], be_value [j0; j1])
          (advance 8
             (add_alloc sizeof_ClassFile
                (initial_state
                   ([xca; xfe; xba; xbe; m0; m1; j0; j1] ++ rest))))).
Proof.
  rewrite read_class_file_to_version. cbv zeta.
  destruct (Z.ltb_spec (be_value [j0; j1]) 45) as [Hlo|Hlo];
    [|destruct (Z.gtb_spec (be_value [j0; j1]) 69) as [Hhi|Hhi]];
    cbn [orb fst].
  - split; [split; [lia|reflexivity]|lia].
  - split; [split; [lia|reflexivity]|lia].
  - split; [|reflexivity]. split; [|lia].
    intros Habs. exfalso.
    pose proof (aborts_within_read_after_version
                  (fun e => e <> msg_unsupported_version)
                  ltac:(intros e _ _ He; exact He)
                  JAVA_MAGIC (be_value [m0; m1], be_value [j0; j1])
                  (advance 8
                     (add_alloc sizeof_ClassFile
                        (initial_state
                           ([xca; xfe; xba; xbe; m0; m1; j0; j1] ++ rest)))))
      as Hw.
    rewrite Habs in Hw. now apply Hw.
Qed.

Lemma C9_witness :
  read_class_file ([xca; xfe; xba; xbe; x00; x00; x00; x41] ++ [x00; x01])
  = read_after_version JAVA_MAGIC (be_value [x00; x00], be_value [x00; x41])
      (advance 8
         (add_alloc sizeof_ClassFile
            (initial_state
               ([xca; xfe; xba; xbe; x00; x00; x00; x41] ++ [x00; x01])))).
Proof.
  apply (proj2 (C9_unsupported_version_iff_outside_interval
                  x00 x00 x00 x41 [x00; x01])).
  vm_compute. split; discriminate.
Defined.

(** ** One pool entry in front of enough bytes *)

Ltac unfold_tags :=
  unfold CONSTANT_Class, CONSTANT_Fieldref, CONSTANT_Methodref,
    CONSTANT_InterfaceMethodref, CONSTANT_String, CONSTANT_Integer,
    CONSTANT_Float, CONSTANT_Long, CONSTANT_Double, CONSTANT_NameAndType,
    CONSTANT_Utf8 in *.

Ltac enter_entry Hc Hok :=
  unfold read_constant_pool_entry; step_u1 Hc; step_pure;
  cbn [ok advance set_fpos]; rewrite Hok; cbn [negb].

Ltac finish_entry Hok :=
  unfold after_switch; step_pure; rewrite ?advance_advance;
  cbn [ok advance set_fpos]; rewrite Hok; reflexivity.

Lemma entry_default (s : state) (e : cp_info) (t : byte) (rest : list byte) :
  cursor s (t :: rest) -> ok s = true ->
  ~ In (byte_val t) switch_case_tags ->
  read_constant_pool_entry e s
  = (Done (1, mk_cp_info (byte_val t) (info e)), advance 1 s).
Proof.
  intros Hc Hok Hn. enter_entry Hc Hok.
  repeat match goal with
         | |- context [?x =? ?c] =>
             destruct (Z.eqb_spec x c) as [Heq|_];
             [exfalso; apply Hn; rewrite Heq; cbn; tauto|]
         end.
  cbn [orb]. finish_entry Hok.
Qed.

Lemma entry_class (s : state) (e : cp_info) (t a b : byte) (rest : list byte) :
  cursor s (t :: a :: b :: rest) -> ok s = true ->
  byte_val t = CONSTANT_Class ->
  read_constant_pool_entry e s
  = (Done (1, mk_cp_info CONSTANT_Class (class_info (be_value [a; b]))),
     advance 3 s).
Proof.
  intros Hc Hok Ht. enter_entry Hc Hok. rewrite Ht. unfold_tags.
  cbn [Z.eqb Pos.eqb].
  step_u2 Hc. finish_entry Hok.
Qed.

Lemma entry_string (s : state) (e : cp_info) (t a b : byte) (rest : list byte) :
  cursor s (t :: a :: b :: rest) -> ok s = true ->
  byte_val t = CONSTANT_String ->
  read_constant_pool_entry e s
  = (Done (1, mk_cp_info CONSTANT_String (string_info (be_value [a; b]))),
     advance 3 s).
Proof.
  intros Hc Hok Ht. enter_entry Hc Hok. rewrite Ht. unfold_tags.
  cbn [Z.eqb Pos.eqb].
  step_u2 Hc. finish_entry Hok.
Qed.

Lemma entry_integer (s : state) (e : cp_info) (t a b c d : byte)
    (rest : list byte) :
  cursor s (t :: a :: b :: c :: d :: rest) -> ok s = true ->
  byte_val t = CONSTANT_Integer ->
  read_constant_pool_entry e s
  = (Done (1, mk_cp_info CONSTANT_Integer (integer_info (be_value [a; b; c; d]))),
     advance 5 s).
Proof.
  intros Hc Hok Ht. enter_entry Hc Hok. rewrite Ht. unfold_tags.
  cbn [Z.eqb Pos.eqb].
  step_u4 Hc. finish_entry Hok.
Qed.

Lemma entry_member_ref (s : state) (e : cp_info) (t a b c d : byte)
    (rest : list byte) :
  cursor s (t :: a :: b :: c :: d :: rest) -> ok s = true ->
  In (byte_val t)
    [CONSTANT_Fieldref; CONSTANT_Methodref; CONSTANT_InterfaceMethodref] ->
  read_constant_pool_entry e s
  = (Done (1, mk_cp_info (byte_val t)
                (methodref_info (be_value [a; b]) (be_value [c; d]))),
     advance 5 s).
Proof.
  intros Hc Hok Ht. enter_entry Hc Hok.
  cbn in Ht. destruct Ht as [Ht|[Ht|[Ht|[]]]]; rewrite <- Ht; unfold_tags;
    cbn [Z.eqb Pos.eqb orb]; step_u2 Hc; step_u2 Hc; finish_entry Hok.
Qed.

Lemma entry_name_and_type (s : state) (e : cp_info) (t a b c d : byte)
    (rest : list byte) :
  cursor s (t :: a :: b :: c :: d :: rest) -> ok s = true ->
  byte_val t = CONSTANT_NameAndType ->
  read_constant_pool_entry e s
  = (Done (1, mk_cp_info CONSTANT_NameAndType
                (nameandtype_info (be_value [a; b]) (be_value [c; d]))),
     advance 5 s).
Proof.
  intros Hc Hok Ht. enter_entry Hc Hok. rewrite Ht. unfold_tags.
  cbn [Z.eqb Pos.eqb orb]. step_u2 Hc. step_u2 Hc. finish_entry Hok.
Qed.

Lemma entry_wide (s : state) (e : cp_info) (t h0 h1 h2 h3 l0 l1 l2 l3 : byte)
    (rest : list byte) :
  cursor s (t :: h0 :: h1 :: h2 :: h3 :: l0 :: l1 :: l2 :: l3 :: rest) ->
  ok s = true -> is_wide_tag (byte_val t) = true ->
  read_constant_pool_entry e s
  = (Done (2, mk_cp_info (byte_val t)
                (long_info (be_value [h0; h1; h2; h3])
                   (be_value [l0; l1; l2; l3]))),
     advance 9 s).
Proof.
  intros Hc Hok Ht. enter_entry Hc Hok.
  unfold is_wide_tag in Ht. apply orb_true_iff in Ht.
  destruct Ht as [Ht|Ht]; apply Z.eqb_eq in Ht; rewrite Ht; unfold_tags;
    cbn [Z.eqb Pos.eqb orb]; step_u4 Hc; step_u4 Hc; step_pure;
    rewrite ?advance_advance; reflexivity.
Qed.

Lemma entry_utf8 (s : state) (e : cp_info) (t a b : byte)
    (content rest : list byte) :
  cursor s (t :: a :: b :: content ++ rest) -> ok s = true ->
  byte_val t = CONSTANT_Utf8 ->
  be_value [a; b] = Z.of_nat (List.length content) ->
  read_constant_pool_entry e s
  = (Done (1, mk_cp_info CONSTANT_Utf8
                (utf8_info (be_value [a; b]) (content ++ [x00]))),
     add_alloc (be_value [a; b] + 1) (advance (3 + be_value [a; b]) s)).
Proof.
  intros Hc Hok Ht Hlen. enter_entry Hc Hok. rewrite Ht. unfold_tags.
  cbn [Z.eqb Pos.eqb]. step_u2 Hc. step_pure.
  rewrite ?advance_advance. cbn [ok advance set_fpos]. rewrite Hok.
  cbn [negb]. unfold utf8_case.
  pose proof (be_value_2_range a b) as Hr.
  destruct (Z.gtb_spec (be_value [a; b]) MAX_STRING_LENGTH) as [Hgt|_];
    [unfold MAX_STRING_LENGTH in Hgt; lia|].
  step_pure.
  match goal with
  | |- context [bind (safe_fread 1 ?n) ?f ?s1] =>
      assert (Hc1 : cursor s1 (content ++ rest)) by exact Hc;
      rewrite (bind_done _ _ _ _ _
                 (safe_fread_exact s1 1 n content rest Hc1 ltac:(lia)
                    ltac:(lia)))
  end.
  cbn [fst snd Z.eqb]. unfold after_switch. step_pure.
  cbn [ok advance set_fpos add_alloc tag]. rewrite Hok. cbn [negb].
  unfold ret. f_equal.
  unfold advance, set_fpos, add_alloc. cbn [fdata fpos ok stderr allocs].
  f_equal. lia.
Qed.

(** ** The pool loop *)

Lemma read_constant_pool_exit (fuel : nat) (count i : Z)
    (pool : list cp_info) (s : state) :
  count <= i -> read_constant_pool fuel count i pool s = (Done pool, s).
Proof.
  intros Hi. destruct fuel; cbn [read_constant_pool];
    destruct (Z.ltb_spec i count); try lia; reflexivity.
Qed.

Lemma read_constant_pool_step (fuel : nat) (count i : Z)
    (pool : list cp_info) (s s1 : state) (step : Z) (e : cp_info) :
  i < count ->
  read_constant_pool_entry (pool_slot pool i) s = (Done (step, e), s1) ->
  ok s1 = true -> step <> 0 ->
  read_constant_pool (S fuel) count i pool s
  = read_constant_pool fuel count (i + step) (<[Z.to_nat i := e]> pool) s1.
Proof.
  intros Hi He Hok Hstep. cbn [read_constant_pool].
  destruct (Z.ltb_spec i count); [|lia]. cbn [negb].
  rewrite (bind_done _ _ _ _ _ He). step_pure. cbn [fst snd].
  rewrite Hok. destruct (Z.eqb_spec step 0); [contradiction|reflexivity].
Qed.

(** C6. A pool entry whose tag byte is none of the case labels of the
    [switch]: only the tag byte is consumed (the stream stays in front
    of the bytes that follow it, [ok] and [stderr] are untouched), the
    slot keeps the tag with the union as it was, the result is 1, and
    the pool loop goes on with the next index. *)
Theorem C6_unknown_tag_tolerated
    (s : state) (e : cp_info) (t : byte) (rest : list byte) :
  cursor s (t :: rest) -> ok s = true ->
  ~ In (byte_val t) switch_case_tags ->
  read_constant_pool_entry e s
  = (Done (1, mk_cp_info (byte_val t) (info e)), advance 1 s)
  /\ cursor (advance 1 s) rest
  /\ forall fuel count i pool,
       i < count ->
       read_constant_pool (S fuel) count i pool s
       = read_constant_pool fuel count (i + 1)
           (<[Z.to_nat i := mk_cp_info (byte_val t) (info (pool_slot pool i))]>
              pool)
           (advance 1 s).
Proof.
  intros Hc Hok Hn. split; [now apply (entry_default s e t rest)|].
  split; [exact (cursor_tail s [t] rest 1 Hc eq_refl)|].
  intros fuel count i pool Hi.
  apply read_constant_pool_step; try assumption; [|discriminate].
  now apply (entry_default s _ t rest).
Qed.

Lemma C6_witness :
  read_constant_pool_entry cp_zero (initial_state [xc8; x07; x00; x01])
  = (Done (1, mk_cp_info (byte_val xc8) (info cp_zero)),
     advance 1 (initial_state [xc8; x07; x00; x01]))
  /\ cursor (advance 1 (initial_state [xc8; x07; x00; x01])) [x07; x00; x01]
  /\ forall fuel count i pool,
       i < count ->
       read_constant_pool (S fuel) count i pool
         (initial_state [xc8; x07; x00; x01])
       = read_constant_pool fuel count (i + 1)
           (<[Z.to_nat i := mk_cp_info (byte_val xc8)
                              (info (pool_slot pool i))]> pool)
           (advance 1 (initial_state [xc8; x07; x00; x01])).
Proof.
  apply (C6_unknown_tag_tolerated (initial_state [xc8; x07; x00; x01])
           cp_zero xc8 [x07; x00; x01]).
  - apply cursor_initial.
  - reflexivity.
  - vm_compute. intuition discriminate.
Defined.

(** C4. What the code does with a [CONSTANT_Float] entry: the tag has
    no case in the [switch], so none of its four payload bytes is
    read: the stream is left in front of the payload and the slot holds
    no value, whereas [CONSTANT_Integer] in front of the same bytes reads
    the 4-byte field. *)
Theorem C4_float_entry_payload_not_read
    (s : state) (e : cp_info) (t p0 p1 p2 p3 : byte) (rest : list byte) :
  cursor s (t :: p0 :: p1 :: p2 :: p3 :: rest) -> ok s = true ->
  (byte_val t = CONSTANT_Float ->
   read_constant_pool_entry e s
   = (Done (1, mk_cp_info CONSTANT_Float (info e)), advance 1 s)
   /\ cursor (advance 1 s) (p0 :: p1 :: p2 :: p3 :: rest))
  /\ (byte_val t = CONSTANT_Integer ->
      read_constant_pool_entry e s
      = (Done (1, mk_cp_info CONSTANT_Integer
                    (integer_info (be_value [p0; p1; p2; p3]))),
         advance 5 s)
      /\ cursor (advance 5 s) rest).
Proof.
  intros Hc Hok. split; intros Ht.
  - split; [|exact (cursor_tail s [t] _ 1 Hc eq_refl)].
    rewrite <- Ht. apply (entry_default s e t (p0 :: p1 :: p2 :: p3 :: rest));
      try assumption.
    rewrite Ht. vm_compute. intuition discriminate.
  - split; [now apply (entry_integer s e t p0 p1 p2 p3 rest)|].
    exact (cursor_tail s [t; p0; p1; p2; p3] rest 5 Hc eq_refl).
Qed.

Lemma C4_witness :
  read_constant_pool_entry cp_zero
    (initial_state [x04; x3f; x80; x00; x00; x07; x00; x01])
  = (Done (1, mk_cp_info CONSTANT_Float (info cp_zero)),
     advance 1 (initial_state [x04; x3f; x80; x00; x00; x07; x00; x01]))
  /\ cursor (advance 1 (initial_state [x04; x3f; x80; x00; x00; x07; x00; x01]))
       [x3f; x80; x00; x00; x07; x00; x01].
Proof.
  apply (proj1 (C4_float_entry_payload_not_read
                  (initial_state [x04; x3f; x80; x00; x00; x07; x00; x01])
                  cp_zero x04 x3f x80 x00 x00 [x07; x00; x01]
                  (cursor_initial _) eq_refl)).
  reflexivity.
Defined.

(** A well-formed class file with a float constant is rejected, the
    reads after the pool being out of step, while the same file with
    tag [CONSTANT_Integer] on that entry is decoded. *)
Example float_constant_breaks_decoding :
  fst (read_class_file file_with_float) = Aborted msg_fields_count_unreadable
  /\ exists cf s, read_class_file file_with_integer = (Done cf, s)
                  /\ fpos s = Z.of_nat (List.length file_with_integer).
Proof.
  split; [vm_compute; reflexivity|].
  eexists; eexists; split; vm_compute; reflexivity.
Qed.

(** ** Reasoning on what a section returns *)

Lemma wp_ret {A} (a : A) (Q : A -> state -> Prop) s : Q a s -> wp (ret a) Q s.
Proof. exact id. Qed.

Lemma wp_bind {A B} (m : M A) (f : A -> M B) (Q : B -> state -> Prop) s :
  wp m (fun a s' => wp (f a) Q s') s -> wp (bind m f) Q s.
Proof. unfold wp, bind. now destruct (m s) as [[a|e] s']. Qed.

Lemma wp_mono {A} (m : M A) (Q Q' : A -> state -> Prop) s :
  wp m Q s -> (forall a s', Q a s' -> Q' a s') -> wp m Q' s.
Proof. unfold wp. destruct (m s) as [[a|e] s']; auto. Qed.

Lemma wp_any {A} (m : M A) s : wp m (fun _ _ => True) s.
Proof. unfold wp. now destruct (m s) as [[a|e] s']. Qed.

Lemma wp_error {A} (e : diagnostic) (Q : A -> state -> Prop) s :
  wp (ERROR_AND_CLEANUP e) Q s.
Proof. exact I. Qed.

Lemma wp_done {A} (m : M A) (Q : A -> state -> Prop) s a s' :
  wp m Q s -> m s = (Done a, s') -> Q a s'.
Proof. unfold wp. intros H E. now rewrite E in H. Qed.

Lemma wp_get_ok {B} (f : bool -> M B) (Q : B -> state -> Prop) s :
  wp (f (ok s)) Q s -> wp (bind get_ok f) Q s.
Proof. exact id. Qed.

Lemma wp_put_ok {B} b (f : unit -> M B) (Q : B -> state -> Prop) s :
  wp (f tt) Q (set_ok b s) -> wp (bind (put_ok b) f) Q s.
Proof. exact id. Qed.

Lemma wp_malloc {B} n (f : unit -> M B) (Q : B -> state -> Prop) s :
  wp (f tt) Q (add_alloc n s) -> wp (bind (malloc n) f) Q s.
Proof. exact id. Qed.

Lemma wp_calloc {B} n k (f : unit -> M B) (Q : B -> state -> Prop) s :
  wp (f tt) Q (add_alloc (n * k) s) -> wp (bind (calloc n k) f) Q s.
Proof. exact id. Qed.

Lemma wp_fseek_cur {B} n (f : Z -> M B) (Q : B -> state -> Prop) s :
  wp (f 0) Q (advance n s) -> wp (bind (fseek_cur n) f) Q s.
Proof. exact id. Qed.

Lemma wp_fprintf_stderr {B} d (f : unit -> M B) (Q : B -> state -> Prop) s :
  wp (f tt) Q (add_stderr d s) -> wp (bind (fprintf_stderr d) f) Q s.
Proof. exact id. Qed.

(** The calls that only touch the state. *)
Ltac wp_pure :=
  repeat first
    [ apply wp_get_ok | apply wp_put_ok | apply wp_malloc | apply wp_calloc
    | apply wp_fseek_cur | apply wp_fprintf_stderr ].

(** A call whose result does not matter. *)
Ltac wp_skip :=
  apply wp_bind; eapply wp_mono; [apply wp_any|cbv beta; intros ? ? _].

(** A call with a proved specification [H]. *)
Ltac wp_call H :=
  apply wp_bind; eapply wp_mono; [apply H|cbv beta; intros ? ? ?].

(** ** Invariant of the pool table *)

Lemma pool_slot_insert_eq (pool : list cp_info) (i : Z) (e : cp_info) :
  (Z.to_nat i < List.length pool)%nat ->
  pool_slot (<[Z.to_nat i := e]> pool) i = e.
Proof.
  intros Hi. unfold pool_slot. now rewrite list_lookup_insert_eq.
Qed.

Lemma pool_slot_insert_ne (pool : list cp_info) (i j : Z) (e : cp_info) :
  0 <= i -> 0 <= j -> i <> j ->
  pool_slot (<[Z.to_nat i := e]> pool) j = pool_slot pool j.
Proof.
  intros Hi Hj Hne. unfold pool_slot.
  rewrite list_lookup_insert_ne; [reflexivity|lia].
Qed.

Lemma pool_slot_outside (pool : list cp_info) (j : Z) :
  (List.length pool <= Z.to_nat j)%nat -> pool_slot pool j = cp_zero.
Proof.
  intros Hj. unfold pool_slot. now rewrite lookup_ge_None_2.
Qed.

Lemma pool_slot_replicate (n : nat) (j : Z) :
  pool_slot (replicate n cp_zero) j = cp_zero.
Proof.
  unfold pool_slot.
  destruct (replicate n cp_zero !! Z.to_nat j) as [e|] eqn:He; [|reflexivity].
  apply lookup_replicate in He. now destruct He as [-> _].
Qed.

Lemma pool_inv_initial (n : nat) : pool_inv 1 (replicate n cp_zero).
Proof.
  repeat split; intros; try apply pool_slot_replicate; try lia.
  rewrite pool_slot_replicate in *. discriminate.
Qed.

(** Writing slot [i] and moving on by the returned slot count keeps
    the invariant. *)
Lemma pool_inv_step (i : Z) (pool : list cp_info) (r : Z * cp_info) :
  pool_inv i pool -> entry_result_ok r -> fst r <> 0 ->
  pool_inv (i + fst r) (<[Z.to_nat i := snd r]> pool).
Proof.
  intros (Hi & Hz & H0 & Hw) Hr Hnz.
  assert (Hstep : 1 <= fst r <= 2) by (destruct Hr as [?|[[? _]|[? _]]]; lia).
  assert (Hwide : is_wide_tag (tag (snd r)) = true -> fst r = 2).
  { destruct Hr as [?|[[? Hf]|[? _]]]; try lia. rewrite Hf. discriminate. }
  repeat split.
  - lia.
  - intros j Hj. rewrite pool_slot_insert_ne by lia. apply Hz. lia.
  - rewrite pool_slot_insert_ne by lia. exact H0.
  - destruct (Z.eq_dec j i) as [->|Hne].
    + specialize (Hwide ltac:(
        destruct (Nat.lt_ge_cases (Z.to_nat i) (List.length pool)) as [Hl|Hl];
        [rewrite pool_slot_insert_eq in H1 by exact Hl; exact H1
        |rewrite list_insert_ge, (pool_slot_outside _ _ Hl) in H1 by exact Hl;
         discriminate])). lia.
    + rewrite pool_slot_insert_ne in H1 by lia.
      destruct (Z.lt_ge_cases j i) as [Hlt|Hge].
      * destruct (Hw j ltac:(lia) H1). lia.
      * rewrite Hz in H1 by lia. discriminate.
  - destruct (Z.eq_dec j i) as [->|Hne].
    + rewrite pool_slot_insert_ne by lia. apply Hz. lia.
    + rewrite pool_slot_insert_ne in H1 by lia.
      destruct (Z.lt_ge_cases j i) as [Hlt|Hge].
      * destruct (Hw j ltac:(lia) H1) as [Hj1 Hj2].
        rewrite pool_slot_insert_ne by lia. exact Hj2.
      * rewrite Hz in H1 by lia. discriminate.
Qed.

Lemma read_constant_pool_entry_result (e : cp_info) (s : state) :
  wp (read_constant_pool_entry e) (fun r _ => entry_result_ok r) s.
Proof.
  assert (Hafter : forall (e' : cp_info) s',
             is_wide_tag (tag e') = false ->
             wp (after_switch e') (fun r _ => entry_result_ok r) s').
  { intros e' s' He'. unfold after_switch. wp_pure.
    destruct (ok s'); cbn [negb]; apply wp_ret; [right; left|left]; auto. }
  unfold read_constant_pool_entry. wp_skip. rename a into t.
  wp_pure.
  destruct (ok s'); cbn [negb]; [|now apply wp_ret; left].
  unfold_tags.
  destruct (Z.eqb_spec t 7) as [->|H7];
    [wp_skip; now apply Hafter|].
  destruct (Z.eqb_spec t 1) as [->|H1].
  { wp_skip. wp_pure.
    destruct (ok s'0); cbn [negb]; [|now apply wp_ret; left].
    unfold utf8_case.
    destruct (a >? MAX_STRING_LENGTH); [wp_pure; now apply wp_ret; left|].
    wp_pure. wp_skip.
    destruct (fst a0 =? 0); [wp_pure; now apply wp_ret; left|now apply Hafter]. }
  destruct (Z.eqb_spec t 3) as [->|H3];
    [wp_skip; now apply Hafter|].
  destruct (Z.eqb_spec t 8) as [->|H8];
    [wp_skip; now apply Hafter|].
  destruct (Z.eqb_spec t 9) as [->|H9];
    [wp_skip; wp_skip; now apply Hafter|].
  destruct (Z.eqb_spec t 10) as [->|H10];
    [wp_skip; wp_skip; now apply Hafter|].
  destruct (Z.eqb_spec t 11) as [->|H11];
    [wp_skip; wp_skip; now apply Hafter|].
  cbn [orb].
  destruct (Z.eqb_spec t 12) as [->|H12];
    [wp_skip; wp_skip; now apply Hafter|].
  destruct (Z.eqb_spec t 5) as [->|H5];
    [wp_skip; wp_skip; apply wp_ret; now right; right|].
  destruct (Z.eqb_spec t 6) as [->|H6];
    [wp_skip; wp_skip; apply wp_ret; now right; right|].
  cbn [orb]. apply Hafter. cbn [tag]. unfold is_wide_tag. unfold_tags.
  destruct (Z.eqb_spec t 5); [contradiction|].
  destruct (Z.eqb_spec t 6); [contradiction|reflexivity].
Qed.

Lemma pool_inv_wf (i : Z) (pool : list cp_info) : pool_inv i pool -> pool_wf pool.
Proof.
  intros (Hi & Hz & H0 & Hw). split; [exact H0|].
  intros j Hj Hwide. destruct (Z.lt_ge_cases j i) as [Hlt|Hge].
  - now destruct (Hw j ltac:(lia) Hwide).
  - rewrite Hz in Hwide by lia. discriminate.
Qed.

Lemma read_constant_pool_inv (fuel : nat) (count i : Z)
    (pool : list cp_info) (s : state) :
  pool_inv i pool ->
  wp (read_constant_pool fuel count i pool)
     (fun pool' _ => pool_wf pool' /\ List.length pool' = List.length pool) s.
Proof.
  revert i pool s. induction fuel as [|fuel IH]; intros i pool s Hinv;
    cbn [read_constant_pool]; destruct (i <? count); cbn [negb];
    try (apply wp_ret; split; [now apply (pool_inv_wf i)|reflexivity]).
  wp_call read_constant_pool_entry_result. wp_pure.
  destruct (ok s'); cbn [negb orb]; [|apply wp_error].
  destruct (Z.eqb_spec (fst a) 0) as [|Hnz]; [apply wp_error|].
  eapply wp_mono; [apply IH, pool_inv_step; assumption|].
  cbv beta. intros pool' _ [Hwf Hlen]. split; [exact Hwf|].
  now rewrite Hlen, length_insert.
Qed.

Lemma read_constant_pool_entry_bounded (e : cp_info) (s : state) :
  utf8_bounded e ->
  wp (read_constant_pool_entry e) (fun r _ => utf8_bounded (snd r)) s.
Proof.
  intros He.
  assert (Hafter : forall (e' : cp_info) s',
             utf8_bounded e' ->
             wp (after_switch e') (fun r _ => utf8_bounded (snd r)) s').
  { intros e' s' He'. unfold after_switch. wp_pure.
    destruct (ok s'); cbn [negb]; apply wp_ret; exact He'. }
  unfold read_constant_pool_entry. wp_skip. rename a into t. wp_pure.
  destruct (negb (ok s')); [now apply wp_ret|].
  repeat match goal with
         | |- wp (if ?c then _ else _) _ _ => destruct c
         | |- wp (bind read_u2 _) _ _ => wp_skip
         | |- wp (bind read_u4 _) _ _ => wp_skip
         | |- wp (after_switch _) _ _ => apply Hafter; try exact I; try exact He
         | |- wp (ret _) _ _ => apply wp_ret; try exact I; try exact He
         | |- wp (bind get_ok _) _ _ => wp_pure
         end.
  unfold utf8_case. destruct (Z.gtb_spec a MAX_STRING_LENGTH) as [|Hle].
  - wp_pure. apply wp_ret. exact He.
  - wp_pure. wp_skip. destruct (fst a0 =? 0).
    + wp_pure. apply wp_ret. exact Hle.
    + apply Hafter. exact Hle.
Qed.

Lemma read_constant_pool_bounded (fuel : nat) (count i : Z)
    (pool : list cp_info) (s : state) :
  Forall utf8_bounded pool ->
  wp (read_constant_pool fuel count i pool)
     (fun pool' _ => Forall utf8_bounded pool') s.
Proof.
  revert i pool s. induction fuel as [|fuel IH]; intros i pool s Hall;
    cbn [read_constant_pool]; destruct (i <? count); cbn [negb];
    try (now apply wp_ret).
  assert (Hslot : utf8_bounded (pool_slot pool i)).
  { unfold pool_slot.
    destruct (pool !! Z.to_nat i) as [e|] eqn:He; [|exact I].
    cbn. eapply Forall_lookup_1; eassumption. }
  wp_call (fun s => read_constant_pool_entry_bounded _ s Hslot). wp_pure.
  destruct (negb (ok s') || (fst a =? 0)); [apply wp_error|].
  apply IH. now apply Forall_insert.
Qed.

(** The fuel given by [read_pool] is never used up: with at least
    [count - i] units the loop does not depend on the amount. *)
Lemma read_constant_pool_fuel (fuel1 fuel2 : nat) (count i : Z)
    (pool : list cp_info) (s : state) :
  count - i <= Z.of_nat fuel1 -> count - i <= Z.of_nat fuel2 ->
  read_constant_pool fuel1 count i pool s
  = read_constant_pool fuel2 count i pool s.
Proof.
  revert fuel2 i pool s.
  induction fuel1 as [|fuel1 IH]; intros fuel2 i pool s H1 H2.
  - rewrite !read_constant_pool_exit by lia. reflexivity.
  - destruct fuel2 as [|fuel2];
      [rewrite !read_constant_pool_exit by lia; reflexivity|].
    cbn [read_constant_pool]. destruct (Z.ltb_spec i count); [|reflexivity].
    cbn [negb]. unfold bind at 1 3.
    pose proof (read_constant_pool_entry_result (pool_slot pool i) s) as Hr.
    unfold wp in Hr.
    destruct (read_constant_pool_entry (pool_slot pool i) s) as [[r|e] s1];
      [|reflexivity].
    step_pure.
    destruct (negb (ok s1) || (fst r =? 0)) eqn:Hc; [reflexivity|].
    apply orb_false_iff in Hc. destruct Hc as [_ Hc].
    apply Z.eqb_neq in Hc.
    apply IH; destruct Hr as [?|[[? _]|[? _]]]; lia.
Qed.

Lemma wp_conj {A} (m : M A) (Q1 Q2 : A -> state -> Prop) s :
  wp m Q1 s -> wp m Q2 s -> wp m (fun a s' => Q1 a s' /\ Q2 a s') s.
Proof. unfold wp. destruct (m s) as [[a|e] s']; auto. Qed.

Lemma read_methods_length (count : Z) (pool : list cp_info) (n : nat) s :
  wp (read_methods count pool n) (fun ms _ => List.length ms = n) s.
Proof.
  revert s. induction n as [|n IH]; intros s; cbn [read_methods].
  - now apply wp_ret.
  - wp_skip. wp_call IH. apply wp_ret. cbn. now f_equal.
Qed.

(** What holds of the pool part of every returned [ClassFile]. *)
Lemma read_pool_result (s : state) :
  wp read_pool
     (fun cp _ => fst cp <= MAX_CONSTANT_POOL_SIZE
                  /\ List.length (snd cp) = Z.to_nat (fst cp)
                  /\ pool_wf (snd cp)
                  /\ Forall utf8_bounded (snd cp)) s.
Proof.
  unfold read_pool. wp_skip. rename a into count. wp_pure.
  destruct (negb (ok s')); cbn [orb]; [apply wp_error|].
  destruct (Z.gtb_spec count MAX_CONSTANT_POOL_SIZE) as [|Hle];
    [apply wp_error|].
  wp_pure. apply wp_bind.
  eapply wp_mono;
    [apply wp_conj;
     [apply read_constant_pool_inv, pool_inv_initial
     |apply read_constant_pool_bounded, Forall_replicate; exact I]|].
  cbv beta. intros pool s1 [[Hwf Hlen] Hb]. apply wp_ret. cbn [fst snd].
  rewrite length_replicate in Hlen. auto.
Qed.

Lemma read_method_table_result (count : Z) (pool : list cp_info) (s : state) :
  wp (read_method_table count pool)
     (fun mt _ => fst mt <= 1000
                  /\ List.length (snd mt) = Z.to_nat (fst mt)) s.
Proof.
  unfold read_method_table. wp_skip. rename a into n. wp_pure.
  destruct (negb (ok s')); [apply wp_error|].
  destruct (Z.gtb_spec n 1000) as [|Hle]; [apply wp_error|].
  wp_pure. wp_call read_methods_length. apply wp_ret. cbn [fst snd]. auto.
Qed.

Lemma read_class_file_body_result (s : state) :
  wp read_class_file_body
     (fun cf _ =>
        constant_pool_count cf <= MAX_CONSTANT_POOL_SIZE
        /\ List.length (constant_pool cf) = Z.to_nat (constant_pool_count cf)
        /\ pool_wf (constant_pool cf)
        /\ Forall utf8_bounded (constant_pool cf)
        /\ methods_count cf <= 1000
        /\ List.length (methods cf) = Z.to_nat (methods_count cf)) s.
Proof.
  unfold read_class_file_body. wp_pure. wp_skip. wp_skip.
  unfold read_after_version.
  wp_call read_pool_result. destruct H as (Hc & Hl & Hwf & Hb).
  wp_skip. wp_skip. wp_skip.
  wp_call read_method_table_result. destruct H as (Hm & Hml).
  apply wp_ret. cbn. auto 10.
Qed.

(** C3. In every [ClassFile] that [read_class_file] returns, slot 0 of
    the pool table is as [calloc] left it and so is the slot after each
    8-byte literal (tags [CONSTANT_Long], [CONSTANT_Double]); the entry
    decoder returns 2 for such an entry, having read the tag and its 8
    bytes, and the loop then goes on at index [i + 2]; the loop stops as
    soon as the index is not below the declared count; and [read_pool]
    starts it at index 1 on a table of zeroed slots. *)
Theorem C3_pool_slots_of_wide_entries :
  (forall content cf s,
     read_class_file content = (Done cf, s) ->
     pool_slot (constant_pool cf) 0 = cp_zero
     /\ forall j, 0 <= j ->
          is_wide_tag (tag (pool_slot (constant_pool cf) j)) = true ->
          pool_slot (constant_pool cf) (j + 1) = cp_zero)
  /\ (forall s e t h0 h1 h2 h3 l0 l1 l2 l3 rest,
        cursor s (t :: h0 :: h1 :: h2 :: h3 :: l0 :: l1 :: l2 :: l3 :: rest) ->
        ok s = true -> is_wide_tag (byte_val t) = true ->
        read_constant_pool_entry e s
        = (Done (2, mk_cp_info (byte_val t)
                      (long_info (be_value [h0; h1; h2; h3])
                         (be_value [l0; l1; l2; l3]))),
           advance 9 s)
        /\ forall fuel count i pool,
             i < count ->
             read_constant_pool (S fuel) count i pool s
             = read_constant_pool fuel count (i + 2)
                 (<[Z.to_nat i :=
                      mk_cp_info (byte_val t)
                        (long_info (be_value [h0; h1; h2; h3])
                           (be_value [l0; l1; l2; l3]))]> pool)
                 (advance 9 s))
  /\ (forall fuel count i pool s,
        count <= i -> read_constant_pool fuel count i pool s = (Done pool, s))
  /\ (forall s a b rest,
        cursor s (a :: b :: rest) -> ok s = true ->
        be_value [a; b] <= MAX_CONSTANT_POOL_SIZE ->
        read_pool s
        = bind (read_constant_pool (Z.to_nat (be_value [a; b]))
                  (be_value [a; b]) 1
                  (replicate (Z.to_nat (be_value [a; b])) cp_zero))
            (fun pool => ret (be_value [a; b], pool))
            (add_alloc (be_value [a; b] * sizeof_cp_info) (advance 2 s))).
Proof.
  split; [|split; [|split]].
  - intros content cf s Hrun.
    pose proof (wp_done _ _ _ _ _
                  (read_class_file_body_result (initial_state content)) Hrun)
      as (_ & _ & Hwf & _).
    exact Hwf.
  - intros s e t h0 h1 h2 h3 l0 l1 l2 l3 rest Hc Hok Ht.
    split; [now apply (entry_wide s e t h0 h1 h2 h3 l0 l1 l2 l3 rest)|].
    intros fuel count i pool Hi.
    apply read_constant_pool_step; try assumption; [|discriminate].
    now apply (entry_wide s _ t h0 h1 h2 h3 l0 l1 l2 l3 rest).
  - intros. now apply read_constant_pool_exit.
  - intros s a b rest Hc Hok Hle. unfold read_pool. step_u2 Hc. step_pure.
    rewrite ok_advance, Hok. cbn [negb orb].
    destruct (Z.gtb_spec (be_value [a; b]) MAX_CONSTANT_POOL_SIZE); [lia|].
    now step_pure.
Qed.

Lemma C3_witness :
  (forall cf s,
     read_class_file file_with_long = (Done cf, s) ->
     pool_slot (constant_pool cf) 0 = cp_zero
     /\ forall j, 0 <= j ->
          is_wide_tag (tag (pool_slot (constant_pool cf) j)) = true ->
          pool_slot (constant_pool cf) (j + 1) = cp_zero)
  /\ option_map (fun cf => map tag (constant_pool cf))
       (returned (read_class_file file_with_long))
     = Some [0; CONSTANT_Long; 0; CONSTANT_Class]
  /\ read_constant_pool_entry cp_zero
       (initial_state [x05; x00; x00; x00; x00; x00; x00; x00; x01; x07])
     = (Done (2, mk_cp_info CONSTANT_Long (long_info 0 1)),
        advance 9
          (initial_state [x05; x00; x00; x00; x00; x00; x00; x00; x01; x07])).
Proof.
  split; [|split].
  - exact (proj1 C3_pool_slots_of_wide_entries file_with_long).
  - vm_compute. reflexivity.
  - apply (proj1 (proj2 C3_pool_slots_of_wide_entries)
             (initial_state [x05; x00; x00; x00; x00; x00; x00; x00; x01; x07])
             cp_zero x05 x00 x00 x00 x00 x00 x00 x00 x01 [x07]).
    + apply cursor_initial.
    + reflexivity.
    + reflexivity.
Defined.

(** ** Size ceilings *)

Lemma read_constant_pool_entry_failure (fuel : nat) (count i : Z)
    (pool : list cp_info) (s s1 : state) (r : Z * cp_info) :
  i < count ->
  read_constant_pool_entry (pool_slot pool i) s = (Done r, s1) ->
  ok s1 = false \/ fst r = 0 ->
  read_constant_pool (S fuel) count i pool s
  = (Aborted (msg_pool_entry_failed i),
     add_stderr (msg_pool_entry_failed i) s1).
Proof.
  intros Hi He Hbad. cbn [read_constant_pool].
  destruct (Z.ltb_spec i count); [|lia]. cbn [negb].
  rewrite (bind_done _ _ _ _ _ He). step_pure.
  destruct Hbad as [-> | ->]; [reflexivity|].
  now rewrite orb_true_r.
Qed.






(** ** A run that returns a [ClassFile] has met no short read *)

Lemma clean_lax (s : state) : clean s -> lax s.
Proof. now intros [_ H] _. Qed.

Lemma lax_clean (s : state) : lax s -> ok s = true -> clean s.
Proof. intros H Hok. split; [exact Hok|now apply H]. Qed.

Lemma lax_not_ok (s : state) : ok s = false -> lax s.
Proof. intros H Hok. congruence. Qed.

(** [safe_fread] either delivers and leaves [ok] and [stderr] alone,
    or returns 0. *)
Lemma safe_fread_frame (size count : Z) (s : state) :
  wp (safe_fread size count)
     (fun r s' => (fst r =? 0) = false ->
                  ok s' = ok s /\ stderr s' = stderr s /\ allocs s' = allocs s) s.
Proof.
  unfold safe_fread, wp, bind, fread. cbn [fst snd].
  match goal with |- context [if ?c then _ else _] => destruct c end;
    cbn; intros; try discriminate; auto.
Qed.

Lemma safe_fread_clean (size count : Z) (s : state) :
  clean s ->
  wp (safe_fread size count) (fun r s' => (fst r =? 0) = false -> clean s') s.
Proof.
  intros [Hok Herr]. eapply wp_mono; [apply safe_fread_frame|].
  cbv beta. intros r s' H Hr. destruct (H Hr) as (H1 & H2 & _).
  split; congruence.
Qed.

Lemma reader_lax (m : M Z) (size : Z) (f : list byte -> Z) (s : state) :
  m = (let* r := safe_fread size 1 in
       if fst r =? 0 then do* put_ok false in ret 0 else ret (f (snd r))) ->
  lax s -> wp m (fun _ s' => lax s') s.
Proof.
  intros -> Hs. apply wp_bind. eapply wp_mono; [apply safe_fread_frame|].
  cbv beta. intros r s' H. destruct (fst r =? 0).
  - wp_pure. apply wp_ret. now apply lax_not_ok.
  - apply wp_ret. destruct (H eq_refl) as (H1 & H2 & _).
    unfold lax in *. rewrite H1, H2. exact Hs.
Qed.

Lemma read_u1_lax (s : state) : lax s -> wp read_u1 (fun _ s' => lax s') s.
Proof. now apply (reader_lax read_u1 1 le_load). Qed.

Lemma read_u2_lax (s : state) : lax s -> wp read_u2 (fun _ s' => lax s') s.
Proof.
  now apply (reader_lax read_u2 2 (fun b => bswap16 (le_load b))).
Qed.

Lemma read_u4_lax (s : state) : lax s -> wp read_u4 (fun _ s' => lax s') s.
Proof.
  now apply (reader_lax read_u4 4 (fun b => bswap32 (le_load b))).
Qed.

Lemma clean_advance (n : Z) (s : state) : clean s -> clean (advance n s).
Proof. exact id. Qed.

Lemma clean_add_alloc (n : Z) (s : state) : clean s -> clean (add_alloc n s).
Proof. exact id. Qed.

Lemma lax_add_alloc (n : Z) (s : state) : lax s -> lax (add_alloc n s).
Proof. exact id. Qed.

(** One step of a proof that a section keeps the state [clean]: a
    reader is passed in a [lax] state, the test of [ok] after it either
    leaves with [NULL] or restores [clean]. *)
Ltac clean_step :=
  match goal with
  | |- wp (ret _) _ _ => apply wp_ret
  | |- wp (ERROR_AND_CLEANUP _) _ _ => apply wp_error
  | |- wp (bind read_u1 _) _ _ =>
      wp_call read_u1_lax; [solve [auto using clean_lax]|]
  | |- wp (bind read_u2 _) _ _ =>
      wp_call read_u2_lax; [solve [auto using clean_lax]|]
  | |- wp (bind read_u4 _) _ _ =>
      wp_call read_u4_lax; [solve [auto using clean_lax]|]
  | |- wp (bind get_ok _) _ _ => apply wp_get_ok
  | |- wp (bind (malloc _) _) _ _ => apply wp_malloc
  | |- wp (bind (calloc _ _) _) _ _ => apply wp_calloc
  | |- wp (bind (fseek_cur _) _) _ _ => apply wp_fseek_cur
  | |- wp (bind (put_ok _) _) _ _ => apply wp_put_ok
  | |- wp (bind (fprintf_stderr _) _) _ _ => apply wp_fprintf_stderr
  | H : lax ?s |- wp (if negb (ok ?s) then _ else _) _ _ =>
      let Hok := fresh "Hok" in
      destruct (ok s) eqn:Hok; cbn [negb orb];
      [apply (fun L => lax_clean s L Hok) in H|]
  | H : lax ?s |- wp (if negb (ok ?s) || _ then _ else _) _ _ =>
      let Hok := fresh "Hok" in
      destruct (ok s) eqn:Hok; cbn [negb orb];
      [apply (fun L => lax_clean s L Hok) in H|]
  | |- wp (if ?c then _ else _) _ _ => destruct c
  end.

Lemma skip_attributes_clean (e1 e2 : diagnostic) (n : nat) (s : state) :
  clean s -> wp (skip_attributes e1 e2 n) (fun _ s' => clean s') s.
Proof.
  revert s. induction n as [|n IH]; intros s Hs; cbn [skip_attributes];
    repeat clean_step; auto.
Qed.

Lemma skip_fields_clean (n : nat) (s : state) :
  clean s -> wp (skip_fields n) (fun _ s' => clean s') s.
Proof.
  revert s. induction n as [|n IH]; intros s Hs; cbn [skip_fields];
    repeat clean_step; auto.
  wp_call skip_attributes_clean; auto.
Qed.

Lemma after_switch_lax (e : cp_info) (s : state) :
  lax s -> wp (after_switch e) (fun _ s' => lax s') s.
Proof.
  intros Hs. unfold after_switch. wp_pure.
  destruct (ok s); cbn [negb]; apply wp_ret; exact Hs.
Qed.

Lemma utf8_case_lax (e : cp_info) (length : Z) (s : state) :
  lax s -> wp (utf8_case e length) (fun _ s' => lax s') s.
Proof.
  intros Hs. unfold utf8_case. destruct (length >? MAX_STRING_LENGTH).
  - wp_pure. apply wp_ret. now apply lax_not_ok.
  - wp_pure. apply wp_bind.
    eapply wp_mono; [apply safe_fread_frame|]. cbv beta. intros r s1 Hr.
    destruct (fst r =? 0).
    + wp_pure. apply wp_ret. now apply lax_not_ok.
    + apply after_switch_lax. destruct (Hr eq_refl) as (H1 & H2 & _).
      unfold lax in *. cbn [ok stderr add_alloc] in H1, H2.
      rewrite H1, H2. assumption.
Qed.

Lemma read_constant_pool_entry_lax (e : cp_info) (s : state) :
  lax s -> wp (read_constant_pool_entry e) (fun _ s' => lax s') s.
Proof.
  intros Hs. unfold read_constant_pool_entry. clean_step. clean_step.
  destruct (negb (ok s')); [now apply wp_ret|].
  repeat match goal with
         | |- wp (utf8_case _ _) _ _ => apply utf8_case_lax; assumption
         | |- wp (after_switch _) _ _ => apply after_switch_lax; assumption
         | |- wp (bind read_u2 _) _ _ => clean_step
         | |- wp (bind read_u4 _) _ _ => clean_step
         | |- wp (bind get_ok _) _ _ => wp_pure
         | |- wp (ret _) _ _ => apply wp_ret; assumption
         | |- wp (if ?c then _ else _) _ _ => destruct c
         end.
Qed.

Lemma read_constant_pool_clean (fuel : nat) (count i : Z)
    (pool : list cp_info) (s : state) :
  clean s ->
  wp (read_constant_pool fuel count i pool) (fun _ s' => clean s') s.
Proof.
  revert i pool s. induction fuel as [|fuel IH]; intros i pool s Hs;
    cbn [read_constant_pool]; destruct (i <? count); cbn [negb];
    try (now apply wp_ret).
  wp_call read_constant_pool_entry_lax; [now apply clean_lax|].
  repeat clean_step. now apply IH.
Qed.

Lemma skip_code_tail_clean (s : state) :
  clean s -> wp skip_code_tail (fun _ s' => clean s') s.
Proof.
  intros Hs. unfold skip_code_tail. repeat clean_step.
  all: apply skip_attributes_clean; assumption.
Qed.

Lemma read_code_attribute_clean (m : method_info) (s : state) :
  clean s -> wp (read_code_attribute m) (fun _ s' => clean s') s.
Proof.
  intros Hs. unfold read_code_attribute. do 6 clean_step; [|apply wp_error].
  clean_step.
  wp_call safe_fread_clean; [exact H1|].
  destruct (fst a2 =? 0); [apply wp_error|].
  wp_call skip_code_tail_clean; [now apply H2|].
  now apply wp_ret.
Qed.

Lemma read_method_attribute_clean (count : Z) (pool : list cp_info)
    (m : method_info) (s : state) :
  clean s -> wp (read_method_attribute count pool m) (fun _ s' => clean s') s.
Proof.
  intros Hs. unfold read_method_attribute, dispatch_method_attribute.
  do 4 clean_step; [|apply wp_error].
  destruct (a <? count); [|apply wp_error].
  destruct (is_Code_name _).
  - now apply read_code_attribute_clean.
  - repeat clean_step; assumption.
Qed.

Lemma read_method_attributes_clean (count : Z) (pool : list cp_info)
    (n : nat) (m : method_info) (s : state) :
  clean s ->
  wp (read_method_attributes count pool n m) (fun _ s' => clean s') s.
Proof.
  revert m s. induction n as [|n IH]; intros m s Hs;
    cbn [read_method_attributes].
  - now apply wp_ret.
  - wp_call read_method_attribute_clean; [assumption|]. now apply IH.
Qed.

Lemma read_method_clean (count : Z) (pool : list cp_info) (s : state) :
  clean s -> wp (read_method count pool) (fun _ s' => clean s') s.
Proof.
  intros Hs. unfold read_method. do 6 clean_step; [|apply wp_error].
  now apply read_method_attributes_clean.
Qed.

Lemma read_methods_clean (count : Z) (pool : list cp_info) (n : nat)
    (s : state) :
  clean s -> wp (read_methods count pool n) (fun _ s' => clean s') s.
Proof.
  revert s. induction n as [|n IH]; intros s Hs; cbn [read_methods].
  - now apply wp_ret.
  - wp_call read_method_clean; [assumption|].
    wp_call IH; [assumption|]. now apply wp_ret.
Qed.

Lemma read_magic_clean (s : state) :
  clean s -> wp read_magic (fun _ s' => clean s') s.
Proof. intros Hs. unfold read_magic. repeat clean_step; assumption. Qed.

Lemma read_version_clean (s : state) :
  clean s -> wp read_version (fun _ s' => clean s') s.
Proof. intros Hs. unfold read_version. repeat clean_step; assumption. Qed.

Lemma read_pool_clean (s : state) :
  clean s -> wp read_pool (fun _ s' => clean s') s.
Proof.
  intros Hs. unfold read_pool. repeat clean_step.
  wp_call read_constant_pool_clean; [assumption|]. now apply wp_ret.
Qed.

Lemma read_class_header_clean (s : state) :
  clean s -> wp read_class_header (fun _ s' => clean s') s.
Proof.
  intros Hs. unfold read_class_header. repeat clean_step; assumption.
Qed.

Lemma skip_interfaces_clean (s : state) :
  clean s -> wp skip_interfaces (fun _ s' => clean s') s.
Proof.
  intros Hs. unfold skip_interfaces. repeat clean_step; assumption.
Qed.

Lemma read_fields_clean (s : state) :
  clean s -> wp read_fields (fun _ s' => clean s') s.
Proof.
  intros Hs. unfold read_fields. repeat clean_step.
  wp_call skip_fields_clean; [assumption|]. now apply wp_ret.
Qed.

Lemma read_method_table_clean (count : Z) (pool : list cp_info) (s : state) :
  clean s -> wp (read_method_table count pool) (fun _ s' => clean s') s.
Proof.
  intros Hs. unfold read_method_table. repeat clean_step.
  wp_call read_methods_clean; [assumption|]. now apply wp_ret.
Qed.

Lemma read_class_file_body_clean (s : state) :
  clean s -> wp read_class_file_body (fun _ s' => clean s') s.
Proof.
  intros Hs. unfold read_class_file_body, read_after_version. clean_step.
  wp_call read_magic_clean; [assumption|].
  wp_call read_version_clean; [assumption|].
  wp_call read_pool_clean; [assumption|].
  wp_call read_class_header_clean; [assumption|].
  wp_call skip_interfaces_clean; [assumption|].
  wp_call read_fields_clean; [assumption|].
  wp_call read_method_table_clean; [assumption|].
  now apply wp_ret.
Qed.

Lemma clean_initial (content : list byte) : clean (initial_state content).
Proof. now split. Qed.

Lemma read_u2_short (s : state) (bs : list byte) :
  cursor s bs -> (List.length bs < 2)%nat ->
  read_u2 s = (Done 0, short_read (Z.of_nat (List.length bs)) s).
Proof.
  intros Hc Hlen. unfold read_u2.
  rewrite (bind_done _ _ _ _ _
             (safe_fread_short s 2 1 bs Hc ltac:(lia) ltac:(lia))).
  reflexivity.
Qed.

Lemma read_u4_short (s : state) (bs : list byte) :
  cursor s bs -> (List.length bs < 4)%nat ->
  read_u4 s = (Done 0, short_read (Z.of_nat (List.length bs)) s).
Proof.
  intros Hc Hlen. unfold read_u4.
  rewrite (bind_done _ _ _ _ _
             (safe_fread_short s 4 1 bs Hc ltac:(lia) ltac:(lia))).
  reflexivity.
Qed.

Lemma read_u1_short (s : state) :
  cursor s [] -> read_u1 s = (Done 0, short_read 0 s).
Proof.
  intros Hc. unfold read_u1.
  rewrite (bind_done _ _ _ _ _
             (safe_fread_short s 1 1 [] Hc ltac:(lia) ltac:(cbn; lia))).
  reflexivity.
Qed.

(** Truncation that cuts a region the decoder reads is always
    detected.  A read that finds fewer bytes than it needs fails:
    [safe_fread] returns 0 with "Unexpected end of file." on [stderr],
    and the integer readers then clear [ok].  No run with such a read
    returns a [ClassFile]: when [read_class_file] returns one, [stderr]
    is empty and [ok] is still set. *)
Theorem short_read_is_fatal :
  (forall s bs size count,
     cursor s bs -> 0 < size -> Z.of_nat (List.length bs) < size * count ->
     safe_fread size count s
     = (Done (0, bs),
        add_stderr msg_unexpected_eof (advance (Z.of_nat (List.length bs)) s)))
  /\ (forall s bs,
        cursor s bs ->
        ((List.length bs < 1)%nat -> ok (snd (read_u1 s)) = false)
        /\ ((List.length bs < 2)%nat -> ok (snd (read_u2 s)) = false)
        /\ ((List.length bs < 4)%nat -> ok (snd (read_u4 s)) = false))
  /\ (forall content cf s,
        read_class_file content = (Done cf, s) ->
        stderr s = [] /\ ok s = true)
  /\ (forall content,
        In msg_unexpected_eof (stderr (snd (read_class_file content))) ->
        exists e, fst (read_class_file content) = Aborted e).
Proof.
  split; [|split; [|split]].
  - intros. now apply safe_fread_short.
  - intros s bs Hc. repeat split; intros Hlen.
    + destruct bs; [|cbn in Hlen; lia]. now rewrite read_u1_short.
    + now rewrite (read_u2_short s bs).
    + now rewrite (read_u4_short s bs).
  - intros content cf s Hrun.
    destruct (wp_done _ _ _ _ _
                (read_class_file_body_clean _ (clean_initial content)) Hrun).
    auto.
  - intros content Hin.
    pose proof (read_class_file_body_clean _ (clean_initial content)) as Hw.
    unfold wp in Hw. unfold read_class_file in *.
    destruct (read_class_file_body (initial_state content)) as [[cf|e] s];
      cbn [fst snd] in *; [|eauto].
    destruct Hw as [_ Hw]. rewrite Hw in Hin. destruct Hin.
Qed.

Example short_read_examples :
  safe_fread 1 4 (initial_state [x2a; x2b])
  = (Done (0, [x2a; x2b]),
     add_stderr msg_unexpected_eof
       (advance (Z.of_nat (List.length [x2a; x2b])) (initial_state [x2a; x2b])))
  /\ ok (snd (read_u4 (initial_state [xca; xfe; xba]))) = false
  /\ exists e,
       fst (read_class_file [xca; xfe; xba; xbe; x00; x00; x00]) = Aborted e.
Proof.
  split; [|split].
  - apply (proj1 short_read_is_fatal (initial_state [x2a; x2b]) [x2a; x2b]).
    + apply cursor_initial.
    + lia.
    + cbn. lia.
  - apply (proj2 (proj2 (proj1 (proj2 short_read_is_fatal)
                           (initial_state [xca; xfe; xba]) [xca; xfe; xba]
                           (cursor_initial _)))).
    cbn. lia.
  - apply (proj2 (proj2 (proj2 short_read_is_fatal))).
    vm_compute. tauto.
Qed.

(** C2. What the code does on a file cut inside a region that is
    skipped.  The file [file_cut_in_attribute] ends where the sixteen
    payload bytes of its last attribute should begin; [fseek] moves the
    position beyond the end of the file without failing, no read
    follows, and [read_class_file] returns a [ClassFile], the same as for
    the complete file, instead of [NULL]. *)
Theorem C2_file_cut_in_skipped_payload_is_accepted :
  exists cf,
    fst (read_class_file file_cut_in_attribute) = Done cf
    /\ fst (read_class_file (file_cut_in_attribute ++ attribute_payload))
       = Done cf
    /\ Z.of_nat (List.length file_cut_in_attribute)
       < fpos (snd (read_class_file file_cut_in_attribute))
    /\ ~ exists e, fst (read_class_file file_cut_in_attribute) = Aborted e.
Proof.
  eexists. split; [vm_compute; reflexivity|].
  split; [vm_compute; reflexivity|].
  split; [vm_compute; reflexivity|].
  intros [e He]. vm_compute in He. discriminate.
Qed.

(** ** The rest of a run seen from an iteration of the attribute loop *)

Lemma bind_assoc {A B C} (m : M A) (f : A -> M B) (g : B -> M C) s :
  bind (bind m f) g s = bind m (fun a => bind (f a) g) s.
Proof. unfold bind. now destruct (m s) as [[a|e] s']. Qed.

Lemma bind_ret_r {A} (m : M A) s : bind m ret s = m s.
Proof. unfold bind, ret. now destruct (m s) as [[a|e] s']. Qed.

Lemma bind_ext {A B} (m : M A) (f g : A -> M B) s :
  (forall a s', f a s' = g a s') -> bind m f s = bind m g s.
Proof. intros H. unfold bind. now destruct (m s) as [[a|e] s']. Qed.

Lemma read_class_file_body_split (s : state) :
  read_class_file_body s
  = bind read_class_head
      (fun h =>
         let* mt := read_method_table (h_constant_pool_count h)
                      (h_constant_pool h) in
         ret (with_methods h (fst mt) (snd mt))) s.
Proof.
  unfold read_class_file_body, read_after_version, read_class_head.
  repeat (rewrite bind_assoc; apply bind_ext; intros ? ?).
  reflexivity.
Qed.

Lemma read_class_head_clean (s : state) :
  clean s -> wp read_class_head (fun _ s' => clean s') s.
Proof.
  intros Hs. unfold read_class_head. clean_step.
  wp_call read_magic_clean; [assumption|].
  wp_call read_version_clean; [assumption|].
  wp_call read_pool_clean; [assumption|].
  wp_call read_class_header_clean; [assumption|].
  wp_call skip_interfaces_clean; [assumption|].
  wp_call read_fields_clean; [assumption|].
  now apply wp_ret.
Qed.

Lemma enters_method_loop_clean content h n s_loop :
  enters_method_loop content h n s_loop -> clean s_loop.
Proof.
  intros (s_head & n0 & n1 & rest & Hrun & _ & _ & _ & ->).
  exact (wp_done _ _ _ _ _
           (read_class_head_clean _ (clean_initial content)) Hrun).
Qed.

Lemma enters_method_loop_run content h n s_loop :
  enters_method_loop content h n s_loop ->
  read_class_file content
  = bind (read_methods (h_constant_pool_count h) (h_constant_pool h)
            (Z.to_nat n))
      (fun ms => ret (with_methods h n ms)) s_loop.
Proof.
  intros (s_head & n0 & n1 & rest & Hrun & Hc & -> & Hn & ->).
  pose proof (wp_done _ _ _ _ _
                (read_class_head_clean _ (clean_initial content)) Hrun)
    as [Hok _].
  unfold read_class_file. rewrite read_class_file_body_split.
  rewrite (bind_done _ _ _ _ _ Hrun). unfold read_method_table.
  rewrite bind_assoc. step_u2 Hc. rewrite bind_assoc. step_pure.
  rewrite ok_advance, Hok. cbn [negb].
  destruct (Z.gtb_spec (be_value [n0; n1]) 1000); [lia|].
  rewrite bind_assoc. step_pure. rewrite bind_assoc.
  apply bind_ext. intros ms s'. reflexivity.
Qed.

Lemma at_method_clean count pool s_loop total done left s :
  clean s_loop -> at_method count pool s_loop total done left s -> clean s.
Proof.
  intros Hs H. induction H as [|done left s s' m _ IH Hrun]; [exact Hs|].
  exact (wp_done _ _ _ _ _ (read_method_clean count pool s IH) Hrun).
Qed.

Lemma at_method_run count pool s_loop total done left s :
  at_method count pool s_loop total done left s ->
  forall (B : Type) (f : list method_info -> M B),
    bind (read_methods count pool total) f s_loop
    = bind (read_methods count pool left) (fun ms => f (done ++ ms)) s.
Proof.
  intros H. induction H as [|done left s s' m _ IH Hrun]; intros B f.
  - reflexivity.
  - rewrite IH. cbn [read_methods]. rewrite bind_assoc.
    rewrite (bind_done _ _ _ _ _ Hrun). rewrite bind_assoc.
    apply bind_ext. intros ms s''. rewrite bind_ret.
    now rewrite <- app_assoc.
Qed.

Lemma at_attribute_clean count pool s_method m left s :
  clean s_method -> at_attribute count pool s_method m left s -> clean s.
Proof.
  intros Hs H. induction H as [|m m' left s s' _ IH Hrun]; [exact Hs|].
  exact (wp_done _ _ _ _ _ (read_method_attribute_clean count pool m s IH) Hrun).
Qed.

Lemma at_attribute_run count pool s_method m left s :
  ok s_method = true ->
  at_attribute count pool s_method m left s ->
  read_method count pool s_method
  = read_method_attributes count pool left m s.
Proof.
  intros Hok H. induction H as [a0 a1 n0 n1 d0 d1 c0 c1 rest Hc
                               |m m' left s s' _ IH Hrun].
  - unfold read_method. step_u2 Hc. step_u2 Hc. step_u2 Hc. step_u2 Hc.
    step_pure. rewrite ok_advance, Hok. reflexivity.
  - rewrite IH. cbn [read_method_attributes].
    now rewrite (bind_done _ _ _ _ _ Hrun).
Qed.

(** The run on [content] is what is left of it at any iteration of
    the attribute loop that it comes to. *)
Lemma reaches_attribute_run content h n done k m j s :
  reaches_attribute content h n done k m j s ->
  read_class_file content = finish_from_attribute h n done k m j s.
Proof.
  intros (s_loop & s_method & Hloop & Hm & Ha).
  pose proof (enters_method_loop_clean _ _ _ _ Hloop) as Hcl.
  pose proof (at_method_clean _ _ _ _ _ _ _ Hcl Hm) as [Hok _].
  rewrite (enters_method_loop_run _ _ _ _ Hloop).
  rewrite (at_method_run _ _ _ _ _ _ _ Hm). cbn [read_methods].
  rewrite bind_assoc. unfold bind at 1.
  rewrite (at_attribute_run _ _ _ _ _ _ Hok Ha).
  unfold finish_from_attribute. unfold bind at 3.
  destruct (read_method_attributes _ _ j m s) as [[m'|e] s']; [|reflexivity].
  rewrite bind_assoc. apply bind_ext. intros ms s''. now rewrite bind_ret.
Qed.

Lemma reaches_attribute_clean content h n done k m j s :
  reaches_attribute content h n done k m j s -> clean s.
Proof.
  intros (s_loop & s_method & Hloop & Hm & Ha).
  eapply at_attribute_clean; [|exact Ha].
  eapply at_method_clean; [|exact Hm].
  eapply enters_method_loop_clean; exact Hloop.
Qed.

Lemma reaches_next_attribute content h n done k m m' j s s' :
  reaches_attribute content h n done k m (S j) s ->
  read_method_attribute (h_constant_pool_count h) (h_constant_pool h) m s
  = (Done m', s') ->
  reaches_attribute content h n done k m' j s'.
Proof.
  intros (s_loop & s_method & Hloop & Hm & Ha) Hrun.
  exists s_loop, s_method. repeat split; try assumption.
  eapply at_next_attribute; eassumption.
Qed.

(** A given file enters the method loop: by evaluation. *)
Ltac enters_loop :=
  eexists _, _, _, _;
  split; [vm_compute; reflexivity|];
  split; [split; [vm_compute; discriminate|vm_compute; reflexivity]|];
  split; [vm_compute; reflexivity|];
  split; [vm_compute; discriminate|reflexivity].

(** ** One method attribute *)

Lemma read_method_attribute_header (count : Z) (pool : list cp_info)
    (m : method_info) (s : state) (i0 i1 l0 l1 l2 l3 : byte)
    (rest : list byte) :
  cursor s (i0 :: i1 :: l0 :: l1 :: l2 :: l3 :: rest) -> ok s = true ->
  read_method_attribute count pool m s
  = dispatch_method_attribute count pool m (be_value [i0; i1])
      (be_value [l0; l1; l2; l3]) (advance 6 s).
Proof.
  intros Hc Hok. unfold read_method_attribute. step_u2 Hc. step_u4 Hc.
  step_pure. cbn [ok advance set_fpos]. rewrite Hok. reflexivity.
Qed.

Lemma read_method_attribute_out_of_range (count : Z) (pool : list cp_info)
    (m : method_info) (s : state) (i0 i1 l0 l1 l2 l3 : byte)
    (rest : list byte) :
  cursor s (i0 :: i1 :: l0 :: l1 :: l2 :: l3 :: rest) -> ok s = true ->
  count <= be_value [i0; i1] ->
  read_method_attribute count pool m s
  = (Aborted msg_attribute_name_index_out_of_range,
     add_stderr msg_attribute_name_index_out_of_range (advance 6 s)).
Proof.
  intros Hc Hok Hi.
  rewrite (read_method_attribute_header _ _ _ _ _ _ _ _ _ _ _ Hc Hok).
  unfold dispatch_method_attribute.
  destruct (Z.ltb_spec (be_value [i0; i1]) count); [lia|reflexivity].
Qed.

Lemma read_method_attribute_skipped (count : Z) (pool : list cp_info)
    (m : method_info) (s : state) (i0 i1 l0 l1 l2 l3 : byte)
    (rest : list byte) :
  cursor s (i0 :: i1 :: l0 :: l1 :: l2 :: l3 :: rest) -> ok s = true ->
  be_value [i0; i1] < count ->
  is_Code_name (pool_slot pool (be_value [i0; i1])) = false ->
  read_method_attribute count pool m s
  = (Done m, advance (6 + be_value [l0; l1; l2; l3]) s).
Proof.
  intros Hc Hok Hi Hn.
  rewrite (read_method_attribute_header _ _ _ _ _ _ _ _ _ _ _ Hc Hok).
  unfold dispatch_method_attribute.
  destruct (Z.ltb_spec (be_value [i0; i1]) count); [|lia].
  rewrite Hn. step_pure. rewrite advance_advance. reflexivity.
Qed.

Lemma read_code_attribute_layout (m : method_info) (s : state)
    (s0 s1 m0 m1 c0 c1 c2 c3 : byte) (code tail : list byte) :
  cursor s (s0 :: s1 :: m0 :: m1 :: c0 :: c1 :: c2 :: c3 :: code ++ tail) ->
  ok s = true ->
  be_value [c0; c1; c2; c3] = Z.of_nat (List.length code) ->
  read_code_attribute m s
  = bind skip_code_tail
      (fun _ => ret (set_code_attribute m
                       (mk_code_attribute (be_value [s0; s1])
                          (be_value [m0; m1]) (be_value [c0; c1; c2; c3])
                          code)))
      (advance (be_value [c0; c1; c2; c3])
         (add_alloc (be_value [c0; c1; c2; c3])
            (advance 8 (add_alloc sizeof_code_attribute s)))).
Proof.
  intros Hc Hok Hlen. unfold read_code_attribute. step_pure.
  assert (Hc' : cursor (add_alloc (1 * sizeof_code_attribute) s)
                  (s0 :: s1 :: m0 :: m1 :: c0 :: c1 :: c2 :: c3 :: code ++ tail))
    by exact Hc.
  step_u2 Hc'. step_u2 Hc'. step_u4 Hc'. step_pure.
  cbn [ok advance set_fpos add_alloc]. rewrite Hok. cbn [negb]. step_pure.
  match goal with
  | |- context [bind (safe_fread 1 ?n) ?f ?st] =>
      assert (Hc1 : cursor st (code ++ tail)) by exact Hc';
      rewrite (bind_done _ _ _ _ _
                 (safe_fread_exact st 1 n code tail Hc1 ltac:(lia)
                    ltac:(lia)))
  end.
  cbn [fst snd Z.eqb]. rewrite <- Hlen. reflexivity.
Qed.

Lemma be_value_4_nonneg (a b c d : byte) : 0 <= be_value [a; b; c; d].
Proof. apply be_value_4_range. Qed.

Lemma attributes_size_nonneg (n : nat) (bs : list byte) :
  0 <= attributes_size n bs.
Proof.
  revert bs. induction n as [|n IH]; intros bs; cbn [attributes_size]; [lia|].
  destruct bs as [|? [|? [|l0 [|l1 [|l2 [|l3 tl]]]]]]; try lia.
  pose proof (be_value_4_nonneg l0 l1 l2 l3).
  specialize (IH (drop (Z.to_nat (be_value [l0; l1; l2; l3])) tl)). lia.
Qed.

(** On attributes laid out as [attributes_end] describes, the skipping
    loop ends in front of the bytes that follow them. *)
Lemma skip_attributes_layout (e1 e2 : diagnostic) (n : nat) (s : state)
    (bs rest : list byte) :
  cursor s bs -> ok s = true -> attributes_end n bs = Some rest ->
  skip_attributes e1 e2 n s = (Done tt, advance (attributes_size n bs) s)
  /\ cursor (advance (attributes_size n bs) s) rest.
Proof.
  revert s bs. induction n as [|n IH]; intros s bs Hc Hok Hend;
    cbn [attributes_end attributes_size skip_attributes] in *.
  - injection Hend as <-. rewrite advance_0. now split.
  - destruct bs as [|i0 [|i1 [|l0 [|l1 [|l2 [|l3 tl]]]]]]; try discriminate.
    pose proof (be_value_4_nonneg l0 l1 l2 l3) as Hlen.
    step_u2 Hc. step_u4 Hc. step_pure.
    rewrite ok_advance, Hok. cbn [negb]. step_pure. cbn [negb Z.eqb].
    apply (cursor_seek _ _ (be_value [l0; l1; l2; l3])) in Hc; [|exact Hlen].
    rewrite advance_advance in Hc |- *.
    destruct (IH _ _ Hc Hok Hend) as [Hrun Hc2].
    rewrite Hrun, advance_advance in *.
    replace (2 + 4 + be_value [l0; l1; l2; l3]
             + attributes_size n (drop (Z.to_nat (be_value [l0; l1; l2; l3])) tl))
      with (6 + be_value [l0; l1; l2; l3]
            + attributes_size n (drop (Z.to_nat (be_value [l0; l1; l2; l3])) tl))
      in * by lia.
    now split.
Qed.

Lemma skip_code_tail_layout (s : state) (bs rest : list byte) :
  cursor s bs -> ok s = true -> code_tail_end bs = Some rest ->
  skip_code_tail s = (Done tt, advance (code_tail_size bs) s)
  /\ cursor (advance (code_tail_size bs) s) rest.
Proof.
  intros Hc Hok Hend. unfold code_tail_end, code_tail_size, skip_code_tail in *.
  destruct bs as [|e0 [|e1 tl]]; try discriminate.
  pose proof (be_value_2_range e0 e1) as He.
  step_u2 Hc. step_pure. rewrite ok_advance, Hok.
  cbn [negb]. step_pure. cbn [negb Z.eqb].
  apply (cursor_seek _ _ (be_value [e0; e1] * 8)) in Hc; [|lia].
  rewrite advance_advance in Hc |- *.
  destruct (drop (Z.to_nat (be_value [e0; e1] * 8)) tl) as [|a0 [|a1 tl']];
    try discriminate.
  step_u2 Hc. step_pure. rewrite ok_advance, Hok. cbn [negb].
  destruct (skip_attributes_layout msg_code_sub_attribute_unreadable
              msg_seek_code_sub_attribute _ _ _ _ Hc Hok Hend) as [Hrun Hc2].
  rewrite Hrun, advance_advance in *. now split.
Qed.

Lemma is_Code_name_Code : is_Code_name (utf8_entry Code_text) = true.
Proof. reflexivity. Qed.

(** [strcmp] stops at the first NUL of the buffer: a string entry
    whose content goes on after "Code" and a NUL byte passes the test
    as well. *)
Example is_Code_name_embedded_nul :
  is_Code_name (utf8_entry (Code_text ++ [x00; x58])) = true.
Proof. reflexivity. Qed.

Lemma read_method_attributes_skipped (count : Z) (pool : list cp_info)
    (n : nat) (m : method_info) (s : state) (bs : list byte) :
  cursor s bs -> ok s = true ->
  attributes_skipped count pool n bs = true ->
  read_method_attributes count pool n m s
  = (Done m, advance (attributes_size n bs) s).
Proof.
  revert s bs. induction n as [|n IH]; intros s bs Hc Hok Hsk;
    cbn [attributes_skipped attributes_size read_method_attributes] in *.
  - now rewrite advance_0.
  - destruct bs as [|i0 [|i1 [|l0 [|l1 [|l2 [|l3 tl]]]]]]; try discriminate.
    apply andb_prop in Hsk. destruct Hsk as [Hsk Hrest].
    apply andb_prop in Hsk. destruct Hsk as [Hi Hn].
    apply Z.ltb_lt in Hi. apply negb_true_iff in Hn.
    pose proof (be_value_4_nonneg l0 l1 l2 l3) as Hlen.
    rewrite (bind_done _ _ _ _ _
               (read_method_attribute_skipped count pool m s
                  i0 i1 l0 l1 l2 l3 tl Hc Hok Hi Hn)).
    apply (cursor_tail s [i0; i1; l0; l1; l2; l3] tl 6) in Hc; [|reflexivity].
    apply (cursor_seek _ _ (be_value [l0; l1; l2; l3])) in Hc; [|lia].
    rewrite advance_advance in Hc.
    rewrite (IH _ _ Hc Hok Hrest), advance_advance. reflexivity.
Qed.

(** Where the record of the current method ends up when the attributes
    that are left are all skipped. *)
Lemma finish_from_attribute_record (h : class_head) (n : Z)
    (done : list method_info) (k : nat) (m : method_info) (j : nat)
    (s : state) (bs : list byte) (cf : ClassFile) (sf : state) :
  cursor s bs -> ok s = true ->
  attributes_skipped (h_constant_pool_count h) (h_constant_pool h) j bs
  = true ->
  finish_from_attribute h n done k m j s = (Done cf, sf) ->
  methods cf !! List.length done = Some m.
Proof.
  intros Hc Hok Hsk. unfold finish_from_attribute.
  rewrite (bind_done _ _ _ _ _
             (read_method_attributes_skipped _ _ j m s bs Hc Hok Hsk)).
  unfold bind.
  destruct (read_methods _ _ k _) as [[ms|e] s']; [|discriminate].
  unfold ret. intros H. injection H as <- _. cbn [methods with_methods].
  now apply list_lookup_middle.
Qed.

Lemma is_Code_name_Code_nul (tail : list byte) :
  is_Code_name (utf8_entry (Code_text ++ x00 :: tail)) = true.
Proof. reflexivity. Qed.

(** C1. One iteration of the attribute loop of a method, the name
    index being below the pool count.  (1) When the slot it names passes
    the test [tag == CONSTANT_Utf8 && strcmp(bytes, "Code") == 0] and
    the attribute bytes hold [max_stack], [max_locals], [code_length],
    that many instruction bytes and a well laid-out tail, the iteration
    returns a record whose [code_attribute] is a block with exactly
    those three fields and those bytes, the four header items being
    those of the record it was entered with; a block that this record
    held is replaced.  The stream then stands after the tail.  (2) When
    the slot fails the test, the record is returned as it was and the
    position has moved by the 6 header bytes plus the declared length.
    In both cases, when the iteration is one that the run of
    [read_class_file] on a file comes to, the run goes on with that
    record, and when the attributes that follow in the method are all
    skipped, every [ClassFile] that the run returns holds that record at
    the index of the method.  (3) The string entry "Code" passes the
    test, and so does an entry whose content goes on after "Code" and a
    NUL byte. *)
Theorem C1_code_attribute_retained_others_skipped
    (count : Z) (pool : list cp_info) (m : method_info) (s : state)
    (i0 i1 l0 l1 l2 l3 : byte) :
  ok s = true ->
  be_value [i0; i1] < count ->
  (forall s0 s1 m0 m1 c0 c1 c2 c3 code tail rest,
     cursor s (i0 :: i1 :: l0 :: l1 :: l2 :: l3
               :: s0 :: s1 :: m0 :: m1 :: c0 :: c1 :: c2 :: c3
               :: code ++ tail) ->
     is_Code_name (pool_slot pool (be_value [i0; i1])) = true ->
     be_value [c0; c1; c2; c3] = Z.of_nat (List.length code) ->
     code_tail_end tail = Some rest ->
     let block :=
       mk_code_attribute (be_value [s0; s1]) (be_value [m0; m1])
         (be_value [c0; c1; c2; c3]) code in
     let s' :=
       advance (code_tail_size tail)
         (advance (be_value [c0; c1; c2; c3])
            (add_alloc (be_value [c0; c1; c2; c3])
               (advance 8 (add_alloc sizeof_code_attribute (advance 6 s))))) in
     exists m',
       read_method_attribute count pool m s = (Done m', s')
       /\ m_code_attribute m' = Some block
       /\ same_method_header m m'
       /\ cursor s' rest
       /\ forall content h n done k j,
            count = h_constant_pool_count h ->
            pool = h_constant_pool h ->
            reaches_attribute content h n done k m (S j) s ->
            read_class_file content = finish_from_attribute h n done k m' j s'
            /\ (attributes_skipped count pool j rest = true ->
                forall cf sf,
                  read_class_file content = (Done cf, sf) ->
                  methods cf !! List.length done = Some m'))
  /\ (forall rest,
        cursor s (i0 :: i1 :: l0 :: l1 :: l2 :: l3 :: rest) ->
        is_Code_name (pool_slot pool (be_value [i0; i1])) = false ->
        let s' := advance (6 + be_value [l0; l1; l2; l3]) s in
        let after := drop (Z.to_nat (be_value [l0; l1; l2; l3])) rest in
        read_method_attribute count pool m s = (Done m, s')
        /\ cursor s' after
        /\ forall content h n done k j,
             count = h_constant_pool_count h ->
             pool = h_constant_pool h ->
             reaches_attribute content h n done k m (S j) s ->
             read_class_file content = finish_from_attribute h n done k m j s'
             /\ (attributes_skipped count pool j after = true ->
                 forall cf sf,
                   read_class_file content = (Done cf, sf) ->
                   methods cf !! List.length done = Some m))
  /\ is_Code_name (utf8_entry Code_text) = true
  /\ forall tail, is_Code_name (utf8_entry (Code_text ++ x00 :: tail)) = true.
Proof.
  intros Hok Hi. split; [|split; [|split]].
  - intros s0 s1 m0 m1 c0 c1 c2 c3 code tail rest Hc Hname Hlen Hend
      block s'.
    set (s_code := advance (be_value [c0; c1; c2; c3])
                     (add_alloc (be_value [c0; c1; c2; c3])
                        (advance 8
                           (add_alloc sizeof_code_attribute (advance 6 s)))))
      in *.
    assert (Hc6 : cursor (advance 6 s)
                    (s0 :: s1 :: m0 :: m1 :: c0 :: c1 :: c2 :: c3
                     :: code ++ tail))
      by exact (cursor_tail s [i0; i1; l0; l1; l2; l3] _ 6 Hc eq_refl).
    assert (Htail : cursor s_code tail).
    { subst s_code. rewrite Hlen.
      apply (cursor_advance _ code tail).
      exact (cursor_tail _ [s0; s1; m0; m1; c0; c1; c2; c3] _ 8 Hc6 eq_refl). }
    destruct (skip_code_tail_layout s_code tail rest Htail Hok Hend)
      as [Hskip Hc2].
    assert (Hstep : read_method_attribute count pool m s
                    = (Done (set_code_attribute m block), s')).
    { rewrite (read_method_attribute_header _ _ _ _ _ _ _ _ _ _ _ Hc Hok).
      unfold dispatch_method_attribute.
      destruct (Z.ltb_spec (be_value [i0; i1]) count); [|lia].
      rewrite Hname.
      rewrite (read_code_attribute_layout m (advance 6 s) s0 s1 m0 m1
                 c0 c1 c2 c3 code tail Hc6 Hok Hlen).
      fold s_code. now rewrite (bind_done _ _ _ _ _ Hskip). }
    exists (set_code_attribute m block).
    split; [exact Hstep|]. split; [reflexivity|].
    split; [now repeat split|]. split; [exact Hc2|].
    intros content h n done k j -> -> Hreach.
    pose proof (reaches_next_attribute _ _ _ _ _ _ _ _ _ _ Hreach Hstep)
      as Hnext.
    pose proof (reaches_attribute_run _ _ _ _ _ _ _ _ Hnext) as Hrun.
    split; [exact Hrun|].
    intros Hsk cf sf Hdone. rewrite Hrun in Hdone.
    exact (finish_from_attribute_record _ _ _ _ _ _ _ _ _ _ Hc2 Hok Hsk Hdone).
  - intros rest Hc Hn s' after.
    pose proof (read_method_attribute_skipped count pool m s
                  i0 i1 l0 l1 l2 l3 rest Hc Hok Hi Hn) as Hstep.
    assert (Hc2 : cursor s' after).
    { pose proof (be_value_4_nonneg l0 l1 l2 l3).
      apply (cursor_tail s [i0; i1; l0; l1; l2; l3] rest 6) in Hc;
        [|reflexivity].
      apply (cursor_seek _ _ (be_value [l0; l1; l2; l3])) in Hc; [|lia].
      now rewrite advance_advance in Hc. }
    split; [exact Hstep|]. split; [exact Hc2|].
    intros content h n done k j -> -> Hreach.
    pose proof (reaches_next_attribute _ _ _ _ _ _ _ _ _ _ Hreach Hstep)
      as Hnext.
    pose proof (reaches_attribute_run _ _ _ _ _ _ _ _ Hnext) as Hrun.
    split; [exact Hrun|].
    intros Hsk cf sf Hdone. rewrite Hrun in Hdone.
    exact (finish_from_attribute_record _ _ _ _ _ _ _ _ _ _ Hc2 Hok Hsk Hdone).
  - exact is_Code_name_Code.
  - exact is_Code_name_Code_nul.
Qed.

Lemma C1_witness :
  (exists m',
     read_method_attribute 2 pool_with_Code method_before_Code
       (in_first_method file_with_Code_method 1)
     = (Done m',
        add_alloc 3 (add_alloc sizeof_code_attribute
          (advance 37 (in_first_method file_with_Code_method 1))))
     /\ m_code_attribute m' = Some (mk_code_attribute 2 3 3 [x2a; x2b; xb1])
     /\ same_method_header method_before_Code m'
     /\ cursor
          (add_alloc 3 (add_alloc sizeof_code_attribute
             (advance 37 (in_first_method file_with_Code_method 1))))
          [x77; x78]
     /\ read_class_file file_with_Code_method
        = (Done (with_methods head_with_Code 1 [method_after_Code]),
           add_alloc 3 (add_alloc sizeof_code_attribute
             (advance 37 (in_first_method file_with_Code_method 1))))
     /\ methods (with_methods head_with_Code 1 [method_after_Code]) !! 0%nat
        = Some m')
  /\ read_method_attribute 2 [cp_zero; utf8_entry [x43; x6f; x64]]
       method_before_Code (in_first_method file_with_Code_method 1)
     = (Done method_before_Code,
        advance (6 + 4294967295) (in_first_method file_with_Code_method 1)).
Proof.
  assert (Hc : cursor (in_first_method file_with_Code_method 1)
                 Code_attribute_bytes)
    by (split; [vm_compute; discriminate|vm_compute; reflexivity]).
  assert (Hreach : reaches_attribute file_with_Code_method head_with_Code 1
                     [] 0 method_before_Code 1
                     (in_first_method file_with_Code_method 1)).
  { eexists _, _. split; [enters_loop|]. split; [apply at_first_method|].
    apply (at_first_attribute 2 pool_with_Code _
             x00 x01 x00 x05 x00 x06 x00 x01 Code_attribute_bytes).
    split; [vm_compute; discriminate|vm_compute; reflexivity]. }
  assert (Hrun : read_class_file file_with_Code_method
                 = (Done (with_methods head_with_Code 1 [method_after_Code]),
                    add_alloc 3 (add_alloc sizeof_code_attribute
                      (advance 37 (in_first_method file_with_Code_method 1)))))
    by (vm_compute; reflexivity).
  split.
  - destruct (proj1 (C1_code_attribute_retained_others_skipped
                       2 pool_with_Code method_before_Code
                       (in_first_method file_with_Code_method 1)
                       x00 x01 xff xff xff xff eq_refl eq_refl)
                x00 x02 x00 x03 x00 x00 x00 x03 [x2a; x2b; xb1]
                ([x00; x01; x01; x02; x03; x04; x05; x06; x07; x08;
                  x00; x01; x00; x09; x00; x00; x00; x02; xaa; xbb]
                 ++ [x77; x78]) [x77; x78] Hc eq_refl eq_refl eq_refl)
      as (m' & Hstep & Hblock & Hhead & Hcur & Hwhole).
    exists m'. split; [exact Hstep|]. split; [exact Hblock|].
    split; [exact Hhead|]. split; [exact Hcur|]. split; [exact Hrun|].
    exact (proj2 (Hwhole file_with_Code_method head_with_Code 1 []
                    0%nat 0%nat eq_refl eq_refl Hreach)
             eq_refl _ _ Hrun).
  - exact (proj1
             (proj1 (proj2 (C1_code_attribute_retained_others_skipped
                              2 [cp_zero; utf8_entry [x43; x6f; x64]]
                              method_before_Code
                              (in_first_method file_with_Code_method 1)
                              x00 x01 xff xff xff xff eq_refl eq_refl))
                _ Hc eq_refl)).
Defined.

(** C1 as stated fails in two ways.  (1) The name of the attribute of
    [file_with_Code_nul_name] is a string entry of six bytes, not the
    four bytes of "Code", yet [strcmp] stops at its NUL byte: the
    attribute is decoded as a Code attribute and the record keeps its
    block.  (2) The first attribute of the method of
    [file_with_two_Code_attributes] is named "Code" and is decoded into
    a block with [max_stack] 1 and one instruction byte, but the record
    of the returned [ClassFile] holds the block of the second one. *)
Lemma C1_counterexample :
  (exists cf s m,
     read_class_file file_with_Code_nul_name = (Done cf, s)
     /\ pool_slot (constant_pool cf) 1
        = utf8_entry (Code_text ++ [x00; x58])
     /\ Code_text ++ [x00; x58] <> Code_text
     /\ methods cf = [m]
     /\ m_code_attribute m = Some (mk_code_attribute 2 3 3 [x2a; x2b; xb1]))
  /\ (exists cf s m m1 s1,
        read_method_attribute 2 pool_with_Code (mk_method_info 1 5 6 2 None)
          (in_first_method file_with_two_Code_attributes 1)
        = (Done m1, s1)
        /\ m_code_attribute m1 = Some (mk_code_attribute 1 1 1 [xb1])
        /\ read_class_file file_with_two_Code_attributes = (Done cf, s)
        /\ methods cf = [m]
        /\ m_code_attribute m = Some (mk_code_attribute 2 2 2 [x00; xb1])).
Proof.
  split.
  - eexists _, _, _. split; [vm_compute; reflexivity|].
    split; [reflexivity|]. split; [discriminate|]. split; reflexivity.
  - eexists _, _, _, _, _. split; [vm_compute; reflexivity|].
    split; [reflexivity|]. split; [vm_compute; reflexivity|].
    split; reflexivity.
Qed.

(** ** An attribute name index that is not below the pool count *)

Lemma read_method_attributes_abort (count : Z) (pool : list cp_info)
    (n : nat) (m : method_info) (s s' : state) (e : diagnostic) :
  read_method_attribute count pool m s = (Aborted e, s') ->
  read_method_attributes count pool (S n) m s = (Aborted e, s').
Proof. intros H. cbn [read_method_attributes]. now apply bind_aborted. Qed.

Lemma read_method_first_attribute_abort (count : Z) (pool : list cp_info)
    (s s' : state) (e : diagnostic) (a0 a1 n0 n1 d0 d1 c0 c1 : byte)
    (rest : list byte) :
  cursor s (a0 :: a1 :: n0 :: n1 :: d0 :: d1 :: c0 :: c1 :: rest) ->
  ok s = true -> 0 < be_value [c0; c1] ->
  read_method_attribute count pool
    (mk_method_info (be_value [a0; a1]) (be_value [n0; n1])
       (be_value [d0; d1]) (be_value [c0; c1]) None) (advance 8 s)
  = (Aborted e, s') ->
  read_method count pool s = (Aborted e, s').
Proof.
  intros Hc Hok Hn Hattr. unfold read_method.
  step_u2 Hc. step_u2 Hc. step_u2 Hc. step_u2 Hc. step_pure.
  rewrite ok_advance, Hok. cbn [negb].
  destruct (Z.to_nat (be_value [c0; c1])) as [|k] eqn:Hk; [lia|].
  now apply read_method_attributes_abort.
Qed.

(** C5 (as amended).  A method attribute whose name index is not
    below the declared pool count makes the iteration return [NULL] with
    "attribute_name_index out of range." right after the six header
    bytes; whatever was to be decoded after it is not decoded: the
    attribute loop and the method loop return [NULL] with it, however
    many attributes or methods were still to come; and so does
    [read_class_file] on every file whose run comes to such an
    attribute, whichever method it belongs to. *)
Theorem C5_name_index_beyond_pool_count_aborts
    (count : Z) (pool : list cp_info) :
  (forall m s i0 i1 l0 l1 l2 l3 rest,
     cursor s (i0 :: i1 :: l0 :: l1 :: l2 :: l3 :: rest) -> ok s = true ->
     count <= be_value [i0; i1] ->
     read_method_attribute count pool m s
     = (Aborted msg_attribute_name_index_out_of_range,
        add_stderr msg_attribute_name_index_out_of_range (advance 6 s))
     /\ (forall n,
           read_method_attributes count pool (S n) m s
           = (Aborted msg_attribute_name_index_out_of_range,
              add_stderr msg_attribute_name_index_out_of_range (advance 6 s)))
     /\ forall (B : Type) (rest_of_decoding : method_info -> M B),
          bind (read_method_attribute count pool m) rest_of_decoding s
          = (Aborted msg_attribute_name_index_out_of_range,
             add_stderr msg_attribute_name_index_out_of_range (advance 6 s)))
  /\ (forall k s a0 a1 n0 n1 d0 d1 c0 c1 i0 i1 l0 l1 l2 l3 rest,
        cursor s (a0 :: a1 :: n0 :: n1 :: d0 :: d1 :: c0 :: c1
                  :: i0 :: i1 :: l0 :: l1 :: l2 :: l3 :: rest) ->
        ok s = true -> 0 < be_value [c0; c1] ->
        count <= be_value [i0; i1] ->
        read_methods count pool (S k) s
        = (Aborted msg_attribute_name_index_out_of_range,
           add_stderr msg_attribute_name_index_out_of_range (advance 14 s)))
  /\ (forall content h n done k m j s i0 i1 l0 l1 l2 l3 rest,
        reaches_attribute content h n done k m (S j) s ->
        cursor s (i0 :: i1 :: l0 :: l1 :: l2 :: l3 :: rest) ->
        h_constant_pool_count h <= be_value [i0; i1] ->
        read_class_file content
        = (Aborted msg_attribute_name_index_out_of_range,
           add_stderr msg_attribute_name_index_out_of_range (advance 6 s))).
Proof.
  split; [|split].
  - intros m s i0 i1 l0 l1 l2 l3 rest Hc Hok Hi.
    pose proof (read_method_attribute_out_of_range count pool m s
                  i0 i1 l0 l1 l2 l3 rest Hc Hok Hi) as Hrun.
    split; [exact Hrun|]. split.
    + intros n. now apply read_method_attributes_abort.
    + intros B k. now apply bind_aborted.
  - intros k s a0 a1 n0 n1 d0 d1 c0 c1 i0 i1 l0 l1 l2 l3 rest Hc Hok Hn Hi.
    cbn [read_methods]. apply bind_aborted.
    apply (read_method_first_attribute_abort count pool s _ _
             a0 a1 n0 n1 d0 d1 c0 c1 _ Hc Hok Hn).
    apply (cursor_tail s [a0; a1; n0; n1; d0; d1; c0; c1] _ 8) in Hc;
      [|reflexivity].
    rewrite (read_method_attribute_out_of_range count pool _ _
               i0 i1 l0 l1 l2 l3 rest Hc Hok Hi).
    now rewrite advance_advance.
  - intros content h n done k m j s i0 i1 l0 l1 l2 l3 rest Hreach Hc Hi.
    destruct (reaches_attribute_clean _ _ _ _ _ _ _ _ Hreach) as [Hok _].
    rewrite (reaches_attribute_run _ _ _ _ _ _ _ _ Hreach).
    unfold finish_from_attribute. apply bind_aborted.
    apply read_method_attributes_abort.
    exact (read_method_attribute_out_of_range _ _ m s i0 i1 l0 l1 l2 l3 rest
             Hc Hok Hi).
Qed.

Lemma C5_witness :
  read_methods 2 pool_with_Code 2
    (initial_state
       [x00; x01; x00; x00; x00; x00; x00; x01;
        x00; x02; x00; x00; x00; x00;
        x00; x01; x00; x00; x00; x00; x00; x00])
  = (Aborted msg_attribute_name_index_out_of_range,
     add_stderr msg_attribute_name_index_out_of_range
       (advance 14
          (initial_state
             [x00; x01; x00; x00; x00; x00; x00; x01;
              x00; x02; x00; x00; x00; x00;
              x00; x01; x00; x00; x00; x00; x00; x00])))
  /\ read_class_file file_attribute_index_beyond_pool
     = (Aborted msg_attribute_name_index_out_of_range,
        add_stderr msg_attribute_name_index_out_of_range
          (advance 6 (in_first_method file_attribute_index_beyond_pool 2))).
Proof.
  split.
  - apply (proj1 (proj2 (C5_name_index_beyond_pool_count_aborts
                           2 pool_with_Code))
             1%nat _ x00 x01 x00 x00 x00 x00 x00 x01
             x00 x02 x00 x00 x00 x00
             [x00; x01; x00; x00; x00; x00; x00; x00]).
    + apply cursor_initial.
    + reflexivity.
    + reflexivity.
    + vm_compute. discriminate.
  - apply (proj2 (proj2 (C5_name_index_beyond_pool_count_aborts
                           2 pool_with_Code))
             file_attribute_index_beyond_pool head_with_Code 2 [] 1%nat
             (mk_method_info 1 0 0 1 None) 0%nat _
             x00 x02 x00 x00 x00 x00
             [x00; x01; x00; x00; x00; x00; x00; x00]).
    + eexists _, _. split; [enters_loop|]. split; [apply at_first_method|].
      apply (at_first_attribute 2 pool_with_Code _
               x00 x01 x00 x00 x00 x00 x00 x01
               [x00; x02; x00; x00; x00; x00;
                x00; x01; x00; x00; x00; x00; x00; x00]).
      split; [vm_compute; discriminate|vm_compute; reflexivity].
    + split; [vm_compute; discriminate|vm_compute; reflexivity].
    + vm_compute. discriminate.
Defined.

(** The whole decoder on a file whose first method carries such an
    attribute: the second method is never reached. *)
Example index_beyond_pool_aborts_whole_file :
  read_class_file file_attribute_index_beyond_pool
  = (Aborted msg_attribute_name_index_out_of_range,
     snd (read_class_file file_attribute_index_beyond_pool))
  /\ fpos (snd (read_class_file file_attribute_index_beyond_pool)) = 43.
Proof. split; vm_compute; reflexivity. Qed.

(** C5 as stated fails.  Slot 0 of the pool is never populated, yet an
    attribute whose name index is 0 is accepted, since 0 is below the
    pool count: its payload is skipped and both methods are decoded. *)
Lemma C5_counterexample :
  exists cf s,
    read_class_file file_attribute_index_zero = (Done cf, s)
    /\ pool_slot (constant_pool cf) 0 = cp_zero
    /\ List.length (methods cf) = 2%nat
    /\ fpos s = Z.of_nat (List.length file_attribute_index_zero).
Proof.
  eexists. eexists. split; [vm_compute; reflexivity|].
  repeat split.
Qed.

(** ** The declared length of a Code attribute is not looked at *)

Lemma respects_ret {A} (a : A) : respects (ret a).
Proof. intros s1 s2 Hv. now split. Qed.

Lemma respects_bind {A B} (m : M A) (f : A -> M B) :
  respects m -> (forall a, respects (f a)) -> respects (bind m f).
Proof.
  intros Hm Hf s1 s2 Hv. unfold bind. destruct (Hm s1 s2 Hv) as [Hr Hv'].
  destruct (m s1) as [[a1|e1] s1'], (m s2) as [[a2|e2] s2'];
    cbn [fst snd] in *; try discriminate.
  - injection Hr as ->. now apply Hf.
  - injection Hr as ->. now split.
Qed.

(** The same, the continuation being entered only with values that
    [m] can return. *)
Lemma respects_bind_post {A B} (Q : A -> Prop) (m : M A) (f : A -> M B) :
  (forall s, wp m (fun a _ => Q a) s) ->
  respects m -> (forall a, Q a -> respects (f a)) -> respects (bind m f).
Proof.
  intros HQ Hm Hf s1 s2 Hv. unfold bind. destruct (Hm s1 s2 Hv) as [Hr Hv'].
  specialize (HQ s1). unfold wp in HQ.
  destruct (m s1) as [[a1|e1] s1'], (m s2) as [[a2|e2] s2'];
    cbn [fst snd] in *; try discriminate.
  - injection Hr as ->. now apply Hf.
  - injection Hr as ->. now split.
Qed.

Lemma respects_if {A} (c : bool) (m1 m2 : M A) :
  respects m1 -> respects m2 -> respects (if c then m1 else m2).
Proof. now destruct c. Qed.

Lemma respects_error {A} (e : diagnostic) : respects (@ERROR_AND_CLEANUP A e).
Proof.
  intros s1 s2 (H0 & H1 & H2 & H3 & H4 & H5). split; [reflexivity|].
  unfold same_view, remaining in *. cbn in *.
  repeat split; congruence.
Qed.

Lemma respects_put_ok (b : bool) : respects (put_ok b).
Proof.
  intros s1 s2 (H0 & H1 & H2 & H3 & H4 & H5). split; [reflexivity|].
  unfold same_view, remaining in *. cbn in *.
  repeat split; congruence.
Qed.

Lemma respects_fprintf_stderr (d : diagnostic) : respects (fprintf_stderr d).
Proof.
  intros s1 s2 (H0 & H1 & H2 & H3 & H4 & H5). split; [reflexivity|].
  unfold same_view, remaining in *. cbn in *.
  repeat split; congruence.
Qed.

Lemma respects_malloc (n : Z) : respects (malloc n).
Proof.
  intros s1 s2 (H0 & H1 & H2 & H3 & H4 & H5). split; [reflexivity|].
  unfold same_view, remaining in *. cbn in *.
  repeat split; congruence.
Qed.

Lemma same_view_advance (n : Z) (s1 s2 : state) :
  0 <= n -> same_view s1 s2 -> same_view (advance n s1) (advance n s2).
Proof.
  intros Hn (H0 & H1 & H2 & H3 & H4 & H5).
  repeat split; try assumption; cbn [fpos advance set_fpos]; try lia.
  rewrite !remaining_advance by lia. now rewrite H2.
Qed.

Lemma respects_fseek_cur (n : Z) : 0 <= n -> respects (fseek_cur n).
Proof.
  intros Hn s1 s2 Hv. split; [reflexivity|]. now apply same_view_advance.
Qed.

Lemma respects_fread (size count : Z) : respects (fread size count).
Proof.
  intros s1 s2 Hv. pose proof Hv as (H0 & H1 & H2 & H3 & H4 & H5).
  unfold fread. rewrite H2. cbn [fst snd]. split; [reflexivity|].
  now apply same_view_advance; [lia|].
Qed.

Lemma respects_get_ok : respects get_ok.
Proof.
  intros s1 s2 Hv. pose proof Hv as (H0 & H1 & H2 & H3 & H4 & H5).
  cbn. now rewrite H3.
Qed.

Ltac respects_step :=
  first
    [ apply respects_ret | apply respects_error | apply respects_put_ok
    | apply respects_fprintf_stderr | apply respects_malloc
    | apply respects_get_ok | apply respects_fread
    | assumption
    | match goal with
      | H : context [respects] |- respects _ => solve [apply H]
      end
    | apply respects_if
    | apply respects_bind; [|intros ?] ].

Lemma respects_safe_fread (size count : Z) : respects (safe_fread size count).
Proof. unfold safe_fread. repeat respects_step. Qed.

Lemma respects_read_u2 : respects read_u2.
Proof.
  pose proof respects_safe_fread. unfold read_u2. repeat respects_step.
Qed.

Lemma respects_read_u4 : respects read_u4.
Proof.
  pose proof respects_safe_fread. unfold read_u4. repeat respects_step.
Qed.

Lemma le_load_nonneg (bs : list byte) : 0 <= le_load bs.
Proof.
  induction bs as [|b bs IH]; cbn [le_load]; [lia|].
  apply Z.lor_nonneg. split; [apply byte_val_range|].
  now apply Z.shiftl_nonneg.
Qed.

Lemma bswap16_nonneg (v : Z) : 0 <= bswap16 v.
Proof.
  unfold bswap16. apply Z.lor_nonneg. split.
  - apply Z.shiftl_nonneg, Z.land_nonneg. right. lia.
  - apply Z.land_nonneg. right. lia.
Qed.

Lemma bswap32_nonneg (v : Z) : 0 <= bswap32 v.
Proof.
  unfold bswap32.
  repeat (apply Z.lor_nonneg; split);
    try apply Z.shiftl_nonneg; apply Z.land_nonneg; right; lia.
Qed.

Lemma read_u2_nonneg (s : state) : wp read_u2 (fun a _ => 0 <= a) s.
Proof.
  unfold read_u2. wp_skip. destruct (fst a =? 0).
  - wp_pure. apply wp_ret. lia.
  - apply wp_ret, bswap16_nonneg.
Qed.

Lemma read_u4_nonneg (s : state) : wp read_u4 (fun a _ => 0 <= a) s.
Proof.
  unfold read_u4. wp_skip. destruct (fst a =? 0).
  - wp_pure. apply wp_ret. lia.
  - apply wp_ret, bswap32_nonneg.
Qed.

Lemma respects_skip_attributes (e1 e2 : diagnostic) (n : nat) :
  respects (skip_attributes e1 e2 n).
Proof.
  pose proof respects_read_u2.
  induction n as [|n IH]; cbn [skip_attributes]; [apply respects_ret|].
  apply respects_bind; [assumption|intros idx].
  apply (respects_bind_post (fun a => 0 <= a));
    [apply read_u4_nonneg|apply respects_read_u4|intros len Hlen].
  pose proof (respects_fseek_cur len Hlen).
  repeat respects_step.
Qed.

Lemma respects_skip_code_tail : respects skip_code_tail.
Proof.
  pose proof respects_read_u2. pose proof respects_skip_attributes.
  unfold skip_code_tail.
  apply (respects_bind_post (fun a => 0 <= a));
    [apply read_u2_nonneg|assumption|intros etl Hetl].
  pose proof (respects_fseek_cur (etl * 8) ltac:(lia)).
  repeat respects_step.
Qed.

Lemma respects_read_code_attribute (m : method_info) :
  respects (read_code_attribute m).
Proof.
  pose proof respects_read_u2. pose proof respects_read_u4.
  pose proof respects_safe_fread. pose proof respects_skip_code_tail.
  pose proof respects_malloc.
  unfold read_code_attribute, calloc. repeat respects_step.
Qed.

Lemma respects_read_method_attribute (count : Z) (pool : list cp_info)
    (m : method_info) :
  respects (read_method_attribute count pool m).
Proof.
  pose proof respects_read_u2. pose proof respects_read_code_attribute.
  unfold read_method_attribute, dispatch_method_attribute.
  apply respects_bind; [assumption|intros idx].
  apply (respects_bind_post (fun a => 0 <= a));
    [apply read_u4_nonneg|apply respects_read_u4|intros len Hlen].
  pose proof (respects_fseek_cur len Hlen).
  repeat respects_step.
Qed.

Lemma respects_read_method_attributes (count : Z) (pool : list cp_info)
    (n : nat) (m : method_info) :
  respects (read_method_attributes count pool n m).
Proof.
  pose proof (respects_read_method_attribute count pool).
  revert m. induction n as [|n IH]; intros m;
    cbn [read_method_attributes]; repeat respects_step.
Qed.

(** ** What a run has read when it comes to a position *)

Lemma local_ret {A} (a : A) : local (ret a).
Proof.
  intros s r s' Hp H. injection H as <- <-.
  split; [lia|]. split; [reflexivity|]. intros. reflexivity.
Qed.

Lemma local_bind_post {A B} (Q : A -> Prop) (m : M A) (f : A -> M B) :
  (forall s, wp m (fun a _ => Q a) s) ->
  local m -> (forall a, Q a -> local (f a)) -> local (bind m f).
Proof.
  intros HQ Hm Hf s r s' Hp Hrun. unfold bind in Hrun.
  specialize (HQ s). unfold wp in HQ.
  destruct (m s) as [[a|e] sm] eqn:Hms.
  - pose proof (Hm s _ _ Hp Hms) as (Hle & Hd & Hloc).
    pose proof (Hf a HQ sm r s' ltac:(lia) Hrun) as (Hle' & Hd' & Hloc').
    split; [lia|]. split; [congruence|].
    intros p d2 Hs' Hag. unfold bind.
    rewrite (Hloc p d2 ltac:(lia) Hag).
    apply (Hloc' p d2 Hs'). now rewrite Hd.
  - injection Hrun as <- <-.
    pose proof (Hm s _ _ Hp Hms) as (Hle & Hd & Hloc).
    split; [exact Hle|]. split; [exact Hd|].
    intros p d2 Hs' Hag. unfold bind. now rewrite (Hloc p d2 Hs' Hag).
Qed.

Lemma local_bind {A B} (m : M A) (f : A -> M B) :
  local m -> (forall a, local (f a)) -> local (bind m f).
Proof.
  intros Hm Hf. apply (local_bind_post (fun _ => True)); auto.
  intros s. apply wp_any.
Qed.

Lemma local_if {A} (c : bool) (m1 m2 : M A) :
  local m1 -> local m2 -> local (if c then m1 else m2).
Proof. now destruct c. Qed.

Lemma local_state_only {A} (a : outcome A) (g : state -> state) :
  (forall s, fpos (g s) = fpos s /\ fdata (g s) = fdata s) ->
  (forall d s, g (with_data d s) = with_data d (g s)) ->
  local (fun s => (a, g s)).
Proof.
  intros Hg Hd s r s' Hp H. injection H as <- <-.
  destruct (Hg s) as [H1 H2]. split; [lia|]. split; [exact H2|].
  intros p d2 _ _. now rewrite Hd.
Qed.

Lemma local_error {A} (e : diagnostic) : local (@ERROR_AND_CLEANUP A e).
Proof. now apply (local_state_only (Aborted e) (add_stderr e)). Qed.

Lemma local_put_ok (b : bool) : local (put_ok b).
Proof. now apply (local_state_only (Done tt) (set_ok b)). Qed.

Lemma local_fprintf_stderr (d : diagnostic) : local (fprintf_stderr d).
Proof. now apply (local_state_only (Done tt) (add_stderr d)). Qed.

Lemma local_malloc (n : Z) : local (malloc n).
Proof. now apply (local_state_only (Done tt) (add_alloc n)). Qed.

Lemma local_get_ok : local get_ok.
Proof.
  intros s r s' Hp H. injection H as <- <-.
  split; [lia|]. split; [reflexivity|]. intros. reflexivity.
Qed.

Lemma local_fseek_cur (n : Z) : 0 <= n -> local (fseek_cur n).
Proof.
  intros Hn s r s' Hp H. injection H as <- <-.
  split; [cbn; lia|]. split; [reflexivity|]. intros. reflexivity.
Qed.

Lemma remaining_agree (p : Z) (d2 : list byte) (s : state) (k : nat) :
  0 <= fpos s -> agree_below p (fdata s) d2 ->
  fpos s + Z.of_nat k <= p ->
  take k (remaining (with_data d2 s)) = take k (remaining s)
  /\ List.length (remaining (with_data d2 s)) = List.length (remaining s).
Proof.
  intros Hp [Hlen Htake] Hk. unfold remaining. cbn [fdata fpos with_data].
  rewrite <- Hlen.
  destruct (Z.leb_spec (Z.of_nat (List.length (fdata s))) (fpos s));
    [now split|].
  split; [|rewrite !length_drop; lia].
  rewrite !take_drop_commute.
  f_equal.
  replace (Z.to_nat (fpos s) + k)%nat
    with (Nat.min (Z.to_nat (fpos s) + k) (Z.to_nat p)) by lia.
  rewrite <- !take_take. now rewrite Htake.
Qed.

Lemma local_fread (size count : Z) : local (fread size count).
Proof.
  intros s r s' Hp H. unfold fread in H. injection H as <- <-.
  cbn [fpos fdata set_fpos]. split; [lia|]. split; [reflexivity|].
  intros p d2 Hs' Hag. unfold fread.
  set (got := if Z.of_nat (List.length (remaining s)) <=? size * count
              then remaining s
              else take (Z.to_nat (size * count)) (remaining s)) in *.
  assert (Hgot : (if Z.of_nat (List.length (remaining (with_data d2 s)))
                     <=? size * count
                  then remaining (with_data d2 s)
                  else take (Z.to_nat (size * count))
                         (remaining (with_data d2 s))) = got).
  { destruct (remaining_agree p d2 s (List.length got) Hp Hag Hs')
      as [Ht Hl].
    subst got. rewrite Hl.
    destruct (Z.leb_spec (Z.of_nat (List.length (remaining s)))
                (size * count)) as [Hle|Hgt].
    - rewrite <- Hl in Ht at 1. now rewrite !firstn_all in Ht.
    - rewrite length_take in Ht.
      replace (Nat.min (Z.to_nat (size * count)) (List.length (remaining s)))
        with (Z.to_nat (size * count)) in Ht by lia.
      now rewrite Ht. }
  rewrite Hgot. reflexivity.
Qed.

Ltac local_step :=
  first
    [ apply local_ret | apply local_error | apply local_put_ok
    | apply local_fprintf_stderr | apply local_malloc
    | apply local_get_ok | apply local_fread
    | assumption
    | match goal with
      | H : context [local] |- local _ => solve [apply H]
      end
    | apply local_if
    | apply local_bind; [|intros ?] ].

Lemma local_safe_fread (size count : Z) : local (safe_fread size count).
Proof. unfold safe_fread. repeat local_step. Qed.

Lemma local_read_u1 : local read_u1.
Proof. pose proof local_safe_fread. unfold read_u1. repeat local_step. Qed.

Lemma local_read_u2 : local read_u2.
Proof. pose proof local_safe_fread. unfold read_u2. repeat local_step. Qed.

Lemma local_read_u4 : local read_u4.
Proof. pose proof local_safe_fread. unfold read_u4. repeat local_step. Qed.

Lemma local_read_constant_pool_entry (e : cp_info) :
  local (read_constant_pool_entry e).
Proof.
  pose proof local_safe_fread. pose proof local_read_u1.
  pose proof local_read_u2. pose proof local_read_u4.
  unfold read_constant_pool_entry, utf8_case, after_switch.
  repeat local_step.
Qed.

Lemma local_read_constant_pool (fuel : nat) (count i : Z)
    (pool : list cp_info) :
  local (read_constant_pool fuel count i pool).
Proof.
  pose proof local_read_constant_pool_entry.
  revert i pool. induction fuel as [|fuel IH]; intros i pool;
    cbn [read_constant_pool]; repeat local_step.
Qed.

Lemma local_skip_attributes (e1 e2 : diagnostic) (n : nat) :
  local (skip_attributes e1 e2 n).
Proof.
  pose proof local_read_u2.
  induction n as [|n IH]; cbn [skip_attributes]; [apply local_ret|].
  apply local_bind; [assumption|intros idx].
  apply (local_bind_post (fun a => 0 <= a));
    [apply read_u4_nonneg|apply local_read_u4|intros len Hlen].
  pose proof (local_fseek_cur len Hlen).
  repeat local_step.
Qed.

Lemma local_skip_fields (n : nat) : local (skip_fields n).
Proof.
  pose proof local_read_u2. pose proof local_skip_attributes.
  induction n as [|n IH]; cbn [skip_fields]; repeat local_step.
Qed.

Lemma local_skip_code_tail : local skip_code_tail.
Proof.
  pose proof local_read_u2. pose proof local_skip_attributes.
  unfold skip_code_tail.
  apply (local_bind_post (fun a => 0 <= a));
    [apply read_u2_nonneg|assumption|intros etl Hetl].
  pose proof (local_fseek_cur (etl * 8) ltac:(lia)).
  repeat local_step.
Qed.

Lemma local_read_code_attribute (m : method_info) :
  local (read_code_attribute m).
Proof.
  pose proof local_read_u2. pose proof local_read_u4.
  pose proof local_safe_fread. pose proof local_skip_code_tail.
  unfold read_code_attribute, calloc. repeat local_step.
Qed.

Lemma local_read_method_attribute (count : Z) (pool : list cp_info)
    (m : method_info) :
  local (read_method_attribute count pool m).
Proof.
  pose proof local_read_u2. pose proof local_read_code_attribute.
  unfold read_method_attribute, dispatch_method_attribute.
  apply local_bind; [assumption|intros idx].
  apply (local_bind_post (fun a => 0 <= a));
    [apply read_u4_nonneg|apply local_read_u4|intros len Hlen].
  pose proof (local_fseek_cur len Hlen).
  repeat local_step.
Qed.

Lemma local_read_method_attributes (count : Z) (pool : list cp_info)
    (n : nat) (m : method_info) :
  local (read_method_attributes count pool n m).
Proof.
  pose proof (local_read_method_attribute count pool).
  revert m. induction n as [|n IH]; intros m;
    cbn [read_method_attributes]; repeat local_step.
Qed.

Lemma local_read_method (count : Z) (pool : list cp_info) :
  local (read_method count pool).
Proof.
  pose proof local_read_u2. pose proof (local_read_method_attributes count pool).
  unfold read_method. repeat local_step.
Qed.

Lemma local_read_magic : local read_magic.
Proof. pose proof local_read_u4. unfold read_magic. repeat local_step. Qed.

Lemma local_read_version : local read_version.
Proof. pose proof local_read_u2. unfold read_version. repeat local_step. Qed.

Lemma local_read_pool : local read_pool.
Proof.
  pose proof local_read_u2. pose proof local_read_constant_pool.
  unfold read_pool, calloc. repeat local_step.
Qed.

Lemma local_read_class_header : local read_class_header.
Proof.
  pose proof local_read_u2. unfold read_class_header. repeat local_step.
Qed.

Lemma local_skip_interfaces : local skip_interfaces.
Proof.
  unfold skip_interfaces.
  apply (local_bind_post (fun a => 0 <= a));
    [apply read_u2_nonneg|apply local_read_u2|intros n Hn].
  pose proof (local_fseek_cur (n * 2) ltac:(lia)).
  repeat local_step.
Qed.

Lemma local_read_fields : local read_fields.
Proof.
  pose proof local_read_u2. pose proof local_skip_fields.
  unfold read_fields. repeat local_step.
Qed.

Lemma local_read_class_head : local read_class_head.
Proof.
  pose proof local_read_magic. pose proof local_read_version.
  pose proof local_read_pool. pose proof local_read_class_header.
  pose proof local_skip_interfaces. pose proof local_read_fields.
  unfold read_class_head. repeat local_step.
Qed.

Lemma local_read_methods (count : Z) (pool : list cp_info)
    (n : nat) :
  local (read_methods count pool n).
Proof.
  pose proof (local_read_method count pool).
  induction n as [|n IH]; cbn [read_methods]; repeat local_step.
Qed.

(** *** The same run on a file that differs further on *)

Lemma with_data_initial (c1 c2 : list byte) :
  with_data c2 (initial_state c1) = initial_state c2.
Proof. reflexivity. Qed.

Lemma agree_below_le (p q : Z) (d1 d2 : list byte) :
  q <= p -> agree_below p d1 d2 -> agree_below q d1 d2.
Proof.
  intros Hq [Hl Ht]. split; [exact Hl|].
  assert (Hq' : (Z.to_nat q <= Z.to_nat p)%nat) by lia.
  assert (Htk : forall d : list byte,
            take (Z.to_nat q) d = take (Z.to_nat q) (take (Z.to_nat p) d)).
  { intros d. rewrite take_take. f_equal. lia. }
  now rewrite (Htk d1), (Htk d2), Ht.
Qed.

Lemma cursor_agree (p : Z) (d2 : list byte) (s : state)
    (bs rest : list byte) :
  cursor s (bs ++ rest) ->
  fpos s + Z.of_nat (List.length bs) <= p ->
  agree_below p (fdata s) d2 ->
  exists rest', cursor (with_data d2 s) (bs ++ rest').
Proof.
  intros [Hp Hr] Hle Hag.
  destruct (remaining_agree p d2 s (List.length bs) Hp Hag Hle) as [Ht _].
  exists (drop (List.length bs) (remaining (with_data d2 s))).
  split; [exact Hp|].
  rewrite <- (take_drop (List.length bs) (remaining (with_data d2 s))) at 1.
  f_equal. rewrite Ht, Hr. apply take_app_length.
Qed.

Lemma enters_method_loop_agree (c1 c2 : list byte) (h : class_head) (n : Z)
    (s_loop : state) (p : Z) :
  enters_method_loop c1 h n s_loop ->
  fpos s_loop <= p -> agree_below p c1 c2 ->
  enters_method_loop c2 h n (with_data c2 s_loop)
  /\ 0 <= fpos s_loop /\ fdata s_loop = c1.
Proof.
  intros (s_head & n0 & n1 & rest & Hrun & Hc & Hn & Hle & ->) Hp Hag.
  destruct (local_read_class_head (initial_state c1) _ _ (Z.le_refl 0) Hrun)
    as (Hpos & Hd & Hloc).
  cbn [fpos fdata initial_state] in Hpos, Hd, Hloc.
  cbn [fpos add_alloc advance set_fpos] in Hp.
  assert (Hag' : agree_below p (fdata s_head) c2) by now rewrite Hd.
  destruct (cursor_agree p c2 s_head [n0; n1] rest Hc) as [rest' Hc'];
    [cbn [List.length]; lia|exact Hag'|].
  split; [|split; [cbn [fpos add_alloc advance set_fpos]; lia|exact Hd]].
  exists (with_data c2 s_head), n0, n1, rest'.
  split; [|repeat split; try assumption; apply Hc'].
  rewrite <- (with_data_initial c1 c2). apply (Hloc p c2); [lia|exact Hag].
Qed.

Lemma at_method_forward (count : Z) (pool : list cp_info) (s_loop : state)
    (total : nat) (done : list method_info) (left : nat) (s : state) :
  at_method count pool s_loop total done left s ->
  0 <= fpos s_loop ->
  fpos s_loop <= fpos s /\ fdata s = fdata s_loop.
Proof.
  intros Hat H0. induction Hat as [|done left s s' m Hat [IHp IHd] Hrun].
  - split; [lia|reflexivity].
  - destruct (local_read_method count pool s _ _ ltac:(lia) Hrun)
      as (Hpos & Hd & _).
    split; [lia|congruence].
Qed.

Lemma at_method_agree (count : Z) (pool : list cp_info) (s_loop : state)
    (total : nat) (done : list method_info) (left : nat) (s : state)
    (p : Z) (d2 : list byte) :
  at_method count pool s_loop total done left s ->
  0 <= fpos s_loop -> fpos s <= p -> agree_below p (fdata s_loop) d2 ->
  at_method count pool (with_data d2 s_loop) total done left (with_data d2 s).
Proof.
  intros Hat H0. induction Hat as [|done left s s' m Hat IH Hrun];
    intros Hp Hag.
  - apply at_first_method.
  - destruct (at_method_forward _ _ _ _ _ _ _ Hat H0) as [Hf Hfd].
    destruct (local_read_method count pool s _ _ ltac:(lia) Hrun)
      as (Hpos & Hd & Hloc).
    apply (at_next_method _ _ _ _ _ _ (with_data d2 s)).
    + apply IH; [lia|exact Hag].
    + apply (Hloc p d2 Hp). now rewrite Hfd.
Qed.

Lemma at_attribute_forward (count : Z) (pool : list cp_info)
    (s_method : state) (m : method_info) (j : nat) (s : state) :
  at_attribute count pool s_method m j s ->
  0 <= fpos s_method /\ fpos s_method <= fpos s
  /\ fdata s = fdata s_method.
Proof.
  intros Hat.
  induction Hat as [a0 a1 n0 n1 d0 d1 c0 c1 rest [H0 _]
                   |m m' left s s' Hat (IH0 & IHp & IHd) Hrun].
  - cbn [fpos fdata advance set_fpos]. repeat split; lia.
  - destruct (local_read_method_attribute count pool m s _ _ ltac:(lia) Hrun)
      as (Hpos & Hd & _).
    split; [exact IH0|]. split; [lia|congruence].
Qed.

Lemma at_attribute_agree (count : Z) (pool : list cp_info)
    (s_method : state) (m : method_info) (j : nat) (s : state)
    (p : Z) (d2 : list byte) :
  at_attribute count pool s_method m j s ->
  fpos s <= p -> agree_below p (fdata s_method) d2 ->
  at_attribute count pool (with_data d2 s_method) m j (with_data d2 s).
Proof.
  intros Hat.
  induction Hat as [a0 a1 n0 n1 d0 d1 c0 c1 rest Hc
                   |m m' left s s' Hat IH Hrun]; intros Hp Hag.
  - cbn [fpos advance set_fpos] in Hp.
    destruct (cursor_agree p d2 s_method [a0; a1; n0; n1; d0; d1; c0; c1]
                rest Hc) as [rest' Hc'];
      [cbn [List.length]; lia|exact Hag|].
    exact (at_first_attribute count pool (with_data d2 s_method)
             a0 a1 n0 n1 d0 d1 c0 c1 rest' Hc').
  - destruct (at_attribute_forward _ _ _ _ _ _ Hat) as (H0 & Hf & Hfd).
    destruct (local_read_method_attribute count pool m s _ _ ltac:(lia) Hrun)
      as (Hpos & Hd & Hloc).
    apply (at_next_attribute _ _ _ m _ _ (with_data d2 s)).
    + apply IH; [lia|exact Hag].
    + apply (Hloc p d2 Hp). now rewrite Hfd.
Qed.

(** A run that comes to an iteration of the attribute loop has read
    nothing beyond its position: on a file with the same bytes up to
    there it comes to the same iteration. *)
Lemma reaches_attribute_agree (c1 c2 : list byte) (h : class_head) (n : Z)
    (done : list method_info) (k : nat) (m : method_info) (j : nat)
    (s : state) :
  reaches_attribute c1 h n done k m j s ->
  agree_below (fpos s) c1 c2 ->
  reaches_attribute c2 h n done k m j (with_data c2 s)
  /\ 0 <= fpos s /\ fdata s = c1.
Proof.
  intros (s_loop & s_method & Hloop & Hm & Ha) Hag.
  destruct (at_attribute_forward _ _ _ _ _ _ Ha) as (H0m & Hfm & Hdm).
  assert (H0l : 0 <= fpos s_loop).
  { destruct Hloop as (s_head & n0 & n1 & rest & Hrun & [Hc _] & _ & _ & ->).
    cbn [fpos add_alloc advance set_fpos]. lia. }
  destruct (at_method_forward _ _ _ _ _ _ _ Hm H0l) as [Hfl Hdl].
  destruct (enters_method_loop_agree c1 c2 h n s_loop (fpos s) Hloop
              ltac:(lia) Hag) as (Hloop' & _ & Hd).
  split; [|split; [lia|congruence]].
  exists (with_data c2 s_loop), (with_data c2 s_method).
  split; [exact Hloop'|]. split.
  - apply (at_method_agree _ _ _ _ _ _ _ (fpos s)); try assumption.
    now rewrite Hd.
  - apply (at_attribute_agree _ _ _ _ _ _ (fpos s)); [assumption|lia|].
    now rewrite Hdl, Hd.
Qed.

(** *** The whole run *)

Lemma respects_read_method (count : Z) (pool : list cp_info) :
  respects (read_method count pool).
Proof.
  pose proof respects_read_u2.
  pose proof (respects_read_method_attributes count pool).
  unfold read_method. repeat respects_step.
Qed.

Lemma respects_read_methods (count : Z) (pool : list cp_info) (n : nat) :
  respects (read_methods count pool n).
Proof.
  pose proof (respects_read_method count pool).
  induction n as [|n IH]; cbn [read_methods]; repeat respects_step.
Qed.

(** Two runs that have returned the same value in states of the same
    view go on alike. *)
Lemma respects_bind_from {A B} (m1 m2 : M A) (f : A -> M B)
    (s1 s2 : state) :
  fst (m1 s1) = fst (m2 s2) ->
  same_view (snd (m1 s1)) (snd (m2 s2)) ->
  (forall a, respects (f a)) ->
  fst (bind m1 f s1) = fst (bind m2 f s2)
  /\ same_view (snd (bind m1 f s1)) (snd (bind m2 f s2)).
Proof.
  intros Hr Hv Hf. unfold bind.
  destruct (m1 s1) as [[a1|e1] s1'], (m2 s2) as [[a2|e2] s2'];
    cbn [fst snd] in *; try discriminate.
  - injection Hr as ->. now apply Hf.
  - injection Hr as ->. now split.
Qed.

Lemma cursor_at (s : state) (pre bs : list byte) :
  fdata s = pre ++ bs -> fpos s = Z.of_nat (List.length pre) ->
  cursor s bs.
Proof.
  intros Hd Hp. split; [lia|]. unfold remaining. rewrite Hd, Hp.
  rewrite Nat2Z.id, drop_app_length, length_app.
  destruct (Z.leb_spec
              (Z.of_nat (List.length pre + List.length bs))
              (Z.of_nat (List.length pre))) as [Hle|_]; [|reflexivity].
  destruct bs; [reflexivity|cbn [List.length] in Hle; lia].
Qed.

(** The attribute loop in front of a Code-dispatched attribute, on two
    streams that differ in the four bytes of the declared length. *)
Lemma read_method_attribute_any_length (count : Z) (pool : list cp_info)
    (m : method_info) (s1 s2 : state)
    (i0 i1 a0 a1 a2 a3 b0 b1 b2 b3 : byte) (rest : list byte) :
  cursor s1 (i0 :: i1 :: a0 :: a1 :: a2 :: a3 :: rest) ->
  cursor s2 (i0 :: i1 :: b0 :: b1 :: b2 :: b3 :: rest) ->
  fpos s1 = fpos s2 -> ok s1 = true -> ok s2 = true ->
  stderr s1 = stderr s2 -> allocs s1 = allocs s2 ->
  be_value [i0; i1] < count ->
  is_Code_name (pool_slot pool (be_value [i0; i1])) = true ->
  fst (read_method_attribute count pool m s1)
  = fst (read_method_attribute count pool m s2)
  /\ same_view (snd (read_method_attribute count pool m s1))
       (snd (read_method_attribute count pool m s2)).
Proof.
  intros Hc1 Hc2 Hpos Hok1 Hok2 Herr Hall Hi Hcode.
  rewrite (read_method_attribute_header _ _ _ _ _ _ _ _ _ _ _ Hc1 Hok1).
  rewrite (read_method_attribute_header _ _ _ _ _ _ _ _ _ _ _ Hc2 Hok2).
  unfold dispatch_method_attribute.
  destruct (Z.ltb_spec (be_value [i0; i1]) count); [|lia]. rewrite Hcode.
  apply respects_read_code_attribute.
  apply (cursor_tail s1 [i0; i1; a0; a1; a2; a3] rest 6) in Hc1;
    [|reflexivity].
  apply (cursor_tail s2 [i0; i1; b0; b1; b2; b3] rest 6) in Hc2;
    [|reflexivity].
  destruct Hc1 as [Hp1 Hr1], Hc2 as [Hp2 Hr2].
  repeat split; cbn [fpos ok stderr allocs advance set_fpos] in *;
    try congruence; lia.
Qed.

Lemma agree_below_app (pre t1 t2 : list byte) :
  List.length t1 = List.length t2 ->
  agree_below (Z.of_nat (List.length pre)) (pre ++ t1) (pre ++ t2).
Proof.
  intros Hl. split; [rewrite !length_app; lia|].
  now rewrite Nat2Z.id, !take_app_length.
Qed.

(** C10. Once a method attribute is dispatched to the Code branch the
    declared length plays no part: [dispatch_method_attribute] is the
    same function for any two lengths; two runs that stand in front of
    attributes differing only in the four bytes of that field return
    the same value and leave states that agree on position, on the
    bytes still to come, on [ok], [stderr] and the allocations, and so
    do the runs of the attribute loop that start with that attribute;
    and two class files that differ only in those four bytes of an
    attribute that the run comes to are decoded to the same result,
    [NULL] with the same message or the same [ClassFile]. *)
Theorem C10_declared_length_of_Code_attribute_ignored
    (count : Z) (pool : list cp_info) (m : method_info) :
  (forall idx len1 len2,
     idx < count -> is_Code_name (pool_slot pool idx) = true ->
     dispatch_method_attribute count pool m idx len1
     = dispatch_method_attribute count pool m idx len2)
  /\ (forall s1 s2 i0 i1 a0 a1 a2 a3 b0 b1 b2 b3 rest,
        cursor s1 (i0 :: i1 :: a0 :: a1 :: a2 :: a3 :: rest) ->
        cursor s2 (i0 :: i1 :: b0 :: b1 :: b2 :: b3 :: rest) ->
        fpos s1 = fpos s2 -> ok s1 = true -> ok s2 = true ->
        stderr s1 = stderr s2 -> allocs s1 = allocs s2 ->
        be_value [i0; i1] < count ->
        is_Code_name (pool_slot pool (be_value [i0; i1])) = true ->
        (fst (read_method_attribute count pool m s1)
         = fst (read_method_attribute count pool m s2)
         /\ same_view (snd (read_method_attribute count pool m s1))
              (snd (read_method_attribute count pool m s2)))
        /\ forall n,
             fst (read_method_attributes count pool (S n) m s1)
             = fst (read_method_attributes count pool (S n) m s2)
             /\ same_view
                  (snd (read_method_attributes count pool (S n) m s1))
                  (snd (read_method_attributes count pool (S n) m s2)))
  /\ (forall h n done k j s pre i0 i1 a0 a1 a2 a3 b0 b1 b2 b3 post,
        h_constant_pool_count h = count -> h_constant_pool h = pool ->
        reaches_attribute (pre ++ [i0; i1; a0; a1; a2; a3] ++ post)
          h n done k m (S j) s ->
        fpos s = Z.of_nat (List.length pre) ->
        be_value [i0; i1] < count ->
        is_Code_name (pool_slot pool (be_value [i0; i1])) = true ->
        fst (read_class_file (pre ++ [i0; i1; a0; a1; a2; a3] ++ post))
        = fst (read_class_file (pre ++ [i0; i1; b0; b1; b2; b3] ++ post))
        /\ same_view
             (snd (read_class_file (pre ++ [i0; i1; a0; a1; a2; a3] ++ post)))
             (snd (read_class_file
                     (pre ++ [i0; i1; b0; b1; b2; b3] ++ post)))).
Proof.
  split; [|split].
  - intros idx len1 len2 Hi Hcode. unfold dispatch_method_attribute.
    destruct (Z.ltb_spec idx count); [|lia]. now rewrite Hcode.
  - intros s1 s2 i0 i1 a0 a1 a2 a3 b0 b1 b2 b3 rest
      Hc1 Hc2 Hpos Hok1 Hok2 Herr Hall Hi Hcode.
    pose proof (read_method_attribute_any_length count pool m s1 s2
                  i0 i1 a0 a1 a2 a3 b0 b1 b2 b3 rest
                  Hc1 Hc2 Hpos Hok1 Hok2 Herr Hall Hi Hcode) as [Hr Hv].
    split; [now split|]. intros n. cbn [read_method_attributes].
    apply respects_bind_from; [exact Hr|exact Hv|].
    intros m'. apply respects_read_method_attributes.
  - intros h n done k j s pre i0 i1 a0 a1 a2 a3 b0 b1 b2 b3 post
      <- <- Hreach Hpos Hi Hcode.
    assert (Hag : agree_below (fpos s)
                    (pre ++ [i0; i1; a0; a1; a2; a3] ++ post)
                    (pre ++ [i0; i1; b0; b1; b2; b3] ++ post))
      by (rewrite Hpos; now apply agree_below_app).
    destruct (reaches_attribute_agree _ _ _ _ _ _ _ _ _ Hreach Hag)
      as (Hreach2 & H0 & Hd).
    destruct (reaches_attribute_clean _ _ _ _ _ _ _ _ Hreach) as [Hok _].
    rewrite (reaches_attribute_run _ _ _ _ _ _ _ _ Hreach).
    rewrite (reaches_attribute_run _ _ _ _ _ _ _ _ Hreach2).
    unfold finish_from_attribute. cbn [read_method_attributes].
    rewrite !bind_assoc.
    apply respects_bind_from.
    + apply (read_method_attribute_any_length _ _ m s _
               i0 i1 a0 a1 a2 a3 b0 b1 b2 b3 post);
        try reflexivity; try assumption.
      * now apply (cursor_at s pre).
      * now apply (cursor_at _ pre).
    + apply (read_method_attribute_any_length _ _ m s _
               i0 i1 a0 a1 a2 a3 b0 b1 b2 b3 post);
        try reflexivity; try assumption.
      * now apply (cursor_at s pre).
      * now apply (cursor_at _ pre).
    + intros m'. pose proof respects_read_method_attributes.
      pose proof respects_read_methods. repeat respects_step.
Qed.

Lemma C10_witness :
  (fst (read_method_attribute 2 pool_with_Code method_before_Code
          (initial_state Code_attribute_bytes))
   = fst (read_method_attribute 2 pool_with_Code method_before_Code
            (initial_state
               ([x00; x01; x00; x00; x00; x1f] ++ Code_attribute_payload)))
   /\ same_view
        (snd (read_method_attribute 2 pool_with_Code method_before_Code
                (initial_state Code_attribute_bytes)))
        (snd (read_method_attribute 2 pool_with_Code method_before_Code
                (initial_state
                   ([x00; x01; x00; x00; x00; x1f]
                    ++ Code_attribute_payload)))))
  /\ fst (read_class_file file_with_Code_method)
     = fst (read_class_file file_with_Code_true_length)
  /\ same_view (snd (read_class_file file_with_Code_method))
       (snd (read_class_file file_with_Code_true_length)).
Proof.
  assert (Hreach : reaches_attribute file_with_Code_method head_with_Code 1
                     [] 0 method_before_Code 1
                     (in_first_method file_with_Code_method 1)).
  { eexists _, _. split; [enters_loop|]. split; [apply at_first_method|].
    apply (at_first_attribute 2 pool_with_Code _
             x00 x01 x00 x05 x00 x06 x00 x01 Code_attribute_bytes).
    split; [vm_compute; discriminate|vm_compute; reflexivity]. }
  split.
  - refine (proj1 (proj1 (proj2 (C10_declared_length_of_Code_attribute_ignored
                     2 pool_with_Code method_before_Code))
             (initial_state Code_attribute_bytes)
             (initial_state
                ([x00; x01; x00; x00; x00; x1f] ++ Code_attribute_payload))
             x00 x01 xff xff xff xff x00 x00 x00 x1f Code_attribute_payload
             _ _ _ _ _ _ _ _ _)).
    + apply cursor_initial.
    + apply cursor_initial.
    + reflexivity.
    + reflexivity.
    + reflexivity.
    + reflexivity.
    + reflexivity.
    + reflexivity.
    + reflexivity.
  - exact (proj2 (proj2 (C10_declared_length_of_Code_attribute_ignored
                    2 pool_with_Code method_before_Code))
             head_with_Code 1 [] 0%nat 0%nat
             (in_first_method file_with_Code_method 1)
             before_Code_attribute
             x00 x01 xff xff xff xff x00 x00 x00 x1f Code_attribute_payload
             eq_refl eq_refl Hreach eq_refl eq_refl eq_refl).
Defined.


(** * Further properties of the decoder *)

(** ** The integer readers *)

(** X1. [read_u1], [read_u2] and [read_u4] in front of enough bytes
    return the big-endian value of the next one, two or four bytes and
    move the position by that many; [ok], [stderr] and the allocations
    stay as they are. *)
Theorem readers_return_big_endian_values (s : state) :
  (forall a rest,
     cursor s (a :: rest) -> read_u1 s = (Done (byte_val a), advance 1 s))
  /\ (forall a b rest,
        cursor s (a :: b :: rest) ->
        read_u2 s = (Done (256 * byte_val a + byte_val b), advance 2 s))
  /\ (forall a b c d rest,
        cursor s (a :: b :: c :: d :: rest) ->
        read_u4 s
        = (Done (16777216 * byte_val a + 65536 * byte_val b
                 + 256 * byte_val c + byte_val d),
           advance 4 s)).
Proof.
  split; [|split].
  - intros a rest Hc. now apply (read_u1_ok s a rest).
  - intros a b rest Hc. rewrite (read_u2_ok s a b rest Hc).
    do 2 f_equal. cbn. lia.
  - intros a b c d rest Hc. rewrite (read_u4_ok s a b c d rest Hc).
    do 2 f_equal. cbn. lia.
Qed.

Lemma readers_return_big_endian_values_witness :
  read_u1 (initial_state [xca; xfe; xba; xbe])
  = (Done 202, advance 1 (initial_state [xca; xfe; xba; xbe]))
  /\ read_u2 (initial_state [xca; xfe; xba; xbe])
     = (Done 51966, advance 2 (initial_state [xca; xfe; xba; xbe]))
  /\ read_u4 (initial_state [xca; xfe; xba; xbe])
     = (Done JAVA_MAGIC, advance 4 (initial_state [xca; xfe; xba; xbe])).
Proof.
  pose proof (readers_return_big_endian_values
                (initial_state [xca; xfe; xba; xbe])) as (H1 & H2 & H4).
  split; [|split].
  - exact (H1 xca [xfe; xba; xbe] (cursor_initial _)).
  - exact (H2 xca xfe [xba; xbe] (cursor_initial _)).
  - exact (H4 xca xfe xba xbe [] (cursor_initial _)).
Defined.

(** X2. A reader that finds fewer bytes than it needs returns 0, not a
    value made of the bytes that were there: those bytes are consumed,
    one "Unexpected end of file." line is printed and [ok] is cleared.
    The stream is then at its end, so that every later read is short as
    well. *)
Theorem readers_fail_on_short_input (s : state) (bs : list byte) :
  cursor s bs ->
  ((List.length bs < 1)%nat ->
   read_u1 s = (Done 0, short_read (Z.of_nat (List.length bs)) s))
  /\ ((List.length bs < 2)%nat ->
      read_u2 s = (Done 0, short_read (Z.of_nat (List.length bs)) s))
  /\ ((List.length bs < 4)%nat ->
      read_u4 s = (Done 0, short_read (Z.of_nat (List.length bs)) s))
  /\ cursor (short_read (Z.of_nat (List.length bs)) s) []
  /\ ok (short_read (Z.of_nat (List.length bs)) s) = false
  /\ stderr (short_read (Z.of_nat (List.length bs)) s)
     = stderr s ++ [msg_unexpected_eof]
  /\ allocs (short_read (Z.of_nat (List.length bs)) s) = allocs s.
Proof.
  intros Hc. split; [|split; [|split; [|split; [|split]]]].
  - intros Hlen. destruct bs; [|cbn in Hlen; lia]. now apply read_u1_short.
  - now apply read_u2_short.
  - now apply read_u4_short.
  - pose proof (cursor_advance s bs []) as Ha. rewrite app_nil_r in Ha.
    specialize (Ha Hc). exact Ha.
  - reflexivity.
  - split; reflexivity.
Qed.

Lemma readers_fail_on_short_input_witness :
  read_u4 (initial_state [xca; xfe; xba])
  = (Done 0, short_read 3 (initial_state [xca; xfe; xba]))
  /\ read_u2 (short_read 3 (initial_state [xca; xfe; xba]))
     = (Done 0, short_read 0 (short_read 3 (initial_state [xca; xfe; xba]))).
Proof.
  pose proof (readers_fail_on_short_input (initial_state [xca; xfe; xba])
                [xca; xfe; xba] (cursor_initial _))
    as (_ & _ & H4 & Hc & _).
  split; [apply H4; cbn; lia|].
  exact (proj1 (proj2 (readers_fail_on_short_input _ [] Hc))
           ltac:(cbn; lia)).
Defined.


(** ** The flag [ok] *)

Lemma never_sets_ok_ret {A} (a : A) : never_sets_ok (ret a).
Proof. intros s H. exact H. Qed.

Lemma never_sets_ok_bind {A B} (m : M A) (f : A -> M B) :
  never_sets_ok m -> (forall a, never_sets_ok (f a)) ->
  never_sets_ok (bind m f).
Proof.
  intros Hm Hf s Hs. unfold bind. specialize (Hm s Hs).
  destruct (m s) as [[a|e] s']; cbn [snd] in *; [now apply Hf|exact Hm].
Qed.

Lemma never_sets_ok_if {A} (c : bool) (m1 m2 : M A) :
  never_sets_ok m1 -> never_sets_ok m2 ->
  never_sets_ok (if c then m1 else m2).
Proof. now destruct c. Qed.

Lemma never_sets_ok_put_false : never_sets_ok (put_ok false).
Proof. intros s _. reflexivity. Qed.

Lemma never_sets_ok_fread (size count : Z) : never_sets_ok (fread size count).
Proof. intros s Hs. exact Hs. Qed.

Lemma never_sets_ok_get_ok : never_sets_ok get_ok.
Proof. intros s Hs. exact Hs. Qed.

Lemma never_sets_ok_fprintf_stderr (d : diagnostic) :
  never_sets_ok (fprintf_stderr d).
Proof. intros s Hs. exact Hs. Qed.

Lemma never_sets_ok_malloc (n : Z) : never_sets_ok (malloc n).
Proof. intros s Hs. exact Hs. Qed.

Lemma never_sets_ok_fseek_cur (n : Z) : never_sets_ok (fseek_cur n).
Proof. intros s Hs. exact Hs. Qed.

Lemma never_sets_ok_error {A} (e : diagnostic) :
  never_sets_ok (@ERROR_AND_CLEANUP A e).
Proof. intros s Hs. exact Hs. Qed.

Ltac never_sets_ok_step :=
  first
    [ apply never_sets_ok_ret | apply never_sets_ok_put_false
    | assumption
    | match goal with
      | H : context [never_sets_ok] |- never_sets_ok _ => solve [apply H]
      end
    | apply never_sets_ok_fread | apply never_sets_ok_get_ok
    | apply never_sets_ok_fprintf_stderr | apply never_sets_ok_malloc
    | apply never_sets_ok_fseek_cur | apply never_sets_ok_error
    | apply never_sets_ok_if
    | apply never_sets_ok_bind; [|intros ?] ].

Lemma never_sets_ok_safe_fread (size count : Z) :
  never_sets_ok (safe_fread size count).
Proof.
  unfold safe_fread. repeat never_sets_ok_step.
Qed.

Lemma never_sets_ok_read_u1 : never_sets_ok read_u1.
Proof.
  pose proof never_sets_ok_safe_fread. unfold read_u1.
  repeat never_sets_ok_step.
Qed.

Lemma never_sets_ok_read_u2 : never_sets_ok read_u2.
Proof.
  pose proof never_sets_ok_safe_fread. unfold read_u2.
  repeat never_sets_ok_step.
Qed.

Lemma never_sets_ok_read_u4 : never_sets_ok read_u4.
Proof.
  pose proof never_sets_ok_safe_fread. unfold read_u4.
  repeat never_sets_ok_step.
Qed.

Lemma never_sets_ok_read_constant_pool_entry (e : cp_info) :
  never_sets_ok (read_constant_pool_entry e).
Proof.
  pose proof never_sets_ok_safe_fread. pose proof never_sets_ok_read_u1.
  pose proof never_sets_ok_read_u2. pose proof never_sets_ok_read_u4.
  unfold read_constant_pool_entry, utf8_case, after_switch.
  repeat never_sets_ok_step.
Qed.

(** X3. The functions that are handed [bool *ok] only ever clear it:
    entered with [ok] cleared, [read_u1], [read_u2], [read_u4] and
    [read_constant_pool_entry] return with [ok] cleared, whatever they
    read.  One test of [ok] after several reads therefore catches a
    failure of any of them. *)
Theorem readers_never_set_ok (s : state) :
  ok s = false ->
  ok (snd (read_u1 s)) = false
  /\ ok (snd (read_u2 s)) = false
  /\ ok (snd (read_u4 s)) = false
  /\ forall e, ok (snd (read_constant_pool_entry e s)) = false.
Proof.
  intros Hs. split; [|split; [|split]].
  - now apply never_sets_ok_read_u1.
  - now apply never_sets_ok_read_u2.
  - now apply never_sets_ok_read_u4.
  - intros e. now apply never_sets_ok_read_constant_pool_entry.
Qed.

Lemma readers_never_set_ok_witness :
  ok (snd (read_u2 (set_ok false (initial_state [x00; x07; x00; x01]))))
  = false
  /\ ok (snd (read_constant_pool_entry cp_zero
                (set_ok false (initial_state [x07; x00; x01]))))
     = false.
Proof.
  pose proof (readers_never_set_ok
                (set_ok false (initial_state [x00; x07; x00; x01]))
                eq_refl) as (_ & H2 & _).
  split; [exact H2|].
  exact (proj2 (proj2 (proj2
           (readers_never_set_ok
              (set_ok false (initial_state [x07; x00; x01])) eq_refl)))
           cp_zero).
Defined.


(** ** One pool entry *)

(** X4. A string entry: tag 1, a 2-byte length and that many bytes.
    The buffer is requested with one byte more than the declared
    length, filled with the content as it stands in the file and closed
    with a NUL byte; the decoder returns 1 and has consumed the three
    header bytes and the content, an empty string included.  When the
    file ends before the content does, the buffer has been requested
    all the same, the bytes that were there are consumed, and the
    decoder returns 0 with [ok] cleared. *)
Theorem string_entry_is_stored_with_terminator
    (s : state) (e : cp_info) (t a b : byte) (content : list byte) :
  ok s = true -> byte_val t = CONSTANT_Utf8 ->
  (forall rest,
     cursor s (t :: a :: b :: content ++ rest) ->
     be_value [a; b] = Z.of_nat (List.length content) ->
     read_constant_pool_entry e s
     = (Done (1, utf8_entry content),
        add_alloc (Z.of_nat (List.length content) + 1)
          (advance (3 + Z.of_nat (List.length content)) s)))
  /\ (cursor s (t :: a :: b :: content) ->
      Z.of_nat (List.length content) < be_value [a; b] ->
      read_constant_pool_entry e s
      = (Done (0, mk_cp_info CONSTANT_Utf8
                    (utf8_info (be_value [a; b]) content)),
         short_read (Z.of_nat (List.length content))
           (add_alloc (be_value [a; b] + 1) (advance 3 s)))).
Proof.
  intros Hok Ht. split.
  - intros rest Hc Hlen.
    rewrite (entry_utf8 s e t a b content rest Hc Hok Ht Hlen).
    unfold utf8_entry. now rewrite Hlen.
  - intros Hc Hlen. enter_entry Hc Hok. rewrite Ht. unfold_tags.
    cbn [Z.eqb Pos.eqb]. step_u2 Hc. step_pure.
    rewrite ?advance_advance. cbn [ok advance set_fpos]. rewrite Hok.
    cbn [negb]. unfold utf8_case.
    pose proof (be_value_2_range a b) as Hr.
    destruct (Z.gtb_spec (be_value [a; b]) MAX_STRING_LENGTH) as [Hgt|_];
      [unfold MAX_STRING_LENGTH in Hgt; lia|].
    step_pure.
    match goal with
    | |- context [bind (safe_fread 1 ?n) ?f ?s1] =>
        assert (Hc1 : cursor s1 content) by exact Hc;
        rewrite (bind_done _ _ _ _ _
                   (safe_fread_short s1 1 n content Hc1 ltac:(lia)
                      ltac:(lia)))
    end.
    cbn [fst snd Z.eqb]. step_pure. reflexivity.
Qed.

Lemma string_entry_is_stored_with_terminator_witness :
  read_constant_pool_entry cp_zero
    (initial_state [x01; x00; x04; x43; x6f; x64; x65; x07])
  = (Done (1, utf8_entry Code_text),
     add_alloc 5
       (advance 7 (initial_state [x01; x00; x04; x43; x6f; x64; x65; x07])))
  /\ read_constant_pool_entry cp_zero (initial_state [x01; x00; x00])
     = (Done (1, utf8_entry []),
        add_alloc 1 (advance 3 (initial_state [x01; x00; x00])))
  /\ read_constant_pool_entry cp_zero
       (initial_state [x01; x00; x04; x43; x6f])
     = (Done (0, mk_cp_info CONSTANT_Utf8 (utf8_info 4 [x43; x6f])),
        short_read 2
          (add_alloc 5 (advance 3 (initial_state [x01; x00; x04; x43; x6f])))).
Proof.
  split; [|split].
  - exact (proj1 (string_entry_is_stored_with_terminator
                    (initial_state [x01; x00; x04; x43; x6f; x64; x65; x07])
                    cp_zero x01 x00 x04 Code_text eq_refl eq_refl)
             [x07] (cursor_initial _) eq_refl).
  - exact (proj1 (string_entry_is_stored_with_terminator
                    (initial_state [x01; x00; x00])
                    cp_zero x01 x00 x00 [] eq_refl eq_refl)
             [] (cursor_initial _) eq_refl).
  - exact (proj2 (string_entry_is_stored_with_terminator
                    (initial_state [x01; x00; x04; x43; x6f])
                    cp_zero x01 x00 x04 [x43; x6f] eq_refl eq_refl)
             (cursor_initial _) eq_refl).
Defined.

Lemma read_constant_pool_entry_returns (e : cp_info) (s : state) :
  exists r s', read_constant_pool_entry e s = (Done r, s').
Proof.
  pose proof (aborts_within_read_constant_pool_entry (fun _ => False) e s)
    as H.
  destruct (read_constant_pool_entry e s) as [[r|msg] s']; [eauto|destruct H].
Qed.

Lemma read_constant_pool_entry_result_and_ok (e : cp_info) (s : state) :
  ok s = true ->
  wp (read_constant_pool_entry e)
     (fun r s' =>
        (fst r = 0 /\ ok s' = false)
        \/ (fst r = 1 /\ ok s' = true /\ is_wide_tag (tag (snd r)) = false)
        \/ (fst r = 2 /\ is_wide_tag (tag (snd r)) = true)) s.
Proof.
  intros _.
  assert (Hafter : forall (e' : cp_info) s',
             is_wide_tag (tag e') = false ->
             wp (after_switch e')
                (fun r s' =>
                   (fst r = 0 /\ ok s' = false)
                   \/ (fst r = 1 /\ ok s' = true
                       /\ is_wide_tag (tag (snd r)) = false)
                   \/ (fst r = 2 /\ is_wide_tag (tag (snd r)) = true)) s').
  { intros e' s' He'. unfold after_switch. wp_pure.
    destruct (ok s') eqn:Hk; cbn [negb]; apply wp_ret;
      [right; left|left]; auto. }
  unfold read_constant_pool_entry. wp_skip. rename a into t.
  wp_pure.
  destruct (ok s') eqn:Hk; cbn [negb]; [|now apply wp_ret; left].
  unfold_tags.
  destruct (Z.eqb_spec t 7) as [->|H7];
    [wp_skip; now apply Hafter|].
  destruct (Z.eqb_spec t 1) as [->|H1].
  { wp_skip. wp_pure.
    destruct (ok s'0) eqn:Hk0; cbn [negb]; [|now apply wp_ret; left].
    unfold utf8_case.
    destruct (a >? MAX_STRING_LENGTH); [wp_pure; now apply wp_ret; left|].
    wp_pure. wp_skip.
    destruct (fst a0 =? 0); [wp_pure; now apply wp_ret; left|now apply Hafter]. }
  destruct (Z.eqb_spec t 3) as [->|H3];
    [wp_skip; now apply Hafter|].
  destruct (Z.eqb_spec t 8) as [->|H8];
    [wp_skip; now apply Hafter|].
  destruct (Z.eqb_spec t 9) as [->|H9];
    [wp_skip; wp_skip; now apply Hafter|].
  destruct (Z.eqb_spec t 10) as [->|H10];
    [wp_skip; wp_skip; now apply Hafter|].
  destruct (Z.eqb_spec t 11) as [->|H11];
    [wp_skip; wp_skip; now apply Hafter|].
  cbn [orb].
  destruct (Z.eqb_spec t 12) as [->|H12];
    [wp_skip; wp_skip; now apply Hafter|].
  destruct (Z.eqb_spec t 5) as [->|H5];
    [wp_skip; wp_skip; apply wp_ret; now right; right|].
  destruct (Z.eqb_spec t 6) as [->|H6];
    [wp_skip; wp_skip; apply wp_ret; now right; right|].
  cbn [orb]. apply Hafter. cbn [tag]. unfold is_wide_tag. unfold_tags.
  destruct (Z.eqb_spec t 5); [contradiction|].
  destruct (Z.eqb_spec t 6); [contradiction|reflexivity].
Qed.

(** X5. What the [int] result of [read_constant_pool_entry] says.
    The decoder always returns (it has no [return NULL]); entered with
    [ok] set, it returns 0 exactly when it leaves [ok] cleared, and 1
    with [ok] still set, except for the tags of the 8-byte literals, for
    which it returns 2 whether the reads succeeded or not: when the
    eight bytes are not all there the result is 2 and the failure shows
    in [ok] alone. *)
Theorem entry_result_and_ok_flag (e : cp_info) (s : state) :
  ok s = true ->
  (exists r s',
     read_constant_pool_entry e s = (Done r, s')
     /\ ((fst r = 0 /\ ok s' = false)
         \/ (fst r = 1 /\ ok s' = true /\ is_wide_tag (tag (snd r)) = false)
         \/ (fst r = 2 /\ is_wide_tag (tag (snd r)) = true)))
  /\ (forall t bs,
        cursor s (t :: bs) -> is_wide_tag (byte_val t) = true ->
        (List.length bs < 8)%nat ->
        exists r s',
          read_constant_pool_entry e s = (Done r, s')
          /\ fst r = 2 /\ tag (snd r) = byte_val t /\ ok s' = false).
Proof.
  intros Hok. split.
  - destruct (read_constant_pool_entry_returns e s) as (r & s' & Hrun).
    exists r, s'. split; [exact Hrun|].
    exact (wp_done _ _ _ _ _
             (read_constant_pool_entry_result_and_ok e s Hok) Hrun).
  - intros t bs Hc Ht Hlen. enter_entry Hc Hok.
    assert (Hcase : forall s1,
               cursor s1 bs ->
               exists r s',
                 bind read_u4
                   (fun h => bind read_u4
                      (fun l => ret (2, mk_cp_info (byte_val t)
                                          (long_info h l)))) s1
                 = (Done r, s')
                 /\ fst r = 2 /\ tag (snd r) = byte_val t /\ ok s' = false).
    { intros s1 Hc1.
      destruct (Nat.lt_ge_cases (List.length bs) 4) as [Hlt|Hge].
      - rewrite (bind_done _ _ _ _ _ (read_u4_short s1 bs Hc1 Hlt)).
        pose proof (never_sets_ok_read_u4
                      (short_read (Z.of_nat (List.length bs)) s1) eq_refl)
          as Hk.
        unfold bind.
        destruct (read_u4 (short_read (Z.of_nat (List.length bs)) s1))
          as [[l|msg] s2] eqn:Hrun.
        + eexists _, _. split; [reflexivity|]. cbn in *. auto.
        + pose proof (aborts_within_read_u4 (fun _ => False)
                        (short_read (Z.of_nat (List.length bs)) s1)) as Hab.
          rewrite Hrun in Hab. destruct Hab.
      - destruct bs as [|h0 [|h1 [|h2 [|h3 tl]]]]; cbn in Hge; try lia.
        step_u4 Hc1.
        rewrite (bind_done _ _ _ _ _
                   (read_u4_short _ tl Hc1 ltac:(cbn in Hlen; lia))).
        eexists _, _. split; [reflexivity|]. cbn. auto. }
    unfold is_wide_tag in Ht. apply orb_true_iff in Ht.
    destruct Ht as [Ht|Ht]; apply Z.eqb_eq in Ht; rewrite Ht in *;
      unfold_tags; cbn [Z.eqb Pos.eqb orb]; now apply Hcase.
Qed.

Lemma entry_result_and_ok_flag_witness :
  exists r s',
    read_constant_pool_entry cp_zero
      (initial_state [x05; x00; x00; x00; x01; x00]) = (Done r, s')
    /\ fst r = 2 /\ tag (snd r) = 5 /\ ok s' = false.
Proof.
  exact (proj2 (entry_result_and_ok_flag cp_zero
                  (initial_state [x05; x00; x00; x00; x01; x00]) eq_refl)
           x05 [x00; x00; x00; x01; x00] (cursor_initial _) eq_refl
           ltac:(cbn; lia)).
Defined.


(** ** The pool loop *)

(** X6. When the pool loop fails, the message names the slot whose
    entry could not be decoded.  The loop had accepted every entry
    before it and stood at an index [j] below the count; there the entry
    decoder returned 0 or left [ok] cleared; the loop returns [NULL]
    with "Failed reading constant pool entry at index [j]", printed as
    the last line after what the entry decoder printed.  Conversely,
    when the entry decoder fails at the index the loop has come to, the
    loop returns [NULL] with the message for that index. *)
Theorem pool_failure_names_the_slot (count i : Z) (pool : list cp_info)
    (s : state) :
  (forall fuel e s',
     read_constant_pool fuel count i pool s = (Aborted e, s') ->
     exists j pool_j s_j r s_r,
       at_pool_entry count i pool s j pool_j s_j
       /\ i <= j < count
       /\ read_constant_pool_entry (pool_slot pool_j j) s_j = (Done r, s_r)
       /\ (ok s_r = false \/ fst r = 0)
       /\ e = msg_pool_entry_failed j
       /\ s' = add_stderr (msg_pool_entry_failed j) s_r
       /\ last (stderr s') = Some (msg_pool_entry_failed j))
  /\ (forall fuel j pool_j s_j r s_r,
        count - i <= Z.of_nat fuel ->
        at_pool_entry count i pool s j pool_j s_j ->
        j < count ->
        read_constant_pool_entry (pool_slot pool_j j) s_j = (Done r, s_r) ->
        ok s_r = false \/ fst r = 0 ->
        read_constant_pool fuel count i pool s
        = (Aborted (msg_pool_entry_failed j),
           add_stderr (msg_pool_entry_failed j) s_r)).
Proof.
  split.
  - intros fuel. revert i pool s.
    induction fuel as [|fuel IH]; intros i pool s e s';
      cbn [read_constant_pool]; destruct (Z.ltb_spec i count) as [Hi|Hi];
      cbn [negb]; try discriminate.
    destruct (read_constant_pool_entry_returns (pool_slot pool i) s)
      as (r & s1 & Hrun).
    pose proof (wp_done _ _ _ _ _
                  (read_constant_pool_entry_result (pool_slot pool i) s) Hrun)
      as Hres.
    rewrite (bind_done _ _ _ _ _ Hrun). step_pure.
    destruct (negb (ok s1) || (fst r =? 0)) eqn:Hfail.
    + intros Hab. injection Hab as <- <-.
      exists i, pool, s, r, s1. split; [constructor|]. split; [lia|].
      split; [exact Hrun|]. split.
      { apply orb_true_iff in Hfail. destruct Hfail as [H|H].
        - left. now apply negb_true_iff in H.
        - right. now apply Z.eqb_eq in H. }
      split; [reflexivity|]. split; [reflexivity|].
      cbn [stderr add_stderr]. apply last_snoc.
    + apply orb_false_iff in Hfail. destruct Hfail as [Hk Hnz].
      apply negb_false_iff in Hk. apply Z.eqb_neq in Hnz. intros Hab.
      destruct (IH _ _ _ _ _ Hab)
        as (j & pool_j & s_j & r' & s_r & Hat & Hj & He & Hbad & Hrest).
      exists j, pool_j, s_j, r', s_r.
      split; [exact (at_later_entry _ _ _ _ _ _ _ _ _ Hi Hrun Hk Hnz Hat)|].
      split; [|now split].
      destruct Hres as [?|[[? _]|[? _]]]; lia.
  - intros fuel j pool_j s_j r s_r Hfuel Hat. revert fuel Hfuel.
    induction Hat as [i pool s|i pool s r1 s1 j pool_j s_j Hi Hrun Hk Hnz _ IH];
      intros fuel Hfuel Hj He Hbad.
    + destruct fuel as [|fuel]; [lia|].
      exact (read_constant_pool_entry_failure fuel count i pool s s_r r
               Hj He Hbad).
    + destruct fuel as [|fuel]; [lia|].
      pose proof (wp_done _ _ _ _ _
                    (read_constant_pool_entry_result (pool_slot pool i) s)
                    Hrun) as Hres.
      destruct r1 as [step e1]. cbn [fst snd] in *.
      rewrite (read_constant_pool_step fuel count i pool s s1 step e1
                 Hi Hrun Hk Hnz).
      apply IH; try assumption.
      destruct Hres as [?|[[? _]|[? _]]]; cbn [fst] in *; lia.
Qed.

Lemma pool_failure_names_the_slot_witness :
  (exists j pool_j s_j r s_r,
    at_pool_entry 3 1 (replicate 3 cp_zero)
      (initial_state [x07; x00; x02; x07; x00]) j pool_j s_j
    /\ 1 <= j < 3
    /\ read_constant_pool_entry (pool_slot pool_j j) s_j = (Done r, s_r)
    /\ (ok s_r = false \/ fst r = 0)
    /\ msg_pool_entry_failed 2 = msg_pool_entry_failed j
    /\ snd (read_constant_pool 2 3 1 (replicate 3 cp_zero)
              (initial_state [x07; x00; x02; x07; x00]))
       = add_stderr (msg_pool_entry_failed j) s_r
    /\ last (stderr (snd (read_constant_pool 2 3 1 (replicate 3 cp_zero)
                            (initial_state [x07; x00; x02; x07; x00]))))
       = Some (msg_pool_entry_failed j))
  /\ fst (read_constant_pool 5 3 1 (replicate 3 cp_zero)
            (initial_state [x07; x00; x02; x07; x00]))
     = Aborted (msg_pool_entry_failed 2).
Proof.
  split.
  - exact (proj1 (pool_failure_names_the_slot 3 1 (replicate 3 cp_zero)
                    (initial_state [x07; x00; x02; x07; x00]))
             2%nat _ _ eq_refl).
  - erewrite (proj2 (pool_failure_names_the_slot 3 1 (replicate 3 cp_zero)
                       (initial_state [x07; x00; x02; x07; x00]))
                5%nat 2); [reflexivity|lia| |lia| |].
    + eapply at_later_entry; [lia|vm_compute; reflexivity|reflexivity
                             |discriminate|].
      apply at_this_entry.
    + vm_compute. reflexivity.
    + left. reflexivity.
Defined.

(** X19. The pool loop ends.  Every entry that the loop accepts moves
    the index forward by 1 or 2, so that at most [count - i] iterations
    follow from index [i]: given that many, the loop returns the same
    table or the same failure however many more it is allowed.  The
    [count] iterations that [read_pool] allows from index 1 are
    therefore never used up. *)
Theorem pool_loop_ends (count : Z) (pool : list cp_info) (s : state) :
  (forall fuel1 fuel2 i,
     count - i <= Z.of_nat fuel1 -> count - i <= Z.of_nat fuel2 ->
     read_constant_pool fuel1 count i pool s
     = read_constant_pool fuel2 count i pool s)
  /\ (forall more,
        read_constant_pool (Z.to_nat count) count 1 pool s
        = read_constant_pool (Z.to_nat count + more) count 1 pool s).
Proof.
  split.
  - intros fuel1 fuel2 i H1 H2. now apply read_constant_pool_fuel.
  - intros more. destruct (Z.le_gt_cases count 1) as [Hle|Hgt].
    + now rewrite !read_constant_pool_exit by exact Hle.
    + apply read_constant_pool_fuel; lia.
Qed.

Lemma pool_loop_ends_witness :
  read_constant_pool 2 3 1 (replicate 3 cp_zero)
    (initial_state [x05; x00; x00; x00; x00; x00; x00; x00; x01; x07])
  = read_constant_pool 7 3 1 (replicate 3 cp_zero)
      (initial_state [x05; x00; x00; x00; x00; x00; x00; x00; x01; x07]).
Proof.
  exact (proj1 (pool_loop_ends 3 (replicate 3 cp_zero)
                  (initial_state
                     [x05; x00; x00; x00; x00; x00; x00; x00; x01; x07]))
           2%nat 7%nat 1 ltac:(lia) ltac:(lia)).
Defined.

(** X7. A declared pool count of 0 or 1 leaves nothing to decode: the
    table is requested with that many slots, the loop body is not
    entered, and the next field is read right after the count. *)
Theorem pool_without_entries (s : state) (a b : byte) (rest : list byte) :
  cursor s (a :: b :: rest) -> ok s = true -> be_value [a; b] <= 1 ->
  read_pool s
  = (Done (be_value [a; b], replicate (Z.to_nat (be_value [a; b])) cp_zero),
     add_alloc (be_value [a; b] * sizeof_cp_info) (advance 2 s))
  /\ cursor (add_alloc (be_value [a; b] * sizeof_cp_info) (advance 2 s)) rest.
Proof.
  intros Hc Hok Hle. unfold read_pool. step_u2 Hc. step_pure.
  rewrite ok_advance, Hok. cbn [negb orb].
  destruct (Z.gtb_spec (be_value [a; b]) MAX_CONSTANT_POOL_SIZE) as [Hgt|_];
    [unfold MAX_CONSTANT_POOL_SIZE in Hgt; lia|].
  step_pure.
  rewrite (bind_done _ _ _ _ _
             (read_constant_pool_exit (Z.to_nat (be_value [a; b]))
                (be_value [a; b]) 1 _ _ Hle)).
  split; [reflexivity|exact Hc].
Qed.

Lemma pool_without_entries_witness :
  read_pool (initial_state [x00; x00; x00; x21])
  = (Done (0, []), add_alloc 0 (advance 2 (initial_state [x00; x00; x00; x21])))
  /\ read_pool (initial_state [x00; x01; x00; x21])
     = (Done (1, [cp_zero]),
        add_alloc 24 (advance 2 (initial_state [x00; x01; x00; x21]))).
Proof.
  split.
  - exact (proj1 (pool_without_entries (initial_state [x00; x00; x00; x21])
                    x00 x00 [x00; x21] (cursor_initial _) eq_refl
                    ltac:(vm_compute; discriminate))).
  - exact (proj1 (pool_without_entries (initial_state [x00; x01; x00; x21])
                    x00 x01 [x00; x21] (cursor_initial _) eq_refl
                    ltac:(vm_compute; discriminate))).
Defined.

(** ** Interfaces and fields *)

(** X8. The interface table is stepped over, not read: after the count
    [n] the position moves by [2 * n] in one seek, whatever bytes are
    there and whether or not the file has that many; nothing is printed
    or allocated and only the count is kept. *)
Theorem interfaces_are_stepped_over (s : state) (a b : byte)
    (rest : list byte) :
  cursor s (a :: b :: rest) -> ok s = true ->
  skip_interfaces s
  = (Done (be_value [a; b]), advance (2 + 2 * be_value [a; b]) s)
  /\ cursor (advance (2 + 2 * be_value [a; b]) s)
       (drop (Z.to_nat (2 * be_value [a; b])) rest).
Proof.
  intros Hc Hok. unfold skip_interfaces. step_u2 Hc. step_pure.
  rewrite ok_advance, Hok. cbn [negb].
  pose proof (be_value_2_range a b) as Hr.
  destruct (Z.gtb_spec (be_value [a; b]) 0) as [Hpos|Hz].
  - step_pure. cbn [Z.eqb negb]. rewrite advance_advance.
    replace (be_value [a; b] * 2) with (2 * be_value [a; b]) by lia.
    split; [reflexivity|].
    apply (cursor_seek _ _ (2 * be_value [a; b])) in Hc; [|lia].
    now rewrite advance_advance in Hc.
  - replace (be_value [a; b]) with 0 by lia. split; [reflexivity|exact Hc].
Qed.

Lemma interfaces_are_stepped_over_witness :
  skip_interfaces (initial_state [x00; x02; x00; x05; x00; x06; x00; x00])
  = (Done 2,
     advance 6 (initial_state [x00; x02; x00; x05; x00; x06; x00; x00]))
  /\ skip_interfaces (initial_state [x00; x02; x00])
     = (Done 2, advance 6 (initial_state [x00; x02; x00])).
Proof.
  split.
  - exact (proj1 (interfaces_are_stepped_over
                    (initial_state [x00; x02; x00; x05; x00; x06; x00; x00])
                    x00 x02 [x00; x05; x00; x06; x00; x00]
                    (cursor_initial _) eq_refl)).
  - exact (proj1 (interfaces_are_stepped_over
                    (initial_state [x00; x02; x00])
                    x00 x02 [x00] (cursor_initial _) eq_refl)).
Defined.

Lemma fields_size_nonneg (n : nat) (bs : list byte) : 0 <= fields_size n bs.
Proof.
  revert bs. induction n as [|n IH]; intros bs; cbn [fields_size]; [lia|].
  destruct bs as [|? [|? [|? [|? [|? [|? [|c0 [|c1 tl]]]]]]]]; try lia.
  destruct (attributes_end _ tl) as [tl'|]; [|lia].
  pose proof (attributes_size_nonneg (Z.to_nat (be_value [c0; c1])) tl).
  specialize (IH tl'). lia.
Qed.

Lemma skip_fields_layout (n : nat) (s : state) (bs rest : list byte) :
  cursor s bs -> ok s = true -> fields_end n bs = Some rest ->
  skip_fields n s = (Done tt, advance (fields_size n bs) s)
  /\ cursor (advance (fields_size n bs) s) rest.
Proof.
  revert s bs. induction n as [|n IH]; intros s bs Hc Hok Hend;
    cbn [fields_end fields_size skip_fields] in *.
  - injection Hend as <-. rewrite advance_0. now split.
  - destruct bs as [|f0 [|f1 [|f2 [|f3 [|f4 [|f5 [|c0 [|c1 tl]]]]]]]];
      try discriminate.
    destruct (attributes_end (Z.to_nat (be_value [c0; c1])) tl) as [tl'|]
      eqn:Hattr; [|discriminate].
    step_u2 Hc. step_u2 Hc. step_u2 Hc. step_u2 Hc. step_pure.
    rewrite ok_advance, Hok. cbn [negb].
    destruct (skip_attributes_layout msg_field_attribute_unreadable
                msg_seek_field_attribute _ _ _ _ Hc Hok Hattr)
      as [Hrun Hc2].
    rewrite (bind_done _ _ _ _ _ Hrun).
    destruct (IH _ _ Hc2 Hok Hend) as [Hrun2 Hc3].
    rewrite !advance_advance in *.
    assert (E : forall x y, x = y -> advance x s = advance y s)
      by (intros; subst; reflexivity).
    split.
    + rewrite Hrun2. apply (f_equal (pair (Done tt))). apply E. lia.
    + erewrite E; [exact Hc3|lia].
Qed.

(** X9. Fields leave no trace but their count.  On a field table laid
    out as the format has it (per field four 2-byte items, the last one
    the number of attributes, each attribute a 2-byte name index, a
    4-byte length and a payload of that length) the decoder returns the
    count and stands behind the last field; nothing is stored, printed
    or allocated, and no name index of a field or of its attributes is
    compared with the pool. *)
Theorem fields_leave_only_their_count (s : state) (a b : byte)
    (bs rest : list byte) :
  cursor s (a :: b :: bs) -> ok s = true ->
  fields_end (Z.to_nat (be_value [a; b])) bs = Some rest ->
  read_fields s
  = (Done (be_value [a; b]),
     advance (2 + fields_size (Z.to_nat (be_value [a; b])) bs) s)
  /\ cursor (advance (2 + fields_size (Z.to_nat (be_value [a; b])) bs) s) rest.
Proof.
  intros Hc Hok Hend. unfold read_fields. step_u2 Hc. step_pure.
  rewrite ok_advance, Hok. cbn [negb].
  destruct (skip_fields_layout _ _ _ _ Hc Hok Hend) as [Hrun Hc2].
  rewrite (bind_done _ _ _ _ _ Hrun), advance_advance in *.
  now split.
Qed.

Lemma fields_leave_only_their_count_witness :
  read_fields
    (initial_state
       [x00; x01; x00; x02; xff; xff; xff; xfe; x00; x01;
        xff; xfd; x00; x00; x00; x02; xaa; xbb; x00; x00])
  = (Done 1,
     advance 18
       (initial_state
          [x00; x01; x00; x02; xff; xff; xff; xfe; x00; x01;
           xff; xfd; x00; x00; x00; x02; xaa; xbb; x00; x00])).
Proof.
  exact (proj1 (fields_leave_only_their_count
                  (initial_state
                     [x00; x01; x00; x02; xff; xff; xff; xfe; x00; x01;
                      xff; xfd; x00; x00; x00; x02; xaa; xbb; x00; x00])
                  x00 x01
                  [x00; x02; xff; xff; xff; xfe; x00; x01;
                   xff; xfd; x00; x00; x00; x02; xaa; xbb; x00; x00]
                  [x00; x00] (cursor_initial _) eq_refl eq_refl)).
Defined.


(** ** Method attributes *)

Lemma byte_val_inj (x y : byte) : byte_val x = byte_val y -> x = y.
Proof.
  unfold byte_val. intros H. apply N2Z.inj in H.
  pose proof (Byte.of_to_N x) as Hx. rewrite H, Byte.of_to_N in Hx.
  now injection Hx.
Qed.

Lemma strcmp_cons (x y : byte) (a b : list byte) :
  byte_val y <> 0 ->
  strcmp (x :: a) (y :: b) = 0 <-> x = y /\ strcmp a b = 0.
Proof.
  intros Hy. cbn [strcmp].
  destruct (Z.eqb_spec (byte_val x) (byte_val y)) as [Heq|Hne].
  - apply byte_val_inj in Heq. subst y.
    destruct (Z.eqb_spec (byte_val x) 0); [contradiction|]. tauto.
  - split; [lia|]. intros [-> _]. contradiction.
Qed.

Lemma strcmp_end (a : list byte) :
  strcmp (a ++ [x00]) [x00] = 0 <-> a = [] \/ exists tail, a = x00 :: tail.
Proof.
  destruct a as [|x a]; cbn [app strcmp].
  - cbn. tauto.
  - change (byte_val x00) with 0.
    destruct (Z.eqb_spec (byte_val x) 0) as [Hz|Hnz].
    + apply (byte_val_inj x x00) in Hz. subst x. split; [eauto|reflexivity].
    + split; [lia|]. intros [?|[tail Ht]]; [discriminate|].
      injection Ht as -> _. now destruct Hnz.
Qed.

(** X10. Which names make an attribute a Code attribute.  For a string
    entry as the decoder stores it, the test [tag == CONSTANT_Utf8 &&
    strcmp(bytes, "Code") == 0] holds exactly when the content is the
    four bytes of "Code" or starts with them followed by a NUL byte,
    since [strcmp] stops at the first NUL; a slot with another tag never
    passes the test. *)
Theorem Code_name_test_characterised :
  (forall content,
     is_Code_name (utf8_entry content) = true
     <-> content = Code_text
         \/ exists tail, content = Code_text ++ x00 :: tail)
  /\ (forall e, tag e <> CONSTANT_Utf8 -> is_Code_name e = false).
Proof.
  split.
  - intros content. unfold is_Code_name, utf8_entry, utf8_bytes, Code_literal.
    cbn [tag info]. rewrite Z.eqb_refl. cbn [andb]. rewrite Z.eqb_eq.
    unfold Code_text.
    destruct content as [|c0 [|c1 [|c2 [|c3 rest]]]]; cbn [app];
      rewrite ?strcmp_cons by (cbn; discriminate).
    + split; [intros [H _]; discriminate|].
      intros [?|[? ?]]; discriminate.
    + split; [intros (_ & H & _); discriminate|].
      intros [?|[? ?]]; discriminate.
    + split; [intros (_ & _ & H & _); discriminate|].
      intros [?|[? ?]]; discriminate.
    + split; [intros (_ & _ & _ & H & _); discriminate|].
      intros [?|[? ?]]; discriminate.
    + rewrite strcmp_end. split.
      * intros (-> & -> & -> & -> & [->|[tail ->]]); eauto.
      * intros [H|[tail H]]; injection H as -> -> -> -> ->;
          repeat split; eauto.
  - intros e He. unfold is_Code_name.
    destruct (Z.eqb_spec (tag e) CONSTANT_Utf8); [contradiction|reflexivity].
Qed.

Lemma Code_name_test_characterised_witness :
  is_Code_name (utf8_entry (Code_text ++ [x00; x58])) = true
  /\ is_Code_name (mk_cp_info CONSTANT_Class (class_info 1)) = false.
Proof.
  split.
  - apply (proj1 Code_name_test_characterised). right. now exists [x58].
  - apply (proj2 Code_name_test_characterised). discriminate.
Defined.

(** X11. The instruction buffer is requested before its content is
    read, with the declared [code_length] as it stands (any 32-bit
    value: there is no ceiling): when the file holds fewer bytes than
    declared, both the [code_attribute] and the buffer have been
    requested, the bytes that were there are consumed, and the decoder
    returns [NULL] with "Unexpected end of file." followed by "Could not
    read code bytes." on [stderr]; [ok] is left as it was. *)
Theorem code_buffer_requested_before_read (m : method_info) (s : state)
    (s0 s1 m0 m1 c0 c1 c2 c3 : byte) (code : list byte) :
  cursor s (s0 :: s1 :: m0 :: m1 :: c0 :: c1 :: c2 :: c3 :: code) ->
  ok s = true ->
  Z.of_nat (List.length code) < be_value [c0; c1; c2; c3] ->
  exists s',
    read_code_attribute m s = (Aborted msg_code_bytes_unreadable, s')
    /\ allocs s'
       = allocs s ++ [sizeof_code_attribute; be_value [c0; c1; c2; c3]]
    /\ stderr s'
       = stderr s ++ [msg_unexpected_eof; msg_code_bytes_unreadable]
    /\ fpos s' = fpos s + 8 + Z.of_nat (List.length code)
    /\ ok s' = true.
Proof.
  intros Hc Hok Hlen. unfold read_code_attribute. step_pure.
  assert (Hc' : cursor (add_alloc (1 * sizeof_code_attribute) s)
                  (s0 :: s1 :: m0 :: m1 :: c0 :: c1 :: c2 :: c3 :: code))
    by exact Hc.
  step_u2 Hc'. step_u2 Hc'. step_u4 Hc'. step_pure.
  cbn [ok advance set_fpos add_alloc]. rewrite Hok. cbn [negb]. step_pure.
  match goal with
  | |- context [bind (safe_fread 1 ?n) ?f ?st] =>
      assert (Hc1 : cursor st code) by exact Hc';
      rewrite (bind_done _ _ _ _ _
                 (safe_fread_short st 1 n code Hc1 ltac:(lia) ltac:(lia)))
  end.
  cbn [fst snd Z.eqb]. eexists. split; [reflexivity|].
  cbn [allocs stderr fpos ok add_stderr add_alloc advance set_fpos].
  rewrite <- !app_assoc. cbn [app]. rewrite Hok.
  repeat split; lia.
Qed.

Lemma code_buffer_requested_before_read_witness :
  exists s',
    read_code_attribute method_before_Code
      (initial_state [x00; x02; x00; x03; xff; xff; xff; xff; x2a])
    = (Aborted msg_code_bytes_unreadable, s')
    /\ allocs s' = [] ++ [sizeof_code_attribute; 4294967295]
    /\ stderr s' = [] ++ [msg_unexpected_eof; msg_code_bytes_unreadable]
    /\ fpos s' = 0 + 8 + 1
    /\ ok s' = true.
Proof.
  exact (code_buffer_requested_before_read method_before_Code
           (initial_state [x00; x02; x00; x03; xff; xff; xff; xff; x2a])
           x00 x02 x00 x03 xff xff xff xff [x2a]
           (cursor_initial _) eq_refl eq_refl).
Defined.


(** ** Memory: what is requested and what a returned [ClassFile] holds *)

Lemma keeps_allocs_ret {A} (a : A) : keeps_allocs (ret a).
Proof. intros s. reflexivity. Qed.

Lemma keeps_allocs_bind {A B} (m : M A) (f : A -> M B) :
  keeps_allocs m -> (forall a, keeps_allocs (f a)) -> keeps_allocs (bind m f).
Proof.
  intros Hm Hf s. unfold bind. specialize (Hm s).
  destruct (m s) as [[a|e] s']; cbn [snd] in *; [|exact Hm].
  now rewrite Hf.
Qed.

Lemma keeps_allocs_if {A} (c : bool) (m1 m2 : M A) :
  keeps_allocs m1 -> keeps_allocs m2 -> keeps_allocs (if c then m1 else m2).
Proof. now destruct c. Qed.

Lemma keeps_allocs_error {A} (e : diagnostic) :
  keeps_allocs (@ERROR_AND_CLEANUP A e).
Proof. intros s. reflexivity. Qed.

Lemma keeps_allocs_get_ok : keeps_allocs get_ok.
Proof. intros s. reflexivity. Qed.

Lemma keeps_allocs_put_ok (b : bool) : keeps_allocs (put_ok b).
Proof. intros s. reflexivity. Qed.

Lemma keeps_allocs_fprintf_stderr (d : diagnostic) :
  keeps_allocs (fprintf_stderr d).
Proof. intros s. reflexivity. Qed.

Lemma keeps_allocs_fseek_cur (n : Z) : keeps_allocs (fseek_cur n).
Proof. intros s. reflexivity. Qed.

Lemma keeps_allocs_fread (size count : Z) : keeps_allocs (fread size count).
Proof. intros s. reflexivity. Qed.

Ltac keeps_allocs_step :=
  first
    [ apply keeps_allocs_ret | apply keeps_allocs_error
    | apply keeps_allocs_get_ok | apply keeps_allocs_put_ok
    | apply keeps_allocs_fprintf_stderr | apply keeps_allocs_fseek_cur
    | apply keeps_allocs_fread
    | assumption
    | match goal with
      | H : context [keeps_allocs] |- keeps_allocs _ => solve [apply H]
      end
    | apply keeps_allocs_if
    | apply keeps_allocs_bind; [|intros ?] ].

Lemma keeps_allocs_safe_fread (size count : Z) :
  keeps_allocs (safe_fread size count).
Proof. unfold safe_fread. repeat keeps_allocs_step. Qed.

Lemma keeps_allocs_read_u1 : keeps_allocs read_u1.
Proof.
  pose proof keeps_allocs_safe_fread. unfold read_u1.
  repeat keeps_allocs_step.
Qed.

Lemma keeps_allocs_read_u2 : keeps_allocs read_u2.
Proof.
  pose proof keeps_allocs_safe_fread. unfold read_u2.
  repeat keeps_allocs_step.
Qed.

Lemma keeps_allocs_read_u4 : keeps_allocs read_u4.
Proof.
  pose proof keeps_allocs_safe_fread. unfold read_u4.
  repeat keeps_allocs_step.
Qed.

Lemma keeps_allocs_skip_attributes (e1 e2 : diagnostic) (n : nat) :
  keeps_allocs (skip_attributes e1 e2 n).
Proof.
  pose proof keeps_allocs_read_u2. pose proof keeps_allocs_read_u4.
  induction n as [|n IH]; cbn [skip_attributes]; repeat keeps_allocs_step.
Qed.

Lemma keeps_allocs_skip_fields (n : nat) : keeps_allocs (skip_fields n).
Proof.
  pose proof keeps_allocs_read_u2. pose proof keeps_allocs_skip_attributes.
  induction n as [|n IH]; cbn [skip_fields]; repeat keeps_allocs_step.
Qed.

Lemma keeps_allocs_skip_code_tail : keeps_allocs skip_code_tail.
Proof.
  pose proof keeps_allocs_read_u2. pose proof keeps_allocs_skip_attributes.
  unfold skip_code_tail. repeat keeps_allocs_step.
Qed.

Lemma keeps_allocs_read_magic : keeps_allocs read_magic.
Proof.
  pose proof keeps_allocs_read_u4. unfold read_magic.
  repeat keeps_allocs_step.
Qed.

Lemma keeps_allocs_read_version : keeps_allocs read_version.
Proof.
  pose proof keeps_allocs_read_u2. unfold read_version.
  repeat keeps_allocs_step.
Qed.

Lemma keeps_allocs_read_class_header : keeps_allocs read_class_header.
Proof.
  pose proof keeps_allocs_read_u2. unfold read_class_header.
  repeat keeps_allocs_step.
Qed.

Lemma keeps_allocs_skip_interfaces : keeps_allocs skip_interfaces.
Proof.
  pose proof keeps_allocs_read_u2. unfold skip_interfaces.
  repeat keeps_allocs_step.
Qed.

Lemma keeps_allocs_read_fields : keeps_allocs read_fields.
Proof.
  pose proof keeps_allocs_read_u2. pose proof keeps_allocs_skip_fields.
  unfold read_fields. repeat keeps_allocs_step.
Qed.

Lemma wp_keeps_allocs {A} (m : M A) (s : state) :
  keeps_allocs m -> wp m (fun _ s' => allocs s' = allocs s) s.
Proof.
  intros H. unfold wp. specialize (H s).
  now destruct (m s) as [[a|e] s'].
Qed.

(** A call that requests no memory and whose value does not matter. *)
Ltac wp_frame H :=
  apply wp_bind; eapply wp_mono; [apply (wp_keeps_allocs _ _ H)|];
  cbv beta; intros ? ? ?.

(** [safe_fread] of single bytes delivers exactly [count] of them. *)
Lemma safe_fread_bytes (count : Z) (s : state) :
  0 <= count ->
  wp (safe_fread 1 count)
     (fun r s' => (fst r =? 0) = false ->
                  Z.of_nat (List.length (snd r)) = count
                  /\ allocs s' = allocs s) s.
Proof.
  intros Hn. unfold safe_fread, wp, bind, fread. cbn [fst snd].
  change (1 =? 0) with false. cbn match. rewrite Z.mul_1_l, !Z.div_1_r.
  destruct (Z.leb_spec (Z.of_nat (List.length (remaining s))) count)
    as [Hle|Hgt].
  - destruct (Z.ltb_spec (Z.of_nat (List.length (remaining s))) count);
      cbn; intros; [discriminate|]. split; [lia|reflexivity].
  - rewrite length_take.
    destruct (Z.ltb_spec
                (Z.of_nat (Z.to_nat count `min` List.length (remaining s)))
                count); cbn; intros; [discriminate|].
    split; [rewrite length_take; lia|reflexivity].
Qed.

Lemma string_slot_ok_other (e : cp_info) :
  tag e <> CONSTANT_Utf8 -> string_slot_ok e /\ free_utf8_bytes e = [].
Proof.
  intros Ht. split; [intros H; contradiction|].
  unfold free_utf8_bytes. now destruct (Z.eqb_spec (tag e) CONSTANT_Utf8).
Qed.

(** What an entry that the loop accepts has stored and requested. *)
Lemma read_constant_pool_entry_string (e : cp_info) (s : state) :
  wp (read_constant_pool_entry e)
     (fun r s' =>
        ok s' = true -> fst r <> 0 ->
        string_slot_ok (snd r)
        /\ allocs s' = allocs s ++ free_utf8_bytes (snd r)) s.
Proof.
  assert (Hafter : forall (e' : cp_info) s',
             tag e' <> CONSTANT_Utf8 -> allocs s' = allocs s ->
             wp (after_switch e')
                (fun r s'' =>
                   ok s'' = true -> fst r <> 0 ->
                   string_slot_ok (snd r)
                   /\ allocs s'' = allocs s ++ free_utf8_bytes (snd r)) s').
  { intros e' s' He' Ha. unfold after_switch. wp_pure.
    destruct (ok s'); cbn [negb]; apply wp_ret; cbn [fst snd];
      intros; try congruence.
    destruct (string_slot_ok_other e' He') as [H1 H2].
    split; [exact H1|]. now rewrite H2, app_nil_r. }
  unfold read_constant_pool_entry.
  wp_frame keeps_allocs_read_u1. rename a into t, H into Ha.
  wp_pure.
  destruct (ok s'); cbn [negb];
    [|apply wp_ret; cbn [fst]; intros; congruence].
  unfold_tags.
  destruct (Z.eqb_spec t 1) as [->|H1].
  { cbn [Z.eqb Pos.eqb].
    apply wp_bind. eapply wp_mono;
      [apply wp_conj; [apply (wp_keeps_allocs _ _ keeps_allocs_read_u2)
                      |apply read_u2_nonneg]|].
    cbv beta. intros len s1 [Ha1 Hlen]. wp_pure.
    destruct (ok s1); cbn [negb];
      [|apply wp_ret; cbn [fst]; intros; congruence].
    unfold utf8_case.
    destruct (len >? MAX_STRING_LENGTH);
      [wp_pure; apply wp_ret; cbn [fst]; intros; congruence|].
    wp_pure.
    apply wp_bind. eapply wp_mono; [apply (safe_fread_bytes len _ Hlen)|].
    cbv beta. intros r s2 Hr.
    destruct (fst r =? 0) eqn:Hz;
      [wp_pure; apply wp_ret; cbn [fst]; intros; congruence|].
    destruct (Hr eq_refl) as [Hbytes Ha2].
    unfold after_switch. wp_pure.
    destruct (ok s2); cbn [negb]; apply wp_ret; cbn [fst snd];
      intros; try congruence.
    split.
    - intros _. exists (snd r). unfold utf8_entry. cbn [tag].
      now rewrite Hbytes.
    - unfold free_utf8_bytes. cbn [tag info]. unfold CONSTANT_Utf8.
      cbn [Z.eqb Pos.eqb]. rewrite Ha2. cbn [allocs add_alloc].
      rewrite Ha1, Ha. do 2 f_equal.
      rewrite length_app. cbn [List.length]. lia. }
  destruct (Z.eqb_spec t 7) as [->|H7];
    [wp_frame keeps_allocs_read_u2; apply Hafter; [discriminate|congruence]|].
  cbn [Z.eqb Pos.eqb].
  destruct (Z.eqb_spec t 3) as [->|H3];
    [wp_frame keeps_allocs_read_u4; apply Hafter; [discriminate|congruence]|].
  destruct (Z.eqb_spec t 8) as [->|H8];
    [wp_frame keeps_allocs_read_u2; apply Hafter; [discriminate|congruence]|].
  assert (Hpair : forall (mk : Z -> Z -> cp_union),
             wp (let* c := read_u2 in
                 let* nt := read_u2 in
                 after_switch (mk_cp_info t (mk c nt)))
                (fun r s'' =>
                   ok s'' = true -> fst r <> 0 ->
                   string_slot_ok (snd r)
                   /\ allocs s'' = allocs s ++ free_utf8_bytes (snd r)) s').
  { intros mk. wp_frame keeps_allocs_read_u2. wp_frame keeps_allocs_read_u2.
    apply Hafter; [exact H1|congruence]. }
  destruct ((t =? 9) || (t =? 10) || (t =? 11)); [apply Hpair|].
  destruct (t =? 12); [apply Hpair|].
  destruct ((t =? 5) || (t =? 6)).
  - wp_frame keeps_allocs_read_u4. wp_frame keeps_allocs_read_u4.
    apply wp_ret. cbn [fst snd]. intros _ _.
    destruct (string_slot_ok_other (mk_cp_info t (long_info a a0)) H1)
      as [Hs Hf].
    split; [exact Hs|]. rewrite Hf, app_nil_r. congruence.
  - apply Hafter; [exact H1|exact Ha].
Qed.


Lemma free_pool_strings_app (pre pool : list cp_info) :
  free_pool_strings (pre ++ pool) (Z.of_nat (List.length pre))
    (List.length pool)
  = flat_map free_utf8_bytes pool.
Proof.
  revert pre. induction pool as [|e pool IH]; intros pre; [reflexivity|].
  cbn [List.length free_pool_strings flat_map]. f_equal.
  - unfold pool_slot. rewrite Nat2Z.id.
    now rewrite lookup_app_r, Nat.sub_diag by lia.
  - specialize (IH (pre ++ [e])). rewrite <- app_assoc in IH. cbn [app] in IH.
    rewrite length_app in IH. cbn [List.length] in IH.
    replace (Z.of_nat (List.length pre) + 1)
      with (Z.of_nat (List.length pre + 1)) by lia.
    exact IH.
Qed.

Lemma free_methods_code_app (pre ms : list method_info) :
  free_methods_code (pre ++ ms) (Z.of_nat (List.length pre)) (List.length ms)
  = flat_map free_method_code ms.
Proof.
  revert pre. induction ms as [|m ms IH]; intros pre; [reflexivity|].
  cbn [List.length free_methods_code flat_map]. f_equal.
  - unfold method_slot. rewrite Nat2Z.id.
    now rewrite lookup_app_r, Nat.sub_diag by lia.
  - specialize (IH (pre ++ [m])). rewrite <- app_assoc in IH. cbn [app] in IH.
    rewrite length_app in IH. cbn [List.length] in IH.
    replace (Z.of_nat (List.length pre) + 1)
      with (Z.of_nat (List.length pre + 1)) by lia.
    exact IH.
Qed.

Lemma flat_map_zero_slots (pool : list cp_info) :
  Forall (eq cp_zero) pool -> flat_map free_utf8_bytes pool = [].
Proof.
  induction 1 as [|e pool <- _ IH]; [reflexivity|]. exact IH.
Qed.

(** Filling slot [i], the slots from [i] on being untouched so far. *)
Lemma flat_map_fill_slot (pool : list cp_info) (i : nat) (e : cp_info) :
  (i < List.length pool)%nat -> Forall (eq cp_zero) (drop i pool) ->
  flat_map free_utf8_bytes (<[i := e]> pool)
  = flat_map free_utf8_bytes pool ++ free_utf8_bytes e.
Proof.
  intros Hi Hz.
  rewrite <- (take_drop i pool) at 2.
  rewrite insert_take_drop by exact Hi.
  rewrite !flat_map_app. cbn [flat_map].
  rewrite (flat_map_zero_slots (drop i pool) Hz).
  rewrite (flat_map_zero_slots (drop (S i) pool)).
  - now rewrite !app_nil_r.
  - rewrite <- (Nat.add_1_r i), <- drop_drop. now apply Forall_drop.
Qed.

Lemma read_constant_pool_strings (fuel : nat) (count i : Z)
    (pool : list cp_info) (s : state) (A : list Z) :
  0 <= i -> count <= Z.of_nat (List.length pool) ->
  Forall (eq cp_zero) (drop (Z.to_nat i) pool) ->
  Forall string_slot_ok pool ->
  allocs s = A ++ flat_map free_utf8_bytes pool ->
  wp (read_constant_pool fuel count i pool)
     (fun pool' s' =>
        Forall string_slot_ok pool'
        /\ allocs s' = A ++ flat_map free_utf8_bytes pool') s.
Proof.
  revert i pool s. induction fuel as [|fuel IH];
    intros i pool s Hi Hcount Hz Hs Ha;
    cbn [read_constant_pool]; destruct (Z.ltb_spec i count) as [Hlt|Hge];
    cbn [negb]; try (now apply wp_ret).
  apply wp_bind. eapply wp_mono;
    [apply wp_conj; [apply read_constant_pool_entry_string
                    |apply read_constant_pool_entry_result]|].
  cbv beta. intros r s1 [Hr Hres]. wp_pure.
  destruct (ok s1) eqn:Hok; cbn [negb orb]; [|apply wp_error].
  destruct (Z.eqb_spec (fst r) 0) as [|Hnz]; [apply wp_error|].
  destruct (Hr eq_refl Hnz) as [Hslot Ha1].
  assert (Hstep : 1 <= fst r) by (destruct Hres as [?|[[? _]|[? _]]]; lia).
  apply IH.
  - lia.
  - rewrite length_insert. exact Hcount.
  - rewrite drop_insert_lt by lia.
    replace (Z.to_nat (i + fst r))
      with (Z.to_nat i + Z.to_nat (fst r))%nat by lia.
    rewrite <- drop_drop. now apply Forall_drop.
  - now apply Forall_insert.
  - rewrite flat_map_fill_slot by (try assumption; lia).
    rewrite Ha1, Ha. now rewrite app_assoc.
Qed.

Lemma string_slot_ok_zero : string_slot_ok cp_zero.
Proof. intros H. discriminate. Qed.

Lemma read_pool_strings (s : state) :
  wp read_pool
     (fun cp s' =>
        0 <= fst cp
        /\ Forall string_slot_ok (snd cp)
        /\ allocs s'
           = allocs s
             ++ [fst cp * sizeof_cp_info]
             ++ flat_map free_utf8_bytes (snd cp)) s.
Proof.
  unfold read_pool.
  apply wp_bind. eapply wp_mono;
    [apply wp_conj; [apply (wp_keeps_allocs _ _ keeps_allocs_read_u2)
                    |apply read_u2_nonneg]|].
  cbv beta. intros count s' [H Hcount].
  wp_pure.
  destruct (negb (ok s')); cbn [orb]; [apply wp_error|].
  destruct (Z.gtb_spec count MAX_CONSTANT_POOL_SIZE) as [|Hle];
    [apply wp_error|].
  wp_pure. apply wp_bind.
  eapply wp_mono;
    [apply (read_constant_pool_strings _ _ _ _ _
              (allocs s ++ [count * sizeof_cp_info]))|].
  - lia.
  - rewrite length_replicate. lia.
  - apply Forall_drop, Forall_replicate. reflexivity.
  - apply Forall_replicate, string_slot_ok_zero.
  - rewrite flat_map_zero_slots by (apply Forall_replicate; reflexivity).
    cbn [allocs add_alloc]. now rewrite H, app_nil_r.
  - cbv beta. intros pool s1 [Hs Ha]. apply wp_ret. cbn [fst snd].
    split; [exact Hcount|]. split; [exact Hs|]. now rewrite Ha, <- app_assoc.
Qed.


Lemma same_method_header_refl (m : method_info) : same_method_header m m.
Proof. repeat split. Qed.

Lemma same_method_header_trans (m1 m2 m3 : method_info) :
  same_method_header m1 m2 -> same_method_header m2 m3 ->
  same_method_header m1 m3.
Proof.
  intros (H1 & H2 & H3 & H4) (K1 & K2 & K3 & K4).
  repeat split; congruence.
Qed.

(** The Code branch: two requests, and a buffer that is full. *)
Lemma read_code_attribute_memory (m : method_info) (s : state) :
  wp (read_code_attribute m)
     (fun m' s' =>
        exists c,
          m' = set_code_attribute m c
          /\ code_length c = Z.of_nat (List.length (code c))
          /\ allocs s' = allocs s ++ [sizeof_code_attribute; code_length c]) s.
Proof.
  unfold read_code_attribute. wp_pure.
  wp_frame keeps_allocs_read_u2. wp_frame keeps_allocs_read_u2.
  apply wp_bind. eapply wp_mono;
    [apply wp_conj; [apply (wp_keeps_allocs _ _ keeps_allocs_read_u4)
                    |apply read_u4_nonneg]|].
  cbv beta. intros cl s1 [Ha1 Hcl]. wp_pure.
  destruct (negb (ok s1)); [apply wp_error|].
  wp_pure. apply wp_bind.
  eapply wp_mono; [apply (safe_fread_bytes cl _ Hcl)|].
  cbv beta. intros r s2 Hr.
  destruct (fst r =? 0) eqn:Hz; [apply wp_error|].
  destruct (Hr eq_refl) as [Hbytes Ha2].
  wp_frame keeps_allocs_skip_code_tail. apply wp_ret.
  eexists. split; [reflexivity|]. cbn [code_length code].
  split; [now rewrite Hbytes|].
  rewrite H1, Ha2. cbn [allocs add_alloc]. rewrite Ha1, H0, H.
  cbn [allocs add_alloc]. rewrite <- app_assoc. reflexivity.
Qed.

Lemma read_method_attribute_memory (count : Z) (pool : list cp_info)
    (m : method_info) (s : state) :
  wp (read_method_attribute count pool m)
     (fun m' s' =>
        (m' = m /\ allocs s' = allocs s)
        \/ exists c,
             m' = set_code_attribute m c
             /\ code_length c = Z.of_nat (List.length (code c))
             /\ allocs s'
                = allocs s ++ [sizeof_code_attribute; code_length c]) s.
Proof.
  unfold read_method_attribute.
  wp_frame keeps_allocs_read_u2. wp_frame keeps_allocs_read_u4. wp_pure.
  destruct (negb (ok s'0)); [apply wp_error|].
  unfold dispatch_method_attribute.
  destruct (a <? count); [|apply wp_error].
  destruct (is_Code_name (pool_slot pool a)).
  - eapply wp_mono; [apply read_code_attribute_memory|].
    cbv beta. intros m' s1 (c & Hm & Hc & Ha). right. exists c.
    repeat split; try assumption. now rewrite Ha, H0, H.
  - wp_pure. cbn [negb Z.eqb]. apply wp_ret. left.
    split; [reflexivity|]. cbn [allocs advance set_fpos]. congruence.
Qed.

Lemma read_method_attributes_memory (count : Z) (pool : list cp_info)
    (n : nat) (m : method_info) (s : state) :
  code_buffer_ok m ->
  wp (read_method_attributes count pool n m)
     (fun m' s' =>
        code_buffer_ok m' /\ same_method_header m m'
        /\ exists extra,
             allocs s' = allocs s ++ extra
             /\ free_method_code m' ⊆+ free_method_code m ++ extra
             /\ (n = 0%nat -> m' = m /\ extra = [])
             /\ ((n <= 1)%nat -> m_code_attribute m = None ->
                 free_method_code m' ≡ₚ extra)) s.
Proof.
  revert m s. induction n as [|n IH]; intros m s Hm;
    cbn [read_method_attributes].
  - apply wp_ret. split; [exact Hm|]. split; [apply same_method_header_refl|].
    exists []. rewrite !app_nil_r. repeat split; try reflexivity.
    intros _ Hnone. unfold free_method_code. now rewrite Hnone.
  - wp_call read_method_attribute_memory. rename a into m1, s' into s1.
    assert (Hm1 : code_buffer_ok m1).
    { destruct H as [[-> _]|(c & -> & Hc & _)]; [exact Hm|exact Hc]. }
    eapply wp_mono; [apply (IH m1 s1 Hm1)|].
    cbv beta. intros m' s' (Hm' & Hh & extra & Ha & Hsub & Hzero & Hperm).
    split; [exact Hm'|].
    destruct H as [[-> Ha1]|(c & -> & Hc & Ha1)].
    + split; [exact Hh|]. exists extra. rewrite Ha, Ha1.
      split; [reflexivity|]. split; [exact Hsub|]. split; [lia|].
      intros Hn Hnone. apply Hperm; [lia|exact Hnone].
    + split; [eapply same_method_header_trans; [|exact Hh]; repeat split|].
      exists ([sizeof_code_attribute; code_length c] ++ extra).
      rewrite Ha, Ha1, <- app_assoc.
      split; [reflexivity|]. split; [|split; [lia|]].
      * etransitivity; [exact Hsub|].
        unfold free_method_code at 1. cbn [m_code_attribute set_code_attribute].
        rewrite <- Hc. apply submseteq_inserts_l.
        apply submseteq_skips_r. apply Permutation_submseteq.
        apply Permutation_swap.
      * intros Hn _. destruct (Hzero ltac:(lia)) as [-> ->].
        rewrite app_nil_r. unfold free_method_code.
        cbn [m_code_attribute set_code_attribute]. rewrite <- Hc.
        apply Permutation_swap.
Qed.

Lemma read_method_memory (count : Z) (pool : list cp_info) (s : state) :
  wp (read_method count pool)
     (fun m s' =>
        code_buffer_ok m
        /\ (m_attributes_count m = 0 -> m_code_attribute m = None)
        /\ exists extra,
             allocs s' = allocs s ++ extra
             /\ free_method_code m ⊆+ extra
             /\ (m_attributes_count m <= 1 -> free_method_code m ≡ₚ extra)) s.
Proof.
  unfold read_method.
  wp_frame keeps_allocs_read_u2. wp_frame keeps_allocs_read_u2.
  wp_frame keeps_allocs_read_u2. wp_frame keeps_allocs_read_u2. wp_pure.
  destruct (negb (ok s'2)); [apply wp_error|].
  eapply wp_mono;
    [apply (read_method_attributes_memory count pool (Z.to_nat a2)
              (mk_method_info a a0 a1 a2 None) s'2 I)|].
  cbv beta.
  intros m s3 (Hm & (_ & _ & _ & Hcnt) & extra & Ha & Hsub & Hzero & Hperm).
  cbn [m_attributes_count] in Hcnt.
  split; [exact Hm|]. split.
  { intros Hz. destruct (Hzero ltac:(lia)) as [-> _]. reflexivity. }
  exists extra.
  split; [rewrite Ha; congruence|]. split; [exact Hsub|].
  intros Hle. apply Hperm; [lia|reflexivity].
Qed.

Lemma read_methods_memory (count : Z) (pool : list cp_info) (n : nat)
    (s : state) :
  wp (read_methods count pool n)
     (fun ms s' =>
        Forall code_buffer_ok ms
        /\ Forall (fun m => m_attributes_count m = 0 ->
                            m_code_attribute m = None) ms
        /\ exists extra,
             allocs s' = allocs s ++ extra
             /\ flat_map free_method_code ms ⊆+ extra
             /\ (Forall (fun m => m_attributes_count m <= 1) ms ->
                 flat_map free_method_code ms ≡ₚ extra)) s.
Proof.
  revert s. induction n as [|n IH]; intros s; cbn [read_methods].
  - apply wp_ret. split; [constructor|]. split; [constructor|]. exists [].
    rewrite app_nil_r. repeat split; reflexivity.
  - wp_call read_method_memory.
    destruct H as (Hm & Hz & e1 & Ha1 & Hs1 & Hp1).
    wp_call IH. destruct H as (Hms & Hzs & e2 & Ha2 & Hs2 & Hp2).
    apply wp_ret. split; [now constructor|]. split; [now constructor|].
    exists (e1 ++ e2). rewrite Ha2, Ha1, <- app_assoc.
    split; [reflexivity|]. cbn [flat_map]. split.
    + now apply submseteq_app.
    + intros Hall. apply Forall_cons in Hall. destruct Hall as [H1 H2].
      now rewrite (Hp1 H1), (Hp2 H2).
Qed.

Lemma read_magic_value (s : state) :
  wp read_magic (fun m _ => m = JAVA_MAGIC) s.
Proof.
  unfold read_magic. wp_skip. wp_pure.
  destruct (negb (ok s')); cbn [orb]; [apply wp_error|].
  destruct (Z.eqb_spec a JAVA_MAGIC); cbn [negb]; [now apply wp_ret|].
  apply wp_error.
Qed.

Lemma read_version_range (s : state) :
  wp read_version (fun v _ => 45 <= snd v <= 69) s.
Proof.
  unfold read_version. wp_skip. wp_skip. wp_pure.
  destruct (negb (ok s'0)); [apply wp_error|].
  destruct (Z.ltb_spec a0 45); cbn [orb]; [apply wp_error|].
  destruct (Z.gtb_spec a0 69); [apply wp_error|].
  apply wp_ret. cbn [snd]. lia.
Qed.

(** What [read_class_file] has requested when it returns, and what the
    [ClassFile] holds. *)
Lemma read_class_file_body_memory (s : state) :
  wp read_class_file_body
     (fun cf s' =>
        magic cf = JAVA_MAGIC
        /\ 45 <= major_version cf <= 69
        /\ 0 <= constant_pool_count cf
        /\ 0 <= methods_count cf
        /\ Forall string_slot_ok (constant_pool cf)
        /\ Forall code_buffer_ok (methods cf)
        /\ Forall (fun m => m_attributes_count m = 0 ->
                            m_code_attribute m = None) (methods cf)
        /\ exists extra,
             allocs s'
             = allocs s
               ++ [sizeof_ClassFile]
               ++ [constant_pool_count cf * sizeof_cp_info]
               ++ flat_map free_utf8_bytes (constant_pool cf)
               ++ [methods_count cf * sizeof_method_info]
               ++ extra
             /\ flat_map free_method_code (methods cf) ⊆+ extra
             /\ (Forall (fun m => m_attributes_count m <= 1) (methods cf) ->
                 flat_map free_method_code (methods cf) ≡ₚ extra)) s.
Proof.
  unfold read_class_file_body. wp_pure.
  apply wp_bind. eapply wp_mono;
    [apply wp_conj; [apply (wp_keeps_allocs _ _ keeps_allocs_read_magic)
                    |apply read_magic_value]|].
  cbv beta. intros mg s1 [Ha1 Hmg].
  apply wp_bind. eapply wp_mono;
    [apply wp_conj; [apply (wp_keeps_allocs _ _ keeps_allocs_read_version)
                    |apply read_version_range]|].
  cbv beta. intros v s2 [Ha2 Hv].
  unfold read_after_version.
  wp_call read_pool_strings. destruct H as (Hcount & Hstr & Ha3).
  rename a into cp, s' into s3.
  wp_frame keeps_allocs_read_class_header. rename a into hd, H into Ha4.
  wp_frame keeps_allocs_skip_interfaces. rename a into ic, H into Ha5.
  wp_frame keeps_allocs_read_fields. rename a into fc, H into Ha6.
  unfold read_method_table.
  apply wp_bind. apply wp_bind. eapply wp_mono;
    [apply wp_conj; [apply (wp_keeps_allocs _ _ keeps_allocs_read_u2)
                    |apply read_u2_nonneg]|].
  cbv beta. intros n s'2 [Ha7 Hn].
  wp_pure.
  destruct (negb (ok s'2)); [apply wp_error|].
  destruct (n >? 1000); [apply wp_error|].
  wp_pure. wp_call read_methods_memory.
  destruct H as (Hcode & Hnone & extra & Ha8 & Hsub & Hperm).
  apply wp_ret. apply wp_ret.
  cbn [magic major_version constant_pool constant_pool_count methods
       methods_count fst snd].
  repeat split; try assumption; try lia.
  exists extra. split; [|split; assumption].
  rewrite Ha8. cbn [allocs add_alloc].
  rewrite Ha7, Ha6, Ha5, Ha4, Ha3, Ha2, Ha1. cbn [allocs add_alloc].
  rewrite <- !app_assoc. reflexivity.
Qed.

(** X12. What a returned [ClassFile] holds.  The magic number is
    [0xCAFEBABE] and the major version lies in 45..69; the two tables
    have as many slots as their counts say; every pool slot with the
    string tag holds a buffer of the declared length plus one byte, the
    last one a NUL byte; the instruction buffer of every method with a
    Code attribute holds exactly [code_length] bytes; and a method that
    declares no attribute has no [code_attribute]. *)
Theorem returned_class_file_is_well_formed
    (content : list byte) (cf : ClassFile) (s : state) :
  read_class_file content = (Done cf, s) ->
  magic cf = JAVA_MAGIC
  /\ 45 <= major_version cf <= 69
  /\ Z.of_nat (List.length (constant_pool cf)) = constant_pool_count cf
  /\ Z.of_nat (List.length (methods cf)) = methods_count cf
  /\ Forall string_slot_ok (constant_pool cf)
  /\ Forall code_buffer_ok (methods cf)
  /\ Forall (fun m => m_attributes_count m = 0 -> m_code_attribute m = None)
       (methods cf).
Proof.
  intros Hrun.
  pose proof (wp_done _ _ _ _ _
                (read_class_file_body_memory (initial_state content)) Hrun)
    as (Hmg & Hv & Hc & Hn & Hstr & Hcode & Hnone & _).
  pose proof (wp_done _ _ _ _ _
                (read_class_file_body_result (initial_state content)) Hrun)
    as (_ & Hlp & _ & _ & _ & Hlm).
  repeat split; try assumption; lia.
Qed.

Lemma returned_class_file_is_well_formed_witness :
  Forall string_slot_ok pool_with_Code
  /\ Forall code_buffer_ok [method_after_Code].
Proof.
  pose proof (returned_class_file_is_well_formed file_with_Code_method
                (with_methods head_with_Code 1 [method_after_Code])
                (snd (read_class_file file_with_Code_method))
                ltac:(vm_compute; reflexivity))
    as (_ & _ & _ & _ & Hs & Hc & _).
  split; [exact Hs|exact Hc].
Defined.

(** X13. [free_class_file] on what [read_class_file] returned.  It
    does nothing for [NULL].  For a returned [ClassFile] it releases
    the string buffers of the pool, the instruction buffer and the
    [code_attribute] of each method, the two tables and the
    [ClassFile]; the sizes of these blocks are, counted with their
    multiplicity, among the sizes that the decoder requested.  When no
    method has more than one attribute they are all the sizes requested:
    nothing is left behind.  In general something is: each Code
    attribute of a method replaces the [code_attribute] of the one
    before it, whose two blocks are then never released, as in the file
    with two Code attributes in its one method. *)
Theorem free_class_file_releases_what_was_requested :
  free_class_file None = []
  /\ (forall content cf s,
        read_class_file content = (Done cf, s) ->
        free_class_file (Some cf) ⊆+ allocs s
        /\ (Forall (fun m => m_attributes_count m <= 1) (methods cf) ->
            free_class_file (Some cf) ≡ₚ allocs s))
  /\ exists cf s,
       read_class_file file_with_two_Code_attributes = (Done cf, s)
       /\ (List.length (free_class_file (Some cf)) + 2
           = List.length (allocs s))%nat.
Proof.
  split; [reflexivity|]. split.
  - intros content cf s Hrun.
    pose proof (wp_done _ _ _ _ _
                  (read_class_file_body_memory (initial_state content)) Hrun)
      as (_ & _ & Hc & Hn & _ & _ & _ & extra & Ha & Hsub & Hperm).
    pose proof (wp_done _ _ _ _ _
                  (read_class_file_body_result (initial_state content)) Hrun)
      as (_ & Hlp & _ & _ & _ & Hlm).
    cbn [allocs initial_state app] in Ha.
    assert (Hfree : free_class_file (Some cf)
                    = flat_map free_utf8_bytes (constant_pool cf)
                      ++ flat_map free_method_code (methods cf)
                      ++ [constant_pool_count cf * sizeof_cp_info;
                          methods_count cf * sizeof_method_info;
                          sizeof_ClassFile]).
    { unfold free_class_file.
      pose proof (free_pool_strings_app [] (constant_pool cf)) as E1.
      pose proof (free_methods_code_app [] (methods cf)) as E2.
      change (free_pool_strings (constant_pool cf) 0
                (List.length (constant_pool cf))
              = flat_map free_utf8_bytes (constant_pool cf)) in E1.
      change (free_methods_code (methods cf) 0 (List.length (methods cf))
              = flat_map free_method_code (methods cf)) in E2.
      replace (Z.to_nat (constant_pool_count cf))
        with (List.length (constant_pool cf)) by lia.
      replace (Z.to_nat (methods_count cf))
        with (List.length (methods cf)) by lia.
      rewrite E1, E2, Hlp, Hlm, !Z2Nat.id by assumption. reflexivity. }
    rewrite Hfree, Ha.
    assert (Hshape : forall strings frees,
               strings ++ frees
               ++ [constant_pool_count cf * sizeof_cp_info;
                   methods_count cf * sizeof_method_info; sizeof_ClassFile]
               ≡ₚ sizeof_ClassFile
                  :: constant_pool_count cf * sizeof_cp_info
                  :: strings
                  ++ methods_count cf * sizeof_method_info :: frees).
    { intros strings frees. solve_Permutation. }
    split.
    + rewrite Hshape. do 2 apply submseteq_skip.
      apply submseteq_skips_l. now apply submseteq_skip.
    + intros Hall. rewrite Hshape. now rewrite (Hperm Hall).
  - eexists _, _. split; [vm_compute; reflexivity|]. reflexivity.
Qed.

Lemma free_class_file_releases_what_was_requested_witness :
  free_class_file (Some (with_methods head_with_Code 1 [method_after_Code]))
  ≡ₚ allocs (snd (read_class_file file_with_Code_method)).
Proof.
  refine (proj2 (proj1 (proj2 free_class_file_releases_what_was_requested)
                   file_with_Code_method
                   (with_methods head_with_Code 1 [method_after_Code])
                   (snd (read_class_file file_with_Code_method))
                   _) _).
  - vm_compute. reflexivity.
  - repeat constructor. vm_compute. discriminate.
Defined.


(** ** What is printed on [stderr] *)

Lemma bswap16_le (v : Z) : bswap16 v <= 65535.
Proof.
  unfold bswap16. rewrite !land_0xFF.
  rewrite (shiftl_lor_add 8)
    by (change (2 ^ 8) with 256; Z.div_mod_to_equations; lia).
  change (2 ^ 8) with 256. Z.div_mod_to_equations. lia.
Qed.

Lemma read_u2_le (s : state) : wp read_u2 (fun a _ => a <= 65535) s.
Proof.
  unfold read_u2. wp_skip. destruct (fst a =? 0).
  - wp_pure. apply wp_ret. lia.
  - apply wp_ret, bswap16_le.
Qed.

Lemma reports_ret {A} (a : A) : reports (ret a).
Proof. intros s Hs. exact Hs. Qed.

Lemma reports_bind_post {A B} (Q : A -> Prop) (m : M A) (f : A -> M B) :
  (forall s, wp m (fun a _ => Q a) s) ->
  reports m -> (forall a, Q a -> reports (f a)) -> reports (bind m f).
Proof.
  intros HQ Hm Hf s Hs. unfold bind. specialize (Hm s Hs).
  specialize (HQ s). unfold wp in HQ.
  destruct (m s) as [[a|e] s']; [|exact Hm]. now apply Hf.
Qed.

Lemma reports_bind {A B} (m : M A) (f : A -> M B) :
  reports m -> (forall a, reports (f a)) -> reports (bind m f).
Proof.
  intros Hm Hf. apply (reports_bind_post (fun _ => True)); auto.
  intros s. apply wp_any.
Qed.

Lemma reports_if {A} (c : bool) (m1 m2 : M A) :
  reports m1 -> reports m2 -> reports (if c then m1 else m2).
Proof. now destruct c. Qed.

Lemma reports_error {A} (e : diagnostic) :
  (forall l, e <> msg_utf8_too_long l) -> reports (@ERROR_AND_CLEANUP A e).
Proof. intros He s Hs. split; [|exact He]. exists (stderr s). now split. Qed.

Lemma reports_get_ok : reports get_ok.
Proof. intros s Hs. exact Hs. Qed.

Lemma reports_put_ok (b : bool) : reports (put_ok b).
Proof. intros s Hs. exact Hs. Qed.

Lemma reports_malloc (n : Z) : reports (malloc n).
Proof. intros s Hs. exact Hs. Qed.

Lemma reports_fseek_cur (n : Z) : reports (fseek_cur n).
Proof. intros s Hs. exact Hs. Qed.

Lemma reports_fread (size count : Z) : reports (fread size count).
Proof. intros s Hs. exact Hs. Qed.

Lemma reports_eof : reports (fprintf_stderr msg_unexpected_eof).
Proof.
  intros s Hs. cbn. apply Forall_app. split; [exact Hs|]. now constructor.
Qed.

Ltac reports_step :=
  first
    [ apply reports_ret | apply reports_error; solve [discriminate|assumption]
    | apply reports_get_ok
    | apply reports_put_ok | apply reports_malloc | apply reports_fseek_cur
    | apply reports_fread | apply reports_eof
    | assumption
    | match goal with
      | H : context [reports] |- reports _ => solve [apply H]
      end
    | apply reports_if
    | apply reports_bind; [|intros ?] ].

Lemma reports_safe_fread (size count : Z) : reports (safe_fread size count).
Proof. unfold safe_fread. repeat reports_step. Qed.

Lemma reports_read_u1 : reports read_u1.
Proof. pose proof reports_safe_fread. unfold read_u1. repeat reports_step. Qed.

Lemma reports_read_u2 : reports read_u2.
Proof. pose proof reports_safe_fread. unfold read_u2. repeat reports_step. Qed.

Lemma reports_read_u4 : reports read_u4.
Proof. pose proof reports_safe_fread. unfold read_u4. repeat reports_step. Qed.

(** The length of a string never exceeds the ceiling: the branch that
    prints "UTF8 string too long" is not taken. *)
Lemma reports_read_constant_pool_entry (e : cp_info) :
  reports (read_constant_pool_entry e).
Proof.
  pose proof reports_safe_fread. pose proof reports_read_u1.
  pose proof reports_read_u2. pose proof reports_read_u4.
  unfold read_constant_pool_entry, after_switch.
  apply reports_bind; [assumption|intros t].
  apply reports_bind; [apply reports_get_ok|intros k].
  apply reports_if; [apply reports_ret|].
  apply reports_if; [repeat reports_step|].
  apply reports_if; [|repeat reports_step].
  apply (reports_bind_post (fun a => a <= 65535));
    [apply read_u2_le|assumption|intros len Hlen].
  apply reports_bind; [apply reports_get_ok|intros k'].
  apply reports_if; [apply reports_ret|].
  unfold utf8_case, after_switch.
  destruct (Z.gtb_spec len MAX_STRING_LENGTH) as [Hgt|_];
    [unfold MAX_STRING_LENGTH in Hgt; lia|].
  repeat reports_step.
Qed.

Lemma reports_read_constant_pool (fuel : nat) (count i : Z)
    (pool : list cp_info) :
  reports (read_constant_pool fuel count i pool).
Proof.
  pose proof reports_read_constant_pool_entry.
  revert i pool. induction fuel as [|fuel IH]; intros i pool;
    cbn [read_constant_pool]; repeat reports_step.
Qed.

Lemma reports_skip_attributes (e1 e2 : diagnostic) (n : nat) :
  (forall l, e1 <> msg_utf8_too_long l) ->
  (forall l, e2 <> msg_utf8_too_long l) ->
  reports (skip_attributes e1 e2 n).
Proof.
  intros He1 He2.
  pose proof reports_read_u2. pose proof reports_read_u4.
  induction n as [|n IH]; cbn [skip_attributes]; repeat reports_step.
Qed.

Lemma reports_skip_fields (n : nat) : reports (skip_fields n).
Proof.
  pose proof reports_read_u2.
  pose proof (fun n => reports_skip_attributes msg_field_attribute_unreadable
                         msg_seek_field_attribute n
                         ltac:(discriminate) ltac:(discriminate)).
  induction n as [|n IH]; cbn [skip_fields]; repeat reports_step.
Qed.

Lemma reports_skip_code_tail : reports skip_code_tail.
Proof.
  pose proof reports_read_u2.
  pose proof (fun n => reports_skip_attributes
                         msg_code_sub_attribute_unreadable
                         msg_seek_code_sub_attribute n
                         ltac:(discriminate) ltac:(discriminate)).
  unfold skip_code_tail. repeat reports_step.
Qed.

Lemma reports_read_code_attribute (m : method_info) :
  reports (read_code_attribute m).
Proof.
  pose proof reports_read_u2. pose proof reports_read_u4.
  pose proof reports_safe_fread. pose proof reports_skip_code_tail.
  unfold read_code_attribute, calloc. repeat reports_step.
Qed.

Lemma reports_read_method_attributes (count : Z) (pool : list cp_info)
    (n : nat) (m : method_info) :
  reports (read_method_attributes count pool n m).
Proof.
  pose proof reports_read_u2. pose proof reports_read_u4.
  pose proof reports_read_code_attribute.
  revert m. induction n as [|n IH]; intros m;
    cbn [read_method_attributes];
    unfold read_method_attribute, dispatch_method_attribute;
    repeat reports_step.
Qed.

Lemma reports_read_methods (count : Z) (pool : list cp_info) (n : nat) :
  reports (read_methods count pool n).
Proof.
  pose proof reports_read_u2.
  pose proof (reports_read_method_attributes count pool).
  induction n as [|n IH]; cbn [read_methods]; unfold read_method;
    repeat reports_step.
Qed.

Lemma reports_read_class_file_body : reports read_class_file_body.
Proof.
  pose proof reports_read_u2. pose proof reports_read_u4.
  pose proof reports_read_constant_pool. pose proof reports_skip_fields.
  pose proof reports_read_methods.
  unfold read_class_file_body, read_after_version, read_magic, read_version,
    read_pool, read_class_header, skip_interfaces, read_fields,
    read_method_table, calloc.
  repeat reports_step.
Qed.

Lemma only_eof_replicate (l : list diagnostic) :
  only_eof l -> l = replicate (List.length l) msg_unexpected_eof.
Proof.
  induction 1 as [|d l <- _ IH]; [reflexivity|].
  cbn [List.length replicate]. now f_equal.
Qed.

(** X14. What a run prints, the [DEBUG] lines of debug mode left aside,
    when no read ends with a device error and no allocation fails (the
    conventions of this embedding).  A run that returns a [ClassFile]
    prints nothing on [stderr].  A run that returns [NULL] prints its
    failure message as the last line; the lines before it, if any, are
    all "Unexpected end of file.", printed by reads that came up short
    before the failure was tested.  The line "UTF8 string too long" is
    never printed. *)
Theorem failure_prints_one_message (content : list byte) :
  (forall cf s, read_class_file content = (Done cf, s) -> stderr s = [])
  /\ (forall e s,
        read_class_file content = (Aborted e, s) ->
        exists n, stderr s = replicate n msg_unexpected_eof ++ [e])
  /\ forall l,
       ~ In (msg_utf8_too_long l) (stderr (snd (read_class_file content))).
Proof.
  pose proof (reports_read_class_file_body (initial_state content)
                (Forall_nil_2 _)) as Hrep.
  pose proof (read_class_file_body_clean _ (clean_initial content)) as Hcl.
  unfold wp in Hcl. unfold read_class_file.
  destruct (read_class_file_body (initial_state content)) as [[cf|e] s].
  - destruct Hcl as [_ Herr]. split; [|split].
    + intros cf' s' H. now injection H as _ <-.
    + intros e s' H. discriminate H.
    + intros l. cbn [snd]. rewrite Herr. intros [].
  - destruct Hrep as [(causes & Hs & Hc) Hne]. split; [|split].
    + intros cf s' H. discriminate H.
    + intros e' s' H. injection H as <- <-.
      exists (List.length causes). rewrite Hs. f_equal.
      now apply only_eof_replicate.
    + intros l. cbn [snd]. rewrite Hs. intros Hin.
      apply in_app_iff in Hin. destruct Hin as [Hin|[He|[]]].
      * unfold only_eof in Hc. rewrite List.Forall_forall in Hc.
        specialize (Hc _ Hin). discriminate.
      * exact (Hne l He).
Qed.

Lemma failure_prints_one_message_witness :
  exists n,
    stderr (snd (read_class_file
                   [xca; xfe; xba; xbe; x00; x00; x00; x41; x00; x01; x00]))
    = replicate n msg_unexpected_eof ++ [msg_class_header_unreadable].
Proof.
  exact (proj1 (proj2 (failure_prints_one_message
                         [xca; xfe; xba; xbe; x00; x00; x00; x41;
                          x00; x01; x00]))
           msg_class_header_unreadable
           (snd (read_class_file
                   [xca; xfe; xba; xbe; x00; x00; x00; x41; x00; x01; x00]))
           ltac:(vm_compute; reflexivity)).
Defined.


(** ** The bytes that a run depends on *)

Lemma local_read_method_table (count : Z) (pool : list cp_info) :
  local (read_method_table count pool).
Proof.
  pose proof local_read_u2. pose proof (local_read_methods count pool).
  unfold read_method_table, calloc. repeat local_step.
Qed.

Lemma local_read_class_file_body : local read_class_file_body.
Proof.
  pose proof local_read_magic. pose proof local_read_version.
  pose proof local_read_pool. pose proof local_read_class_header.
  pose proof local_skip_interfaces. pose proof local_read_fields.
  pose proof local_read_method_table.
  unfold read_class_file_body, read_after_version. repeat local_step.
Qed.

(** X15. The decoder looks at no byte at or beyond the position it
    stops at, and never moves backwards: a file of the same length that
    has the same bytes in front of that position is decoded to the same
    result, a [ClassFile] or [NULL] with the same message, with the same
    lines printed and the same requests made. *)
Theorem decoder_reads_nothing_beyond_its_position
    (c1 c2 : list byte) (r : outcome ClassFile) (s : state) :
  read_class_file c1 = (r, s) ->
  List.length c1 = List.length c2 ->
  take (Z.to_nat (fpos s)) c1 = take (Z.to_nat (fpos s)) c2 ->
  0 <= fpos s /\ read_class_file c2 = (r, with_data c2 s).
Proof.
  intros Hrun Hlen Htake.
  destruct (local_read_class_file_body (initial_state c1) r s
              (Z.le_refl 0) Hrun) as (Hpos & _ & Hloc).
  split; [exact Hpos|].
  unfold read_class_file. rewrite <- (with_data_initial c1 c2).
  apply (Hloc (fpos s) c2 (Z.le_refl _)). now split.
Qed.

Lemma decoder_reads_nothing_beyond_its_position_witness :
  read_class_file (take 74 file_with_Code_method ++ [x00; x00])
  = (fst (read_class_file file_with_Code_method),
     with_data (take 74 file_with_Code_method ++ [x00; x00])
       (snd (read_class_file file_with_Code_method))).
Proof.
  exact (proj2 (decoder_reads_nothing_beyond_its_position
                  file_with_Code_method
                  (take 74 file_with_Code_method ++ [x00; x00])
                  (fst (read_class_file file_with_Code_method))
                  (snd (read_class_file file_with_Code_method))
                  ltac:(vm_compute; reflexivity) eq_refl
                  ltac:(vm_compute; reflexivity))).
Defined.


(** *** Bytes appended to a file *)

Lemma never_sets_ok_read_constant_pool (fuel : nat) (count i : Z)
    (pool : list cp_info) :
  never_sets_ok (read_constant_pool fuel count i pool).
Proof.
  pose proof never_sets_ok_read_constant_pool_entry.
  revert i pool. induction fuel as [|fuel IH]; intros i pool;
    cbn [read_constant_pool]; repeat never_sets_ok_step.
Qed.

Lemma never_sets_ok_skip_attributes (e1 e2 : diagnostic) (n : nat) :
  never_sets_ok (skip_attributes e1 e2 n).
Proof.
  pose proof never_sets_ok_read_u2. pose proof never_sets_ok_read_u4.
  induction n as [|n IH]; cbn [skip_attributes]; repeat never_sets_ok_step.
Qed.

Lemma never_sets_ok_skip_fields (n : nat) : never_sets_ok (skip_fields n).
Proof.
  pose proof never_sets_ok_read_u2. pose proof never_sets_ok_skip_attributes.
  induction n as [|n IH]; cbn [skip_fields]; repeat never_sets_ok_step.
Qed.

Lemma never_sets_ok_skip_code_tail : never_sets_ok skip_code_tail.
Proof.
  pose proof never_sets_ok_read_u2. pose proof never_sets_ok_skip_attributes.
  unfold skip_code_tail. repeat never_sets_ok_step.
Qed.

Lemma never_sets_ok_read_code_attribute (m : method_info) :
  never_sets_ok (read_code_attribute m).
Proof.
  pose proof never_sets_ok_read_u2. pose proof never_sets_ok_read_u4.
  pose proof never_sets_ok_safe_fread. pose proof never_sets_ok_skip_code_tail.
  unfold read_code_attribute, calloc. repeat never_sets_ok_step.
Qed.

Lemma never_sets_ok_read_method_attribute (count : Z) (pool : list cp_info)
    (m : method_info) :
  never_sets_ok (read_method_attribute count pool m).
Proof.
  pose proof never_sets_ok_read_u2. pose proof never_sets_ok_read_u4.
  pose proof never_sets_ok_read_code_attribute.
  unfold read_method_attribute, dispatch_method_attribute.
  repeat never_sets_ok_step.
Qed.

Lemma never_sets_ok_read_method_attributes (count : Z) (pool : list cp_info)
    (n : nat) (m : method_info) :
  never_sets_ok (read_method_attributes count pool n m).
Proof.
  pose proof (never_sets_ok_read_method_attribute count pool).
  revert m. induction n as [|n IH]; intros m;
    cbn [read_method_attributes]; repeat never_sets_ok_step.
Qed.

Lemma never_sets_ok_read_method (count : Z) (pool : list cp_info) :
  never_sets_ok (read_method count pool).
Proof.
  pose proof never_sets_ok_read_u2.
  pose proof (never_sets_ok_read_method_attributes count pool).
  unfold read_method. repeat never_sets_ok_step.
Qed.

Lemma never_sets_ok_read_methods (count : Z) (pool : list cp_info) (n : nat) :
  never_sets_ok (read_methods count pool n).
Proof.
  pose proof (never_sets_ok_read_method count pool).
  induction n as [|n IH]; cbn [read_methods]; repeat never_sets_ok_step.
Qed.

Lemma never_sets_ok_read_magic : never_sets_ok read_magic.
Proof.
  pose proof never_sets_ok_read_u4. unfold read_magic.
  repeat never_sets_ok_step.
Qed.

Lemma never_sets_ok_read_version : never_sets_ok read_version.
Proof.
  pose proof never_sets_ok_read_u2. unfold read_version.
  repeat never_sets_ok_step.
Qed.

Lemma never_sets_ok_read_pool : never_sets_ok read_pool.
Proof.
  pose proof never_sets_ok_read_u2. pose proof never_sets_ok_read_constant_pool.
  unfold read_pool, calloc. repeat never_sets_ok_step.
Qed.

Lemma never_sets_ok_read_class_header : never_sets_ok read_class_header.
Proof.
  pose proof never_sets_ok_read_u2. unfold read_class_header.
  repeat never_sets_ok_step.
Qed.

Lemma never_sets_ok_skip_interfaces : never_sets_ok skip_interfaces.
Proof.
  pose proof never_sets_ok_read_u2. unfold skip_interfaces.
  repeat never_sets_ok_step.
Qed.

Lemma never_sets_ok_read_fields : never_sets_ok read_fields.
Proof.
  pose proof never_sets_ok_read_u2. pose proof never_sets_ok_skip_fields.
  unfold read_fields. repeat never_sets_ok_step.
Qed.

Lemma never_sets_ok_read_method_table (count : Z) (pool : list cp_info) :
  never_sets_ok (read_method_table count pool).
Proof.
  pose proof never_sets_ok_read_u2.
  pose proof (never_sets_ok_read_methods count pool).
  unfold read_method_table, calloc. repeat never_sets_ok_step.
Qed.

Lemma never_sets_ok_read_after_version (mg : Z) (v : Z * Z) :
  never_sets_ok (read_after_version mg v).
Proof.
  pose proof never_sets_ok_read_pool. pose proof never_sets_ok_read_class_header.
  pose proof never_sets_ok_skip_interfaces. pose proof never_sets_ok_read_fields.
  pose proof never_sets_ok_read_method_table.
  unfold read_after_version. repeat never_sets_ok_step.
Qed.

Lemma grows_ret {A} (a : A) : grows (ret a).
Proof. intros s b s' junk _ Hrun _. injection Hrun as <- <-. reflexivity. Qed.

Lemma grows_error {A} (e : diagnostic) : grows (@ERROR_AND_CLEANUP A e).
Proof. intros s b s' junk _ Hrun. discriminate. Qed.

Lemma grows_get_ok : grows get_ok.
Proof. intros s b s' junk _ Hrun _. injection Hrun as <- <-. reflexivity. Qed.

Lemma grows_put_ok (b : bool) : grows (put_ok b).
Proof. intros s a s' junk _ Hrun _. injection Hrun as <- <-. reflexivity. Qed.

Lemma grows_fprintf_stderr (d : diagnostic) : grows (fprintf_stderr d).
Proof. intros s a s' junk _ Hrun _. injection Hrun as <- <-. reflexivity. Qed.

Lemma grows_malloc (n : Z) : grows (malloc n).
Proof. intros s a s' junk _ Hrun _. injection Hrun as <- <-. reflexivity. Qed.

Lemma grows_fseek_cur (n : Z) : grows (fseek_cur n).
Proof. intros s a s' junk _ Hrun _. injection Hrun as <- <-. reflexivity. Qed.

Lemma grows_if {A} (c : bool) (m1 m2 : M A) :
  grows m1 -> grows m2 -> grows (if c then m1 else m2).
Proof. now destruct c. Qed.

Lemma grows_bind_post {A B} (Q : A -> Prop) (m : M A) (f : A -> M B) :
  (forall s, wp m (fun a _ => Q a) s) ->
  local m -> grows m ->
  (forall a, Q a -> never_sets_ok (f a)) ->
  (forall a, Q a -> grows (f a)) ->
  grows (bind m f).
Proof.
  intros HQ Hloc Hm Hk Hf s b s' junk H0 Hrun Hok.
  unfold bind in Hrun |- *. specialize (HQ s). unfold wp in HQ.
  destruct (m s) as [[a|e] s1] eqn:Hms; [|discriminate].
  destruct (Hloc s _ _ H0 Hms) as (Hpos & Hd & _).
  assert (Hok1 : ok s1 = true).
  { destruct (ok s1) eqn:Hk1; [reflexivity|].
    pose proof (Hk a HQ s1 Hk1) as Hbad. rewrite Hrun in Hbad.
    cbn [snd] in Hbad. congruence. }
  rewrite (Hm s a s1 junk H0 Hms Hok1).
  rewrite <- Hd. apply (Hf a HQ); [lia|exact Hrun|exact Hok].
Qed.

Lemma grows_bind {A B} (m : M A) (f : A -> M B) :
  local m -> grows m ->
  (forall a, never_sets_ok (f a)) -> (forall a, grows (f a)) ->
  grows (bind m f).
Proof.
  intros Hloc Hm Hk Hf. apply (grows_bind_post (fun _ => True)); auto.
  intros s. apply wp_any.
Qed.

(** The bytes in front of the position of a file with [junk]
    appended. *)
Lemma remaining_with_junk (s : state) (junk : list byte) (k : nat) :
  0 <= fpos s -> (k <= List.length (remaining s))%nat ->
  take k (remaining (with_data (fdata s ++ junk) s)) = take k (remaining s)
  /\ (List.length (remaining s)
      <= List.length (remaining (with_data (fdata s ++ junk) s)))%nat.
Proof.
  intros H0. unfold remaining, with_data. cbn [fdata fpos].
  rewrite length_app.
  destruct (Z.leb_spec (Z.of_nat (List.length (fdata s))) (fpos s)) as [Hle|Hgt].
  - cbn [List.length]. intros Hk. replace k with 0%nat by lia.
    rewrite !take_0. split; [reflexivity|lia].
  - destruct (Z.leb_spec
                (Z.of_nat (List.length (fdata s) + List.length junk))
                (fpos s)); [lia|].
    intros Hk. rewrite drop_app_le by lia. split.
    + now rewrite take_app_le.
    + rewrite length_app. lia.
Qed.

(** A read that delivered delivers the same on the longer file. *)
Lemma safe_fread_with_junk (size count : Z) (s s1 : state)
    (r : Z * list byte) (junk : list byte) :
  0 < size -> 0 <= fpos s ->
  safe_fread size count s = (Done r, s1) -> fst r <> 0 ->
  safe_fread size count (with_data (fdata s ++ junk) s)
  = (Done r, with_data (fdata s ++ junk) s1).
Proof.
  intros Hsize H0. unfold safe_fread, bind, fread. cbn [fst snd].
  destruct (Z.eqb_spec size 0) as [|_]; [lia|].
  set (want := size * count). set (rest := remaining s).
  set (rest' := remaining (with_data (fdata s ++ junk) s)).
  set (got := if Z.of_nat (List.length rest) <=? want then rest
              else take (Z.to_nat want) rest).
  set (got' := if Z.of_nat (List.length rest') <=? want then rest'
               else take (Z.to_nat want) rest').
  destruct (Z.ltb_spec (Z.of_nat (List.length got) / size) count) as [Hlt|Hge];
    intros Hrun Hr; injection Hrun as <- <-; [now destruct Hr|].
  assert (Hwant : want <= Z.of_nat (List.length got)).
  { subst want. etransitivity; [|apply (Z.mul_div_le _ size); lia].
    apply Z.mul_le_mono_nonneg_l; lia. }
  assert (Hgot_le : (List.length got <= List.length rest)%nat).
  { subst got. destruct (Z.of_nat (List.length rest) <=? want); [lia|].
    rewrite length_take. lia. }
  assert (Hk : (Z.to_nat want <= List.length rest)%nat) by lia.
  destruct (remaining_with_junk s junk (Z.to_nat want) H0 Hk) as [Htake Hlen].
  fold rest rest' in Htake, Hlen.
  assert (Hgot : got = take (Z.to_nat want) rest).
  { subst got.
    destruct (Z.leb_spec (Z.of_nat (List.length rest)) want); [|reflexivity].
    symmetry. apply take_ge. lia. }
  assert (Hgot' : got' = got).
  { rewrite Hgot. subst got'.
    destruct (Z.leb_spec (Z.of_nat (List.length rest')) want) as [Hle|_];
      [|exact Htake].
    rewrite <- Htake. symmetry. apply take_ge. lia. }
  rewrite Hgot'.
  destruct (Z.ltb_spec (Z.of_nat (List.length got) / size) count); [lia|].
  reflexivity.
Qed.

Lemma grows_safe_fread_bind {B} (size count : Z)
    (f : Z * list byte -> M B) :
  0 < size ->
  (forall r s b s', fst r = 0 -> f r s = (Done b, s') -> ok s' = false) ->
  (forall r, never_sets_ok (f r)) -> (forall r, grows (f r)) ->
  grows (bind (safe_fread size count) f).
Proof.
  intros Hsize Hfail Hk Hf s b s' junk H0 Hrun Hok.
  unfold bind in Hrun |- *.
  destruct (safe_fread size count s) as [[r|e] s1] eqn:Hsf; [|discriminate].
  destruct (local_safe_fread size count s _ _ H0 Hsf) as (Hpos & Hd & _).
  assert (Hr : fst r <> 0).
  { intros Hz. pose proof (Hfail r s1 b s' Hz Hrun). congruence. }
  rewrite (safe_fread_with_junk size count s s1 r junk Hsize H0 Hsf Hr).
  rewrite <- Hd. apply Hf; [lia|exact Hrun|exact Hok].
Qed.

Lemma grows_read_u1 : grows read_u1.
Proof.
  unfold read_u1. apply grows_safe_fread_bind; [lia| | |].
  - intros r s b s' Hz. rewrite Hz. cbn. intros H. now injection H as _ <-.
  - intros r. repeat never_sets_ok_step.
  - intros r. apply grows_if; [|apply grows_ret].
    intros s b s' junk _ H. injection H as _ <-. discriminate.
Qed.

Lemma grows_read_u2 : grows read_u2.
Proof.
  unfold read_u2. apply grows_safe_fread_bind; [lia| | |].
  - intros r s b s' Hz. rewrite Hz. cbn. intros H. now injection H as _ <-.
  - intros r. repeat never_sets_ok_step.
  - intros r. apply grows_if; [|apply grows_ret].
    intros s b s' junk _ H. injection H as _ <-. discriminate.
Qed.

Lemma grows_read_u4 : grows read_u4.
Proof.
  unfold read_u4. apply grows_safe_fread_bind; [lia| | |].
  - intros r s b s' Hz. rewrite Hz. cbn. intros H. now injection H as _ <-.
  - intros r. repeat never_sets_ok_step.
  - intros r. apply grows_if; [|apply grows_ret].
    intros s b s' junk _ H. injection H as _ <-. discriminate.
Qed.


Ltac grows_leaf :=
  first
    [ apply grows_ret | apply grows_error | apply grows_get_ok
    | apply grows_put_ok | apply grows_fprintf_stderr | apply grows_malloc
    | apply grows_fseek_cur
    | assumption
    | match goal with
      | H : context [grows] |- grows _ => solve [apply H]
      end ].

(** One step through a section: a call is passed with the facts that it
    reads forward only, that it goes the same way on the longer file,
    and that what follows it never sets [ok]. *)
Ltac grows_step :=
  first
    [ grows_leaf
    | apply grows_if
    | apply grows_bind;
      [ solve [repeat local_step]
      | solve [grows_leaf]
      | intros ?; solve [repeat never_sets_ok_step]
      | intros ? ] ].

Lemma grows_read_constant_pool_entry (e : cp_info) :
  grows (read_constant_pool_entry e).
Proof.
  pose proof local_read_u1. pose proof local_read_u2.
  pose proof local_read_u4. pose proof local_safe_fread.
  pose proof never_sets_ok_read_u1. pose proof never_sets_ok_read_u2.
  pose proof never_sets_ok_read_u4. pose proof never_sets_ok_safe_fread.
  pose proof grows_read_u1. pose proof grows_read_u2.
  pose proof grows_read_u4.
  unfold read_constant_pool_entry, utf8_case, after_switch.
  grows_step. grows_step. apply grows_if; [apply grows_ret|].
  apply grows_if; [repeat grows_step|].
  apply grows_if; [|repeat grows_step].
  grows_step. grows_step. apply grows_if; [apply grows_ret|].
  apply grows_if; [repeat grows_step|].
  grows_step.
  apply grows_safe_fread_bind; [lia| | |].
  - intros r s b s' Hz. rewrite Hz. cbn. intros Hrun.
    now injection Hrun as _ <-.
  - intros r. repeat never_sets_ok_step.
  - intros r. repeat grows_step.
Qed.

Lemma grows_read_constant_pool (fuel : nat) (count i : Z)
    (pool : list cp_info) :
  grows (read_constant_pool fuel count i pool).
Proof.
  pose proof local_read_constant_pool_entry.
  pose proof never_sets_ok_read_constant_pool_entry.
  pose proof never_sets_ok_read_constant_pool.
  pose proof grows_read_constant_pool_entry.
  revert i pool. induction fuel as [|fuel IH]; intros i pool;
    cbn [read_constant_pool]; repeat grows_step.
Qed.

Lemma grows_skip_attributes (e1 e2 : diagnostic) (n : nat) :
  grows (skip_attributes e1 e2 n).
Proof.
  pose proof local_read_u2. pose proof local_read_u4.
  pose proof never_sets_ok_read_u2. pose proof never_sets_ok_read_u4.
  pose proof never_sets_ok_skip_attributes.
  pose proof grows_read_u2. pose proof grows_read_u4.
  induction n as [|n IH]; cbn [skip_attributes]; [apply grows_ret|].
  grows_step.
  apply (grows_bind_post (fun a => 0 <= a));
    [apply read_u4_nonneg|assumption|assumption
    |intros len _; solve [repeat never_sets_ok_step]|intros len Hlen].
  pose proof (local_fseek_cur len Hlen).
  repeat grows_step.
Qed.

Lemma grows_skip_fields (n : nat) : grows (skip_fields n).
Proof.
  pose proof local_read_u2. pose proof local_skip_attributes.
  pose proof never_sets_ok_read_u2. pose proof never_sets_ok_skip_attributes.
  pose proof never_sets_ok_skip_fields.
  pose proof grows_read_u2. pose proof grows_skip_attributes.
  induction n as [|n IH]; cbn [skip_fields]; repeat grows_step.
Qed.

Lemma grows_skip_code_tail : grows skip_code_tail.
Proof.
  pose proof local_read_u2. pose proof local_skip_attributes.
  pose proof never_sets_ok_read_u2. pose proof never_sets_ok_skip_attributes.
  pose proof grows_read_u2. pose proof grows_skip_attributes.
  unfold skip_code_tail.
  apply (grows_bind_post (fun a => 0 <= a));
    [apply read_u2_nonneg|assumption|assumption
    |intros etl _; repeat never_sets_ok_step|intros etl Hetl].
  pose proof (local_fseek_cur (etl * 8) ltac:(lia)).
  repeat grows_step.
Qed.

Lemma grows_read_code_attribute (m : method_info) :
  grows (read_code_attribute m).
Proof.
  pose proof local_read_u2. pose proof local_read_u4.
  pose proof local_safe_fread. pose proof local_skip_code_tail.
  pose proof never_sets_ok_read_u2. pose proof never_sets_ok_read_u4.
  pose proof never_sets_ok_safe_fread. pose proof never_sets_ok_skip_code_tail.
  pose proof grows_read_u2. pose proof grows_read_u4.
  pose proof grows_skip_code_tail.
  unfold read_code_attribute, calloc.
  do 5 grows_step. apply grows_if; [apply grows_error|].
  grows_step.
  apply grows_safe_fread_bind; [lia| | |].
  - intros r s b s' Hz. rewrite Hz. cbn. discriminate.
  - intros r. repeat never_sets_ok_step.
  - intros r. repeat grows_step.
Qed.

Lemma grows_read_method_attribute (count : Z) (pool : list cp_info)
    (m : method_info) :
  grows (read_method_attribute count pool m).
Proof.
  pose proof local_read_u2. pose proof local_read_u4.
  pose proof never_sets_ok_read_u2. pose proof never_sets_ok_read_u4.
  pose proof never_sets_ok_read_code_attribute.
  pose proof grows_read_u2. pose proof grows_read_u4.
  pose proof grows_read_code_attribute.
  unfold read_method_attribute, dispatch_method_attribute.
  grows_step.
  apply (grows_bind_post (fun a => 0 <= a));
    [apply read_u4_nonneg|assumption|assumption
    |intros len _; solve [repeat never_sets_ok_step]|intros len Hlen].
  pose proof (local_fseek_cur len Hlen).
  repeat grows_step.
Qed.

Lemma grows_read_method_attributes (count : Z) (pool : list cp_info)
    (n : nat) (m : method_info) :
  grows (read_method_attributes count pool n m).
Proof.
  pose proof (local_read_method_attribute count pool).
  pose proof (never_sets_ok_read_method_attributes count pool).
  pose proof (grows_read_method_attribute count pool).
  revert m. induction n as [|n IH]; intros m;
    cbn [read_method_attributes]; repeat grows_step.
Qed.

Lemma grows_read_method (count : Z) (pool : list cp_info) :
  grows (read_method count pool).
Proof.
  pose proof local_read_u2.
  pose proof never_sets_ok_read_u2.
  pose proof (never_sets_ok_read_method_attributes count pool).
  pose proof grows_read_u2.
  pose proof (grows_read_method_attributes count pool).
  unfold read_method. repeat grows_step.
Qed.

Lemma grows_read_methods (count : Z) (pool : list cp_info) (n : nat) :
  grows (read_methods count pool n).
Proof.
  pose proof (local_read_method count pool).
  pose proof (local_read_methods count pool).
  pose proof (never_sets_ok_read_methods count pool).
  pose proof (grows_read_method count pool).
  induction n as [|n IH]; cbn [read_methods]; repeat grows_step.
Qed.

Lemma grows_skip_interfaces : grows skip_interfaces.
Proof.
  pose proof local_read_u2. pose proof never_sets_ok_read_u2.
  pose proof grows_read_u2.
  unfold skip_interfaces.
  apply (grows_bind_post (fun a => 0 <= a));
    [apply read_u2_nonneg|assumption|assumption
    |intros n _; repeat never_sets_ok_step|intros n Hn].
  pose proof (local_fseek_cur (n * 2) ltac:(lia)).
  repeat grows_step.
Qed.

Lemma grows_read_class_file_body : grows read_class_file_body.
Proof.
  pose proof local_read_u2. pose proof local_read_u4.
  pose proof local_read_magic. pose proof local_read_version.
  pose proof local_read_pool. pose proof local_read_class_header.
  pose proof local_skip_interfaces. pose proof local_read_fields.
  pose proof local_read_constant_pool. pose proof local_skip_fields.
  pose proof local_read_methods.
  pose proof never_sets_ok_read_u2. pose proof never_sets_ok_read_u4.
  pose proof never_sets_ok_read_magic. pose proof never_sets_ok_read_version.
  pose proof never_sets_ok_read_pool.
  pose proof never_sets_ok_read_class_header.
  pose proof never_sets_ok_skip_interfaces.
  pose proof never_sets_ok_read_fields.
  pose proof never_sets_ok_read_method_table.
  pose proof never_sets_ok_read_after_version.
  pose proof never_sets_ok_read_constant_pool.
  pose proof never_sets_ok_skip_fields.
  pose proof never_sets_ok_read_methods.
  pose proof grows_read_u2. pose proof grows_read_u4.
  pose proof grows_read_constant_pool. pose proof grows_skip_fields.
  pose proof grows_skip_interfaces. pose proof grows_read_methods.
  assert (grows read_magic) by (unfold read_magic; repeat grows_step).
  assert (grows read_version) by (unfold read_version; repeat grows_step).
  assert (grows read_pool) by (unfold read_pool, calloc; repeat grows_step).
  assert (grows read_class_header)
    by (unfold read_class_header; repeat grows_step).
  assert (grows read_fields) by (unfold read_fields; repeat grows_step).
  assert (forall count pool, grows (read_method_table count pool))
    by (intros; unfold read_method_table, calloc; repeat grows_step).
  unfold read_class_file_body, read_after_version. repeat grows_step.
Qed.

(** X16. Bytes that follow a class which the decoder accepts are of no
    account: when a file is decoded to a [ClassFile], so is every file
    that starts with the same bytes and goes on, to the same
    [ClassFile], at the same position, with nothing printed and the same
    requests made.  (What follows the method table, such as the
    attributes of the class, is never read.) *)
Theorem appended_bytes_are_ignored
    (content junk : list byte) (cf : ClassFile) (s : state) :
  read_class_file content = (Done cf, s) ->
  read_class_file (content ++ junk)
  = (Done cf, with_data (content ++ junk) s).
Proof.
  intros Hrun.
  destruct (wp_done _ _ _ _ _
              (read_class_file_body_clean _ (clean_initial content)) Hrun)
    as [Hok _].
  exact (grows_read_class_file_body (initial_state content) cf s junk
           (Z.le_refl 0) Hrun Hok).
Qed.

Lemma appended_bytes_are_ignored_witness :
  read_class_file (file_cut_in_attribute ++ attribute_payload)
  = (fst (read_class_file file_cut_in_attribute),
     with_data (file_cut_in_attribute ++ attribute_payload)
       (snd (read_class_file file_cut_in_attribute))).
Proof.
  exact (appended_bytes_are_ignored file_cut_in_attribute attribute_payload
           _ _ ltac:(vm_compute; reflexivity)).
Defined.


(** ** [main] *)

(** X17. The command line of [main].  With fewer than two or more than
    three arguments (the program name counted) it prints the three usage
    lines and returns 1 without opening any file.  With [-d] as the
    first of two arguments it sets [debug_mode] and otherwise does what
    it does for the class file alone.  When the first of two arguments
    is not [-d], the second one is ignored without a word. *)
Theorem main_command_line (files : file_system) :
  (forall argv,
     (List.length argv < 2 \/ 3 < List.length argv)%nat ->
     main files argv
     = mk_main_result 1
         [out_usage (argv_at argv 0); out_options; out_option_d] [] false [])
  /\ (forall prog file,
        main files [prog; "-d"; file]
        = mk_main_result (exit_status (main files [prog; file]))
            (main_stdout (main files [prog; file]))
            (main_stderr (main files [prog; file]))
            true
            (main_released (main files [prog; file])))
  /\ (forall prog file other,
        file <> "-d" ->
        main files [prog; file; other] = main files [prog; file]).
Proof.
  split; [|split].
  - intros argv Hlen. unfold main.
    destruct (Z.ltb_spec (Z.of_nat (List.length argv)) 2) as [|Hge];
      [reflexivity|].
    destruct (Z.gtb_spec (Z.of_nat (List.length argv)) 3) as [|Hle];
      [reflexivity|lia].
  - intros prog file. unfold main.
    change (Z.of_nat (List.length [prog; "-d"; file])) with 3.
    change (Z.of_nat (List.length [prog; file])) with 2.
    change ((3 <? 2) || (3 >? 3)) with false.
    change ((2 <? 2) || (2 >? 3)) with false.
    change ((3 =? 3) && String.eqb (argv_at [prog; "-d"; file] 1) "-d")
      with true.
    change ((2 =? 3) && String.eqb (argv_at [prog; file] 1) "-d") with false.
    change (argv_at [prog; "-d"; file] 2) with file.
    change (argv_at [prog; file] 1) with file.
    cbv beta iota zeta.
    destruct (read_class_file_named files file) as [[cf|] errs]; reflexivity.
  - intros prog file other Hne. unfold main.
    change (Z.of_nat (List.length [prog; file; other])) with 3.
    change (Z.of_nat (List.length [prog; file])) with 2.
    change ((3 <? 2) || (3 >? 3)) with false.
    change ((2 <? 2) || (2 >? 3)) with false.
    change ((2 =? 3) && String.eqb (argv_at [prog; file] 1) "-d") with false.
    change (argv_at [prog; file; other] 1) with file.
    change (argv_at [prog; file] 1) with file.
    destruct (String.eqb_spec file "-d") as [|_]; [contradiction|].
    reflexivity.
Qed.

Lemma main_command_line_witness :
  main (fun _ => Some file_with_Code_method) ["diyjvm"]
  = mk_main_result 1 [out_usage "diyjvm"; out_options; out_option_d]
      [] false []
  /\ main (fun _ => Some file_with_Code_method) ["diyjvm"; "A.class"; "-d"]
     = main (fun _ => Some file_with_Code_method) ["diyjvm"; "A.class"].
Proof.
  split.
  - exact (proj1 (main_command_line (fun _ => Some file_with_Code_method))
             ["diyjvm"] ltac:(left; cbn; lia)).
  - exact (proj2 (proj2 (main_command_line
                           (fun _ => Some file_with_Code_method)))
             "diyjvm" "A.class" "-d" ltac:(discriminate)).
Defined.

Lemma map_replicate {A B} (f : A -> B) (n : nat) (x : A) :
  map f (replicate n x) = replicate n (f x).
Proof. induction n as [|n IH]; [reflexivity|]. cbn. now f_equal. Qed.

(** X18. What [main] reports for a class file.  When the file cannot
    be opened or the decoder returns [NULL], [main] returns 1 and prints
    nothing on [stdout]; the last line on [stderr] is "Failed to read
    class file", the one before it the message of the decoder (or that
    of the failed [fopen]), and any lines before that are "Unexpected
    end of file.".  When the decoder returns a [ClassFile], [main]
    returns 0, prints nothing on [stderr] and five lines on [stdout]:
    the name, the magic number, always [0xCAFEBABE], the version as
    major.minor with the major version in 45..69, and the two counts as
    the file declares them, which are the sizes of the two tables; then
    it hands the [ClassFile] to [free_class_file]. *)
Theorem main_reports_the_class_file
    (files : file_system) (prog file : string) :
  match files file with
  | None =>
      main files [prog; file]
      = mk_main_result 1 []
          [err_open_failed file; err_failed_to_read file] false []
  | Some content =>
      match read_class_file content with
      | (Done cf, _) =>
          main files [prog; file]
          = mk_main_result 0
              [out_class_file file; out_magic JAVA_MAGIC;
               out_version (major_version cf) (minor_version cf);
               out_pool_entries (Z.of_nat (List.length (constant_pool cf)));
               out_methods (Z.of_nat (List.length (methods cf)))]
              [] false (free_class_file (Some cf))
          /\ 45 <= major_version cf <= 69
      | (Aborted e, _) =>
          exists n,
            main files [prog; file]
            = mk_main_result 1 []
                (replicate n (err_decoder msg_unexpected_eof)
                 ++ [err_decoder e; err_failed_to_read file])
                false []
      end
  end.
Proof.
  unfold main.
  change (Z.of_nat (List.length [prog; file])) with 2.
  change ((2 <? 2) || (2 >? 3)) with false.
  change ((2 =? 3) && String.eqb (argv_at [prog; file] 1) "-d") with false.
  change (argv_at [prog; file] 1) with file.
  cbv beta iota zeta.
  unfold read_class_file_named.
  destruct (files file) as [content|]; [|reflexivity].
  pose proof (reports_read_class_file_body (initial_state content)
                (Forall_nil_2 _)) as Hrep.
  pose proof (read_class_file_body_clean _ (clean_initial content)) as Hcl.
  pose proof (read_class_file_body_memory (initial_state content)) as Hmem.
  pose proof (read_class_file_body_result (initial_state content)) as Hres.
  unfold wp in Hcl, Hmem, Hres. unfold read_class_file, returned.
  destruct (read_class_file_body (initial_state content)) as [[cf|e] s];
    cbn [fst snd].
  - destruct Hcl as [_ Herr].
    destruct Hmem as (Hmg & Hv & Hc & Hn & _).
    destruct Hres as (_ & Hlp & _ & _ & _ & Hlm).
    rewrite Herr, Hmg, Hlp, Hlm, !Z2Nat.id by assumption.
    split; [reflexivity|exact Hv].
  - destruct Hrep as [(causes & Hs & Hc) _].
    exists (List.length causes). rewrite Hs, map_app.
    rewrite (only_eof_replicate causes Hc) at 1.
    rewrite map_replicate, <- app_assoc. reflexivity.
Qed.

Lemma main_reports_the_class_file_witness :
  main (fun _ => Some file_with_Code_method) ["diyjvm"; "A.class"]
  = mk_main_result 0
      [out_class_file "A.class"; out_magic JAVA_MAGIC; out_version 65 0;
       out_pool_entries 2; out_methods 1]
      [] false [5; 3; 16; 48; 16; 48]
  /\ main (fun _ => Some [xca; xfe; xba]) ["diyjvm"; "A.class"]
     = mk_main_result 1 []
         [err_decoder msg_unexpected_eof; err_decoder msg_invalid_magic;
          err_failed_to_read "A.class"]
         false []
  /\ main (fun _ => None) ["diyjvm"; "A.class"]
     = mk_main_result 1 []
         [err_open_failed "A.class"; err_failed_to_read "A.class"] false [].
Proof.
  pose proof (main_reports_the_class_file
                (fun _ => Some file_with_Code_method) "diyjvm" "A.class")
    as H1.
  pose proof (main_reports_the_class_file
                (fun _ => Some [xca; xfe; xba]) "diyjvm" "A.class") as H2.
  pose proof (main_reports_the_class_file (fun _ => None) "diyjvm" "A.class")
    as H3.
  vm_compute in H1, H2, H3. vm_compute.
  destruct H1 as [H1 _]. destruct H2 as [n H2].
  split; [exact H1|]. split; [|exact H3].
  destruct n as [|[|[|n]]]; try discriminate H2. reflexivity.
Defined.


(** ** Files cut in the header, and classes without pool entries *)

Lemma cursor_short_read (s : state) (bs : list byte) :
  cursor s bs -> cursor (short_read (Z.of_nat (List.length bs)) s) [].
Proof.
  intros Hc. pose proof (cursor_advance s bs []) as Ha.
  rewrite app_nil_r in Ha. exact (Ha Hc).
Qed.

(** A 2-byte read that is short or follows a short read. *)
Lemma read_u2_after_short (s : state) (bs : list byte) :
  cursor s bs -> (List.length bs < 2)%nat ->
  exists s', read_u2 s = (Done 0, s') /\ cursor s' [] /\ ok s' = false.
Proof.
  intros Hc Hlen. exists (short_read (Z.of_nat (List.length bs)) s).
  split; [exact (read_u2_short s bs Hc Hlen)|].
  split; [exact (cursor_short_read s bs Hc)|reflexivity].
Qed.

(** X20. Files that end in the first ten bytes.  A file of fewer than
    four bytes, the empty file included, is refused with the message of
    the magic check.  A file that ends in the version pair is refused
    with "Could not read version numbers.", whether it is the minor or
    the major version that is cut.  A file that ends in the pool count
    is refused with "Invalid constant pool count.", the message of a
    count that is too large. *)
Theorem file_cut_in_the_header :
  (forall content,
     (List.length content < 4)%nat ->
     fst (read_class_file content) = Aborted msg_invalid_magic)
  /\ (forall bs,
        (List.length bs < 4)%nat ->
        fst (read_class_file ([xca; xfe; xba; xbe] ++ bs))
        = Aborted msg_version_unreadable)
  /\ (forall m0 m1 j0 j1 bs,
        45 <= be_value [j0; j1] <= 69 -> (List.length bs < 2)%nat ->
        fst (read_class_file ([xca; xfe; xba; xbe; m0; m1; j0; j1] ++ bs))
        = Aborted msg_invalid_pool_count).
Proof.
  split; [|split].
  - intros content Hlen.
    pose proof (cursor_initial content) as Hc.
    unfold read_class_file, read_class_file_body. step_pure.
    change (cursor (add_alloc sizeof_ClassFile (initial_state content))
              content) in Hc.
    unfold read_magic.
    rewrite bind_assoc.
    rewrite (bind_done _ _ _ _ _ (read_u4_short _ content Hc Hlen)).
    reflexivity.
  - intros bs Hlen.
    pose proof (cursor_initial ([xca; xfe; xba; xbe] ++ bs)) as Hc.
    unfold read_class_file, read_class_file_body. step_pure.
    set (s0 := add_alloc _ _) in *.
    change (cursor s0 (xca :: xfe :: xba :: xbe :: bs)) in Hc.
    rewrite (bind_done _ _ _ _ _
               (read_magic_match s0 _ _ _ _ _ Hc eq_refl eq_refl)).
    apply (cursor_tail s0 [xca; xfe; xba; xbe] _ 4) in Hc; [|reflexivity].
    unfold read_version. rewrite bind_assoc.
    destruct (Nat.lt_ge_cases (List.length bs) 2) as [Hlt|Hge].
    + destruct (read_u2_after_short _ bs Hc Hlt) as (s1 & Hr1 & Hc1 & Hk1).
      rewrite (bind_done _ _ _ _ _ Hr1). rewrite bind_assoc.
      destruct (read_u2_after_short _ [] Hc1 ltac:(cbn; lia))
        as (s2 & Hr2 & _ & Hk2).
      rewrite (bind_done _ _ _ _ _ Hr2), ?bind_assoc. step_pure.
      rewrite Hk2.
      reflexivity.
    + destruct bs as [|m0 [|m1 tl]]; cbn in Hge; try lia.
      step_u2 Hc. rewrite bind_assoc.
      destruct (read_u2_after_short _ tl Hc ltac:(cbn in Hlen; lia))
        as (s2 & Hr2 & _ & Hk2).
      rewrite (bind_done _ _ _ _ _ Hr2), ?bind_assoc. step_pure.
      rewrite Hk2.
      reflexivity.
  - intros m0 m1 j0 j1 bs Hv Hlen.
    rewrite read_class_file_to_version. cbv zeta.
    destruct (Z.ltb_spec (be_value [j0; j1]) 45); [lia|].
    destruct (Z.gtb_spec (be_value [j0; j1]) 69); [lia|]. cbn [orb].
    unfold read_after_version, read_pool. rewrite !bind_assoc.
    assert (Hc : cursor
                   (advance 8
                      (add_alloc sizeof_ClassFile
                         (initial_state
                            ([xca; xfe; xba; xbe; m0; m1; j0; j1] ++ bs))))
                   bs)
      by exact (cursor_tail _ [xca; xfe; xba; xbe; m0; m1; j0; j1] _ 8
                  (cursor_initial _) eq_refl).
    destruct (read_u2_after_short _ bs Hc Hlen) as (s1 & Hr1 & _ & Hk1).
    rewrite (bind_done _ _ _ _ _ Hr1), ?bind_assoc. step_pure.
    rewrite Hk1.
    reflexivity.
Qed.

Lemma file_cut_in_the_header_witness :
  fst (read_class_file []) = Aborted msg_invalid_magic
  /\ fst (read_class_file ([xca; xfe; xba; xbe] ++ [x00; x00; x00]))
     = Aborted msg_version_unreadable
  /\ fst (read_class_file
            ([xca; xfe; xba; xbe; x00; x00; x00; x41] ++ [x00]))
     = Aborted msg_invalid_pool_count.
Proof.
  split; [|split].
  - exact (proj1 file_cut_in_the_header [] ltac:(cbn; lia)).
  - exact (proj1 (proj2 file_cut_in_the_header) [x00; x00; x00]
             ltac:(cbn; lia)).
  - exact (proj2 (proj2 file_cut_in_the_header) x00 x00 x00 x41 [x00]
             ltac:(vm_compute; split; discriminate) ltac:(cbn; lia)).
Defined.


Lemma read_class_header_layout (s : state) (a0 a1 t0 t1 p0 p1 : byte)
    (rest : list byte) :
  cursor s (a0 :: a1 :: t0 :: t1 :: p0 :: p1 :: rest) -> ok s = true ->
  read_class_header s
  = (Done (be_value [a0; a1], be_value [t0; t1], be_value [p0; p1]),
     advance 6 s).
Proof.
  intros Hc Hok. unfold read_class_header.
  step_u2 Hc. step_u2 Hc. step_u2 Hc. step_pure.
  rewrite ok_advance, Hok. reflexivity.
Qed.

Lemma read_method_table_empty (count : Z) (pool : list cp_info) (s : state)
    (rest : list byte) :
  cursor s (x00 :: x00 :: rest) -> ok s = true ->
  read_method_table count pool s
  = (Done (0, []), add_alloc 0 (advance 2 s)).
Proof.
  intros Hc Hok. unfold read_method_table. step_u2 Hc. step_pure.
  rewrite ok_advance, Hok. reflexivity.
Qed.

(** X21. A class without pool entries and without methods, from the
    first byte to the last.  The ten items of the header are stored as
    the big-endian values of their bytes, in the order magic, minor,
    major, pool count, access flags, this class, super class, interface
    count, field count, method count; the pool table is all zeroed
    slots; the interface table and the fields are passed over; three
    blocks are requested (the [ClassFile] and the two tables, the method
    table with no slot); and the decoder stops right after the method
    count, in front of whatever follows. *)
Theorem class_without_entries_and_methods
    (m0 m1 j0 j1 c0 c1 a0 a1 t0 t1 p0 p1 i0 i1 f0 f1 : byte)
    (ifaces bs rest : list byte) :
  45 <= be_value [j0; j1] <= 69 ->
  be_value [c0; c1] <= 1 ->
  Z.of_nat (List.length ifaces) = 2 * be_value [i0; i1] ->
  fields_end (Z.to_nat (be_value [f0; f1])) bs = Some (x00 :: x00 :: rest) ->
  exists s,
    read_class_file
      ([xca; xfe; xba; xbe; m0; m1; j0; j1]
       ++ [c0; c1; a0; a1; t0; t1; p0; p1; i0; i1] ++ ifaces
       ++ [f0; f1] ++ bs)
    = (Done (mk_ClassFile JAVA_MAGIC (be_value [m0; m1]) (be_value [j0; j1])
               (be_value [c0; c1])
               (replicate (Z.to_nat (be_value [c0; c1])) cp_zero)
               (be_value [a0; a1]) (be_value [t0; t1]) (be_value [p0; p1])
               (be_value [i0; i1]) (be_value [f0; f1]) 0 []),
       s)
    /\ cursor s rest
    /\ fpos s
       = 22 + 2 * be_value [i0; i1]
         + fields_size (Z.to_nat (be_value [f0; f1])) bs
    /\ allocs s
       = [sizeof_ClassFile; be_value [c0; c1] * sizeof_cp_info; 0]
    /\ stderr s = [].
Proof.
  intros Hv Hcount Hifaces Hfields.
  rewrite read_class_file_to_version. cbv zeta.
  destruct (Z.ltb_spec (be_value [j0; j1]) 45); [lia|].
  destruct (Z.gtb_spec (be_value [j0; j1]) 69); [lia|]. cbn [orb].
  set (content := [xca; xfe; xba; xbe; m0; m1; j0; j1] ++ _).
  set (s8 := advance 8 (add_alloc sizeof_ClassFile (initial_state content))).
  assert (Hc : cursor s8
                 ([c0; c1; a0; a1; t0; t1; p0; p1; i0; i1] ++ ifaces
                  ++ [f0; f1] ++ bs))
    by exact (cursor_tail _ [xca; xfe; xba; xbe; m0; m1; j0; j1] _ 8
                (cursor_initial content) eq_refl).
  assert (Hok : ok s8 = true) by reflexivity.
  assert (Ha : allocs s8 = [sizeof_ClassFile]) by reflexivity.
  assert (He : stderr s8 = []) by reflexivity.
  assert (Hp : fpos s8 = 8) by reflexivity.
  clearbody s8. clear content.
  unfold read_after_version.
  assert (Hpool : read_pool s8
                  = (Done (be_value [c0; c1],
                           replicate (Z.to_nat (be_value [c0; c1])) cp_zero),
                     add_alloc (be_value [c0; c1] * sizeof_cp_info)
                       (advance 2 s8))).
  { pose proof Hc as Hc'. cbn [app] in Hc'. unfold read_pool. step_u2 Hc'.
    step_pure. rewrite ok_advance, Hok. cbn [negb orb].
    destruct (Z.gtb_spec (be_value [c0; c1]) MAX_CONSTANT_POOL_SIZE) as [Hgt|_];
      [unfold MAX_CONSTANT_POOL_SIZE in Hgt; lia|].
    step_pure.
    now rewrite (bind_done _ _ _ _ _
                   (read_constant_pool_exit (Z.to_nat (be_value [c0; c1]))
                      (be_value [c0; c1]) 1 _ _ Hcount)). }
  assert (Hc1 : cursor (add_alloc (be_value [c0; c1] * sizeof_cp_info)
                          (advance 2 s8))
                  ([a0; a1; t0; t1; p0; p1; i0; i1] ++ ifaces
                   ++ [f0; f1] ++ bs))
    by exact (cursor_tail s8 [c0; c1] _ 2 Hc eq_refl).
  rewrite (bind_done _ _ _ _ _ Hpool). cbn [fst snd].
  set (s10 := add_alloc _ (advance 2 s8)) in *.
  rewrite (bind_done _ _ _ _ _
             (read_class_header_layout s10 a0 a1 t0 t1 p0 p1 _ Hc1 Hok)).
  cbn [fst snd].
  apply (cursor_tail s10 [a0; a1; t0; t1; p0; p1] _ 6) in Hc1;
    [|reflexivity].
  set (s_i := advance (2 + Z.of_nat (List.length ifaces)) (advance 6 s10)).
  assert (Hint : skip_interfaces (advance 6 s10)
                 = (Done (be_value [i0; i1]), s_i)
                 /\ cursor s_i ([f0; f1] ++ bs)).
  { pose proof (be_value_2_range i0 i1) as Hr.
    assert (Hok10 : ok s10 = true) by exact Hok.
    unfold skip_interfaces. cbn [app] in Hc1. step_u2 Hc1. step_pure.
    rewrite !ok_advance, Hok10. cbn [negb].
    apply (cursor_advance _ ifaces) in Hc1.
    rewrite !advance_advance in Hc1. subst s_i. rewrite !advance_advance.
    destruct (Z.gtb_spec (be_value [i0; i1]) 0) as [Hpos|Hz].
    - step_pure. cbn [Z.eqb negb]. rewrite !advance_advance.
      replace (6 + 2 + be_value [i0; i1] * 2)
        with (6 + 2 + Z.of_nat (List.length ifaces)) by lia.
      replace (6 + (2 + Z.of_nat (List.length ifaces)))
        with (6 + 2 + Z.of_nat (List.length ifaces)) by lia.
      split; [reflexivity|exact Hc1].
    - replace (6 + (2 + Z.of_nat (List.length ifaces))) with (6 + 2) by lia.
      replace (6 + 2 + Z.of_nat (List.length ifaces)) with (6 + 2) in Hc1
        by lia.
      split; [reflexivity|exact Hc1]. }
  destruct Hint as [Hint Hc2].
  rewrite (bind_done _ _ _ _ _ Hint).
  assert (Hfld : read_fields s_i
                 = (Done (be_value [f0; f1]),
                    advance
                      (2 + fields_size (Z.to_nat (be_value [f0; f1])) bs) s_i)
                 /\ cursor
                      (advance
                         (2 + fields_size (Z.to_nat (be_value [f0; f1])) bs)
                         s_i)
                      (x00 :: x00 :: rest)).
  { pose proof Hc2 as Hc2'. cbn [app] in Hc2'. unfold read_fields.
    step_u2 Hc2'. step_pure.
    assert (Hok_i : ok s_i = true) by exact Hok.
    rewrite ok_advance, Hok_i. cbn [negb].
    destruct (skip_fields_layout _ _ _ _ Hc2' Hok_i Hfields) as [Hrun Hc3].
    rewrite (bind_done _ _ _ _ _ Hrun). rewrite !advance_advance in *.
    split; [reflexivity|exact Hc3]. }
  destruct Hfld as [Hfld Hc3].
  rewrite (bind_done _ _ _ _ _ Hfld).
  set (s_f := advance _ s_i) in *.
  rewrite (bind_done _ _ _ _ _
             (read_method_table_empty _ _ s_f rest Hc3 Hok)).
  eexists. split; [reflexivity|].
  apply (cursor_tail s_f [x00; x00] rest 2) in Hc3; [|reflexivity].
  split; [exact Hc3|].
  subst s_f s_i s10.
  cbn [fpos allocs stderr advance set_fpos add_alloc].
  rewrite Hp, Ha, He. repeat split. lia.
Qed.

Lemma class_without_entries_and_methods_witness :
  exists s,
    read_class_file
      ([xca; xfe; xba; xbe; x00; x03; x00; x34]
       ++ [x00; x01; x00; x21; x00; x07; x00; x02; x00; x01] ++ [x00; x09]
       ++ [x00; x00] ++ [x00; x00; xaa])
    = (Done (mk_ClassFile JAVA_MAGIC 3 52 1 [cp_zero] 33 7 2 1 0 0 []), s)
    /\ cursor s [xaa]
    /\ fpos s = 22 + 2 * 1 + 0
    /\ allocs s = [sizeof_ClassFile; 1 * sizeof_cp_info; 0]
    /\ stderr s = [].
Proof.
  exact (class_without_entries_and_methods
           x00 x03 x00 x34 x00 x01 x00 x21 x00 x07 x00 x02 x00 x01 x00 x00
           [x00; x09] [x00; x00; xaa] [xaa]
           ltac:(vm_compute; split; discriminate)
           ltac:(vm_compute; discriminate) eq_refl eq_refl).
Defined.
